(** * IDArling server storage (idarling/shared/storage.py)

    A shallow embedding of the [Storage] class and of the part of the SQL
    engine its statements exercise, with the properties of the event log, of
    the generic statement builder and of the entity repositories.

    Layout: Python values and dicts; the SQL engine (schema, affinity,
    constraints, the four statement shapes the module emits); the model
    objects; the methods of [Storage] in source order; invariants; the
    properties. *)

From Stdlib Require Import ZArith.
From stdpp Require Import gmap strings list sorting pretty.

Open Scope string_scope.
Open Scope list_scope.
Open Scope Z_scope.

(** ** Python values and dictionaries *)

(** The values that travel between the callers, this module and the engine:
    [None], integers and text. *)
Inductive value :=
  | VNone
  | VInt (n : Z)
  | VStr (s : string).

Global Instance value_eq_dec : EqDecision value.
Proof. solve_decision. Defined.

(** Python truthiness, as used by [if val] and [if limit]. *)
Definition truthy (v : value) : bool :=
  match v with
  | VNone => false
  | VInt n => negb (Z.eqb n 0)
  | VStr s => negb (String.eqb s "")
  end.

(** An insertion-ordered dict with string keys. *)
Definition pydict := list (string * value).

(** [d.keys()] and [d.values()]. *)
Definition keys (d : pydict) : list string := d.*1.
Definition values (d : pydict) : list value := d.*2.

(** The first binding of [k] in an association list. *)
Fixpoint assoc {A} (k : string) (l : list (string * A)) : option A :=
  match l with
  | [] => None
  | (k', v) :: l' => if decide (k' = k) then Some v else assoc k l'
  end.

(** [d.get(k)] *)
Definition dict_get (k : string) (d : pydict) : option value := assoc k d.

(** The dict without the key [k]. *)
Definition dict_remove (k : string) (d : pydict) : pydict :=
  List.filter (λ kv, bool_decide (kv.1 ≠ k)) d.

(** [{key: val for key, val in d.items() if val}] *)
Definition drop_falsy (d : pydict) : pydict :=
  List.filter (λ kv, truthy kv.2) d.

(** Exceptions that reach the caller. *)
Inductive exn :=
  | IntegrityError      (* sqlite3: a constraint failed *)
  | OperationalError    (* sqlite3: no such table or column, syntax error *)
  | ProgrammingError    (* sqlite3: wrong number of bindings *)
  | KeyError            (* dict.pop of a missing key *)
  | TypeError.          (* json.loads of something that is not text *)

Inductive res (A : Type) :=
  | Ok (a : A)
  | Raise (e : exn).
Arguments Ok {A} a.
Arguments Raise {A} e.

(** [d.pop(k)] without a default: the value and the remaining dict, or
    [KeyError]. *)
Definition dict_pop (k : string) (d : pydict) : res (value * pydict) :=
  match dict_get k d with
  | Some v => Ok (v, dict_remove k d)
  | None => Raise KeyError
  end.

(** ** The SQL engine

    The module talks to sqlite3 through statements of four shapes. The engine
    is modelled on those shapes: tables are lists of rows in insertion order,
    a declared column has an affinity and a NOT NULL flag, a table has a
    primary key; foreign keys are declared and not enforced (the connection
    never turns them on). *)
Module Sqlite.

Inductive affinity := TEXT | INTEGER.

(** One entry of the column list given to [create table]. *)
Inductive coldef :=
  | Col (name : string) (aff : affinity) (not_null : bool)
  | PrimaryKey (cols : list string)
  | ForeignKey (cols : list string) (ref_table : string) (ref_cols : list string).

(** A row maps column names to values, in column order (sqlite3.Row). *)
Definition row := list (string * value).

Record table := Table { tbl_defs : list coldef; tbl_rows : list row }.

(** The database file: its tables by name. *)
Abbreviation db := (gmap string table).

Definition columns (defs : list coldef) : list (string * (affinity * bool)) :=
  omap (λ d, match d with Col n a nn => Some (n, (a, nn)) | _ => None end) defs.

Definition column_names (defs : list coldef) : list string := (columns defs).*1.

Definition primary_key (defs : list coldef) : list string :=
  mjoin (omap (λ d, match d with PrimaryKey cs => Some cs | _ => None end) defs).

Definition affinity_of (defs : list coldef) (c : string) : option affinity :=
  fst <$> assoc c (columns defs).

Definition not_null (defs : list coldef) (c : string) : bool :=
  default false (snd <$> assoc c (columns defs)).

(** Column affinity applied to a value that is stored in, or compared
    with, a column: a TEXT column turns an integer into its decimal text.
    (An INTEGER column would turn numeric-looking text into a number; this
    module only ever binds Python integers to [tick], and the model keeps
    text as it is.) *)
Definition coerce (a : affinity) (v : value) : value :=
  match a, v with
  | TEXT, VInt n => VStr (pretty n)
  | _, _ => v
  end.

(** [row[c]]; a column the row does not have reads as NULL. *)
Definition cell (r : row) (c : string) : value := default VNone (assoc c r).

Definition set_cell (c : string) (v : value) (r : row) : row :=
  (λ kv, if decide (kv.1 = c) then (c, v) else kv) <$> r.

(** The order of [order by]: NULL first, then integers, then text by
    bytes. *)
Definition value_leb (a b : value) : bool :=
  match a, b with
  | VNone, _ => true
  | _, VNone => false
  | VInt x, VInt y => bool_decide (x ≤ y)
  | VInt _, VStr _ => true
  | VStr _, VInt _ => false
  | VStr s, VStr t => String.leb s t
  end.

Inductive cmp := CmpEq | CmpGt.

(** [stored op ?]: a comparison with NULL is never true. *)
Definition sql_test (op : cmp) (stored p : value) : bool :=
  match stored, p with
  | VNone, _ | _, VNone => false
  | _, _ =>
      match op with
      | CmpEq => bool_decide (stored = p)
      | CmpGt => negb (value_leb stored p)
      end
  end.

Inductive direction := Asc | Desc.

(** The statements the module emits; every [?] is bound from the
    parameter list, in order. *)
Inductive stmt :=
  | CreateTable (name : string) (defs : list coldef)
      (* create table if not exists name (defs); *)
  | InsertInto (name : string) (cols : list string)
      (* insert into name (cols) values (?, ...); *)
  | Select (proj : option (list string)) (name : string)
           (conds : list (string * cmp))
           (order : option (string * direction)) (limit : option Z)
      (* select proj from name [where c op ? and ...] [order by c dir] [limit n]; *)
  | Update (name field : string) (conds : list (string * cmp)) (limit : option Z).
      (* update name set field = ? [where c op ? and ...] [limit n]; *)

Definition known (defs : list coldef) (cs : list string) : Prop :=
  Forall (λ c, c ∈ column_names defs) cs.

(** The where clause with its parameters bound and coerced. *)
Definition bind_conds (defs : list coldef) (conds : list (string * cmp))
    (params : list value) : list (string * cmp * value) :=
  zip_with (λ c p, (c, coerce (default TEXT (affinity_of defs c.1)) p)) conds params.

Definition row_matches (bound : list (string * cmp * value)) (r : row) : bool :=
  forallb (λ b, sql_test b.1.2 (cell r b.1.1) b.2) bound.

Definition order_rows (order : option (string * direction)) (rows : list row) : list row :=
  match order with
  | None => rows
  | Some (c, Asc) => merge_sort (λ r1 r2, Is_true (value_leb (cell r1 c) (cell r2 c))) rows
  | Some (c, Desc) => merge_sort (λ r1 r2, Is_true (value_leb (cell r2 c) (cell r1 c))) rows
  end.

(** [limit n]: a negative [n] is no limit. *)
Definition budget (limit : option Z) : option nat :=
  match limit with
  | Some n => if n <? 0 then None else Some (Z.to_nat n)
  | None => None
  end.

Definition apply_limit {A} (limit : option Z) (l : list A) : list A :=
  match budget limit with
  | Some n => take n l
  | None => l
  end.

Definition project (proj : option (list string)) (r : row) : row :=
  match proj with
  | None => r
  | Some cs => (λ c, (c, cell r c)) <$> cs
  end.

(** The row an insert builds: every declared column, coerced, NULL where
    the statement names no value (no column declares a default). *)
Definition new_row (defs : list coldef) (given : list (string * value)) : row :=
  (λ c, (c.1, coerce c.2.1 (default VNone (assoc c.1 given)))) <$> columns defs.

Definition not_null_ok (defs : list coldef) (r : row) : bool :=
  forallb (λ c, implb c.2.2 (bool_decide (cell r c.1 ≠ VNone))) (columns defs).

Definition pk_of (defs : list coldef) (r : row) : list value :=
  cell r <$> primary_key defs.

Definition pk_taken (defs : list coldef) (r : row) (rows : list row) : bool :=
  bool_decide (primary_key defs ≠ []) && bool_decide (pk_of defs r ∈ pk_of defs <$> rows).

(** The rows after an update: the matching rows, at most [n] of them in
    table order when a limit is given, get [f] applied. *)
Fixpoint update_rows (n : option nat) (test : row → bool) (f : row → row)
    (rows : list row) : list row :=
  match rows with
  | [] => []
  | r :: rows' =>
      if test r then
        match n with
        | Some O => r :: rows'
        | Some (S n') => f r :: update_rows (Some n') test f rows'
        | None => f r :: update_rows None test f rows'
        end
      else r :: update_rows n test f rows'
  end.

Definition exec_insert (t : table) (cols : list string) (params : list value) : res table :=
  let defs := tbl_defs t in
  if decide (cols = []) then Raise OperationalError
  else if decide (known defs cols) then
    if decide (length cols = length params) then
      let r := new_row defs (zip cols params) in
      if not_null_ok defs r then
        if pk_taken defs r (tbl_rows t) then Raise IntegrityError
        else Ok (Table defs (tbl_rows t ++ [r]))
      else Raise IntegrityError
    else Raise ProgrammingError
  else Raise OperationalError.

Definition exec_select (t : table) (proj : option (list string))
    (conds : list (string * cmp)) (order : option (string * direction))
    (limit : option Z) (params : list value) : res (list row) :=
  let defs := tbl_defs t in
  if decide (known defs (default [] proj ++ conds.*1 ++ option_list (fst <$> order))) then
    if decide (length conds = length params) then
      let hits := List.filter (row_matches (bind_conds defs conds params)) (tbl_rows t) in
      Ok (project proj <$> apply_limit limit (order_rows order hits))
    else Raise ProgrammingError
  else Raise OperationalError.

(** An update is checked against the constraints of the column it sets: a
    NULL in a NOT NULL column, or two rows left with one primary key, fail
    the statement, and a failed statement changes nothing. *)
Definition exec_update (t : table) (field : string) (conds : list (string * cmp))
    (limit : option Z) (params : list value) : res table :=
  let defs := tbl_defs t in
  if decide (known defs (field :: conds.*1)) then
    match params with
    | new_value :: params' =>
        if decide (length conds = length params') then
          let v := coerce (default TEXT (affinity_of defs field)) new_value in
          let test := row_matches (bind_conds defs conds params') in
          let rows' := update_rows (budget limit) test (set_cell field v) (tbl_rows t) in
          if decide (rows' = tbl_rows t) then Ok t
          else if not_null defs field && bool_decide (v = VNone) then Raise IntegrityError
          else if bool_decide (field ∈ primary_key defs)
                  && negb (bool_decide (NoDup (pk_of defs <$> rows')))
          then Raise IntegrityError
          else Ok (Table defs rows')
        else Raise ProgrammingError
    | [] => Raise ProgrammingError
    end
  else Raise OperationalError.

(** [cursor.execute(sql, params)] followed by [cursor.fetchall()]: the
    outcome and the database afterwards. A statement that raises leaves
    the database as it was. *)
Definition execute (s : stmt) (params : list value) (st : db) : res (list row) * db :=
  match s with
  | CreateTable name defs =>
      match st !! name with
      | Some _ => (Ok [], st)
      | None => (Ok [], <[name := Table defs []]> st)
      end
  | InsertInto name cols =>
      match st !! name with
      | None => (Raise OperationalError, st)
      | Some t =>
          match exec_insert t cols params with
          | Ok t' => (Ok [], <[name := t']> st)
          | Raise e => (Raise e, st)
          end
      end
  | Select proj name conds order limit =>
      match st !! name with
      | None => (Raise OperationalError, st)
      | Some t => (exec_select t proj conds order limit params, st)
      end
  | Update name field conds limit =>
      match st !! name with
      | None => (Raise OperationalError, st)
      | Some t =>
          match exec_update t field conds limit params with
          | Ok t' => (Ok [], <[name := t']> st)
          | Raise e => (Raise e, st)
          end
      end
  end.

End Sqlite.

Import Sqlite.

(** The concrete syntax of a statement, as the module formats it. *)
Definition sql_conds (conds : list (string * cmp)) : string :=
  match conds with
  | [] => ""
  | _ => " where " +:+
         String.concat " and "
           ((λ c, c.1 +:+ match c.2 with CmpEq => " = ?" | CmpGt => " > ?" end) <$> conds)
  end.

Definition sql_limit (limit : option Z) : string :=
  match limit with
  | Some n => " limit " +:+ pretty n +:+ ";"
  | None => ";"
  end.

Definition sql_coldef (d : coldef) : string :=
  match d with
  | Col n a nn =>
      n +:+ match a with TEXT => " text" | INTEGER => " integer" end
        +:+ (if nn then " not null" else "")
  | PrimaryKey cs => "primary key (" +:+ String.concat ", " cs +:+ ")"
  | ForeignKey cs t rcs =>
      "foreign key(" +:+ String.concat ", " cs +:+ ") references "
        +:+ t +:+ "(" +:+ String.concat ", " rcs +:+ ")"
  end.

Definition sql_text (s : stmt) : string :=
  match s with
  | CreateTable name defs =>
      "create table if not exists " +:+ name +:+ " ("
        +:+ String.concat ", " (sql_coldef <$> defs) +:+ ");"
  | InsertInto name cols =>
      "insert into " +:+ name +:+ " (" +:+ String.concat ", " cols +:+ ") values ("
        +:+ String.concat ", " ((λ _, "?") <$> cols) +:+ ");"
  | Select proj name conds order limit =>
      "select " +:+ match proj with None => "*" | Some cs => String.concat ", " cs end
        +:+ " from " +:+ name +:+ sql_conds conds
        +:+ match order with
            | Some (c, Asc) => " order by " +:+ c +:+ " asc"
            | Some (c, Desc) => " order by " +:+ c +:+ " desc"
            | None => ""
            end
        +:+ sql_limit limit
  | Update name field conds limit =>
      "update " +:+ name +:+ " set " +:+ field +:+ " = ?" +:+ sql_conds conds
        +:+ sql_limit limit
  end.

(** ** The storage monad

    [self._conn] is the one piece of state: a method takes the database and
    gives its outcome and the database afterwards. An exception ends the
    method; what earlier statements committed stays (autocommit). *)
Definition M (A : Type) : Type := db → res A * db.

Global Instance M_ret : MRet M := λ A a st, (Ok a, st).

Global Instance M_bind : MBind M := λ A B f m st,
  match m st with
  | (Ok a, st') => f a st'
  | (Raise e, st') => (Raise e, st')
  end.

Definition raise {A} (e : exn) : M A := λ st, (Raise e, st).

Definition lift {A} (r : res A) : M A := λ st, (r, st).

(** ** The model layer (models.py and packets.py) *)

(** An object as this module sees it: through its [__dict__]. *)
Definition pyobject := pydict.

(** Modelled from the spec: [Default.attrs], of packets.py, is not part of the
    sources at hand. It maps an object's own fields, minus any field holding
    a falsy value, to a column-name mapping. *)
Definition Default_attrs (dct : pydict) : pydict := drop_falsy dct.

(** Modelled from the spec: the [Group], [Project] and [Database] classes of
    models.py are not part of the sources at hand. Their fields are the
    columns of the data model; a database object carries a [tick] besides. *)
Record Group := { g_name : value; g_date : value }.

Record Project := {
  p_group_name : value; p_name : value; p_hash : value;
  p_file : value; p_type : value; p_date : value }.

Record Database := {
  d_group_name : value; d_project : value; d_name : value;
  d_date : value; d_tick : value }.

(** [obj.__dict__] *)
Definition Group_dict (g : Group) : pyobject :=
  [("name", g_name g); ("date", g_date g)].

Definition Project_dict (p : Project) : pyobject :=
  [("group_name", p_group_name p); ("name", p_name p); ("hash", p_hash p);
   ("file", p_file p); ("type", p_type p); ("date", p_date p)].

Definition Database_dict (d : Database) : pyobject :=
  [("group_name", d_group_name d); ("project", d_project d); ("name", d_name d);
   ("date", d_date d); ("tick", d_tick d)].

(** The constructors called with a result row's columns as keyword
    arguments. *)
Definition Group_new (result : row) : Group :=
  {| g_name := cell result "name"; g_date := cell result "date" |}.

Definition Project_new (result : row) : Project :=
  {| p_group_name := cell result "group_name"; p_name := cell result "name";
     p_hash := cell result "hash"; p_file := cell result "file";
     p_type := cell result "type"; p_date := cell result "date" |}.

(** The same for [Database]: a row of [databases] has no tick, and the
    object gets the constructor's default, [default_tick]. *)
Definition Database_new (default_tick : value) (result : row) : Database :=
  {| d_group_name := cell result "group_name"; d_project := cell result "project";
     d_name := cell result "name"; d_date := cell result "date";
     d_tick := default_tick |}.

(** Modelled from the spec: events (packets.py) are not part of the sources at
    hand. An event is its tick and its remaining fields; the store keeps the
    latter as an opaque text, the JSON that [json.dumps(DefaultEvent.attrs(
    event.__dict__))] gives, and [DefaultEvent.new(json.loads(text))] with the
    tick put back is the event again. [e_dict] is that text. *)
Record Event := { e_tick : value; e_dict : string }.

(** Modelled from the spec: the client context of the session layer is not
    part of the sources at hand; it supplies the scope a client works in. *)
Record Client := { client_group : value; client_project : value; client_database : value }.

(** ** The methods of [Storage] *)

(** [_create]: create a table with the given name and columns. *)
Definition _create (table : string) (cols : list coldef) : M unit :=
  _ ← execute (CreateTable table cols) []; mret ().

(** [limit] is [None] or an integer; [if limit] keeps a non-zero one. *)
Definition limit_clause (limit : option Z) : option Z :=
  match limit with
  | Some n => if truthy (VInt n) then Some n else None
  | None => None
  end.

(** [_select]: the rows of a table matching the given values. *)
Definition select_stmt (table : string) (fields : pydict) (limit : option Z) : stmt :=
  let fields := drop_falsy fields in
  Select None table ((λ col, (col, CmpEq)) <$> keys fields) None (limit_clause limit).

Definition _select (table : string) (fields : pydict) (limit : option Z) : M (list row) :=
  execute (select_stmt table fields limit) (values (drop_falsy fields)).

(** [_update]: set the field in the rows matching the search fields. *)
Definition update_stmt (table field : string) (search_fields : pydict)
    (limit : option Z) : stmt :=
  let search_fields := drop_falsy search_fields in
  Update table field ((λ col, (col, CmpEq)) <$> keys search_fields) (limit_clause limit).

Definition _update (table field : string) (new_value : value) (search_fields : pydict)
    (limit : option Z) : M (list row) :=
  let conditions := new_value :: values (drop_falsy search_fields) in
  execute (update_stmt table field search_fields limit) conditions.

(** [_insert]: insert a row with the given values. *)
Definition _insert (table : string) (fields : pydict) : M unit :=
  _ ← execute (InsertInto table (keys fields)) (values fields); mret ().

Definition groups_cols : list coldef :=
  [ Col "name" TEXT true;
    Col "date" TEXT true;
    PrimaryKey ["name"] ].

Definition projects_cols : list coldef :=
  [ Col "group_name" TEXT true;
    Col "name" TEXT true;
    Col "hash" TEXT true;
    Col "file" TEXT true;
    Col "type" TEXT true;
    Col "date" TEXT true;
    ForeignKey ["group_name"] "groups" ["name"];
    PrimaryKey ["group_name"; "name"] ].

Definition databases_cols : list coldef :=
  [ Col "group_name" TEXT true;
    Col "project" TEXT true;
    Col "name" TEXT true;
    Col "date" TEXT true;
    ForeignKey ["group_name"] "groups" ["name"];
    ForeignKey ["group_name"; "project"] "projects" ["group_name"; "name"];
    PrimaryKey ["group_name"; "project"; "name"] ].

Definition events_cols : list coldef :=
  [ Col "group_name" TEXT true;
    Col "project" TEXT true;
    Col "database" TEXT true;
    Col "tick" INTEGER true;
    Col "dict" TEXT true;
    ForeignKey ["group_name"] "groups" ["name"];
    ForeignKey ["group_name"; "project"] "projects" ["group_name"; "name"];
    ForeignKey ["group_name"; "project"; "database"] "databases"
               ["group_name"; "project"; "name"];
    PrimaryKey ["group_name"; "project"; "database"; "tick"] ].

(** [initialize]: create all the default tables. *)
Definition initialize : M unit :=
  _ ← _create "groups" groups_cols;
  _ ← _create "projects" projects_cols;
  _ ← _create "databases" databases_cols;
  _create "events" events_cols.

Definition insert_group (group : pyobject) : M unit :=
  _insert "groups" (Default_attrs group).

Definition select_groups (name : value) (limit : option Z) : M (list Group) :=
  results ← _select "groups" [("name", name)] limit;
  mret (Group_new <$> results).

(** [objects[0] if objects else None] is [head objects]. *)
Definition select_group (name : value) : M (option Group) :=
  objects ← select_groups name (Some 1);
  mret (head objects).

Definition insert_project (project : pyobject) : M unit :=
  _insert "projects" (Default_attrs project).

Definition select_projects (group name : value) (limit : option Z) : M (list Project) :=
  results ← _select "projects" [("group_name", group); ("name", name)] limit;
  mret (Project_new <$> results).

(** [self.select_projects(name, 1)]: the two positional arguments land on
    [group] and [name], and [limit] keeps its default. *)
Definition select_project (name : value) : M (option Project) :=
  objects ← select_projects name (VInt 1) None;
  mret (head objects).

Definition update_project_name (group old_name new_name : value) (limit : option Z)
    : M unit :=
  _ ← _update "projects" "name" new_name
        [("group_name", group); ("name", old_name)] limit;
  mret ().

Definition update_database_project (group old_name new_name : value) (limit : option Z)
    : M unit :=
  _ ← _update "databases" "project" new_name
        [("group_name", group); ("project", old_name)] limit;
  mret ().

Definition update_events_project (group old_name new_name : value) (limit : option Z)
    : M unit :=
  _ ← _update "events" "project" new_name
        [("group_name", group); ("project", old_name)] limit;
  mret ().

(** [attrs.pop("tick")] has no default: it raises when the key is missing. *)
Definition insert_database (database : pyobject) : M unit :=
  let attrs := Default_attrs database in
  '(_, attrs) ← lift (dict_pop "tick" attrs);
  _insert "databases" attrs.

Definition select_databases (default_tick : value) (group project name : value)
    (limit : option Z) : M (list Database) :=
  results ← _select "databases"
              [("group_name", group); ("project", project); ("name", name)] limit;
  mret (Database_new default_tick <$> results).

Definition select_database (default_tick : value) (group project name : value)
    : M (option Database) :=
  objects ← select_databases default_tick group project name (Some 1);
  mret (head objects).

Definition insert_event (client : Client) (event : Event) : M unit :=
  _insert "events"
    [("group_name", client_group client);
     ("project", client_project client);
     ("database", client_database client);
     ("tick", e_tick event);
     ("dict", VStr (e_dict event))].

(** [json.loads(result["dict"])] wants text; the tick comes from its
    column. *)
Definition Event_new (result : row) : res Event :=
  match cell result "dict" with
  | VStr s => Ok {| e_tick := cell result "tick"; e_dict := s |}
  | _ => Raise TypeError
  end.

Fixpoint mapM {A B} (f : A → res B) (l : list A) : res (list B) :=
  match l with
  | [] => Ok []
  | x :: l' =>
      match f x with
      | Ok y => match mapM f l' with Ok ys => Ok (y :: ys) | Raise e => Raise e end
      | Raise e => Raise e
      end
  end.

(** [select_events]: all events sent after the given tick count. The text in
    the source lacks a blank between the third [?] and [and]; the engine
    reads the same tokens. *)
Definition select_events_stmt : stmt :=
  Select None "events"
    [("group_name", CmpEq); ("project", CmpEq); ("database", CmpEq); ("tick", CmpGt)]
    (Some ("tick", Asc)) None.

Definition select_events (group project database tick : value) : M (list Event) :=
  results ← execute select_events_stmt [group; project; database; tick];
  lift (mapM Event_new results).

(** [last_tick]: the last tick of the specified project and database.
    [fetchone()] is the first row or [None]. *)
Definition last_tick_stmt : stmt :=
  Select (Some ["tick"]) "events"
    [("group_name", CmpEq); ("project", CmpEq); ("database", CmpEq)]
    (Some ("tick", Desc)) (Some 1).

Definition last_tick (group project database : value) : M value :=
  results ← execute last_tick_stmt [group; project; database];
  mret (match head results with
        | Some result => cell result "tick"
        | None => VInt 0
        end).

(** ** Well-formed databases

    What [initialize] sets up and every statement keeps: the four tables with
    their declared columns, every row with exactly those columns, text in the
    TEXT columns and an integer in [tick], and no two rows of a table with one
    primary key. *)

Global Instance affinity_eq_dec : EqDecision affinity.
Proof. solve_decision. Defined.

Global Instance coldef_eq_dec : EqDecision coldef.
Proof. solve_decision. Defined.

Definition rows_of (st : db) (name : string) : list row :=
  from_option tbl_rows [] (st !! name).

Definition typed_cell (a : affinity) (v : value) : bool :=
  match a, v with
  | TEXT, VStr _ => true
  | INTEGER, VInt _ => true
  | _, _ => false
  end.

Definition typed_row (defs : list coldef) (r : row) : bool :=
  bool_decide (r.*1 = column_names defs)
  && forallb (λ c, typed_cell c.2.1 (cell r c.1)) (columns defs).

Definition table_ok (st : db) (name : string) (defs : list coldef) : bool :=
  match st !! name with
  | Some t =>
      bool_decide (tbl_defs t = defs)
      && forallb (typed_row defs) (tbl_rows t)
      && bool_decide (NoDup (pk_of defs <$> tbl_rows t))
  | None => false
  end.

Definition wf (st : db) : Prop :=
  table_ok st "groups" groups_cols
  && table_ok st "projects" projects_cols
  && table_ok st "databases" databases_cols
  && table_ok st "events" events_cols = true.

(** ** The event log in the words of the specification *)

(** A row belongs to the scope (group, project, database). *)
Definition in_scope (group project database : string) (r : row) : bool :=
  bool_decide (cell r "group_name" = VStr group)
  && bool_decide (cell r "project" = VStr project)
  && bool_decide (cell r "database" = VStr database).

(** The tick of a row, for rows that hold an integer there. *)
Definition tick_of (r : row) : Z :=
  match cell r "tick" with
  | VInt n => n
  | _ => 0
  end.

(** The event a row stores. *)
Definition event_of_row (r : row) : Event :=
  {| e_tick := cell r "tick";
     e_dict := match cell r "dict" with VStr s => s | _ => "" end |}.

(** The stored events of a scope, in table order. *)
Definition stored_events (group project database : string) (st : db) : list Event :=
  event_of_row <$> List.filter (in_scope group project database) (rows_of st "events").

(** An event is after tick [k]. *)
Definition after (k : Z) (e : Event) : bool :=
  match e_tick e with
  | VInt n => k <? n
  | _ => false
  end.

(** The ticks of a scope, in table order. *)
Definition scope_ticks (group project database : string) (st : db) : list Z :=
  tick_of <$> List.filter (in_scope group project database) (rows_of st "events").

(** One event comes strictly before another in tick order. *)
Definition tick_lt (e1 e2 : Event) : Prop :=
  ∃ m n, e_tick e1 = VInt m ∧ e_tick e2 = VInt n ∧ m < n.

(** ** A sample session

    A group "g" with one project "p1", one database "d1" and the events of
    ticks 3, 1 and 5, written in that order. *)
Definition sample_group : Group :=
  {| g_name := VStr "g"; g_date := VStr "2019-01-01" |}.

Definition sample_project : Project :=
  {| p_group_name := VStr "g"; p_name := VStr "p1"; p_hash := VStr "0a1b";
     p_file := VStr "a.exe"; p_type := VStr "pe"; p_date := VStr "2019-01-02" |}.

Definition sample_database : Database :=
  {| d_group_name := VStr "g"; d_project := VStr "p1"; d_name := VStr "d1";
     d_date := VStr "2019-01-03"; d_tick := VInt 1 |}.

Definition sample_client : Client :=
  {| client_group := VStr "g"; client_project := VStr "p1";
     client_database := VStr "d1" |}.

Definition sample_session : M unit :=
  _ ← initialize;
  _ ← insert_group (Group_dict sample_group);
  _ ← insert_project (Project_dict sample_project);
  _ ← insert_database (Database_dict sample_database);
  _ ← insert_event sample_client {| e_tick := VInt 3; e_dict := "{3}" |};
  _ ← insert_event sample_client {| e_tick := VInt 1; e_dict := "{1}" |};
  insert_event sample_client {| e_tick := VInt 5; e_dict := "{5}" |}.

Definition sample_db : db := Eval vm_compute in (sample_session ∅).2.

(** The LIMIT clause of a statement. *)
Definition stmt_limit (s : stmt) : option Z :=
  match s with
  | Select _ _ _ _ limit | Update _ _ _ limit => limit
  | _ => None
  end.

(** A row holds the given values in the given columns. *)
Definition holds (fields : pydict) (r : row) : bool :=
  forallb (λ kv, bool_decide (cell r kv.1 = kv.2)) fields.

(** The row that stores an event of a scope. *)
Definition event_row (group project database : string) (tick : Z) (dict : string) : row :=
  [("group_name", VStr group); ("project", VStr project); ("database", VStr database);
   ("tick", VInt tick); ("dict", VStr dict)].

(** ** Valid objects

    An object that can be stored and found again: text, not empty, in every
    field that becomes a column (an empty or missing field is dropped by
    [Default.attrs] and the NOT NULL column refuses the row), and for a
    database a truthy tick besides. *)
Definition nonempty_text (v : value) : bool :=
  match v with
  | VStr s => negb (String.eqb s "")
  | _ => false
  end.

Definition valid_group (g : Group) : bool :=
  nonempty_text (g_name g) && nonempty_text (g_date g).

Definition valid_project (p : Project) : bool :=
  nonempty_text (p_group_name p) && nonempty_text (p_name p)
  && nonempty_text (p_hash p) && nonempty_text (p_file p)
  && nonempty_text (p_type p) && nonempty_text (p_date p).

Definition valid_database (d : Database) : bool :=
  nonempty_text (d_group_name d) && nonempty_text (d_project d)
  && nonempty_text (d_name d) && nonempty_text (d_date d)
  && truthy (d_tick d).

(** The database object with another tick. *)
Definition with_tick (tick : value) (d : Database) : Database :=
  {| d_group_name := d_group_name d; d_project := d_project d;
     d_name := d_name d; d_date := d_date d; d_tick := tick |}.

(** The project object under another name, the database object under
    another project. *)
Definition with_name (name : value) (p : Project) : Project :=
  {| p_group_name := p_group_name p; p_name := name; p_hash := p_hash p;
     p_file := p_file p; p_type := p_type p; p_date := p_date p |}.

Definition with_project (project : value) (d : Database) : Database :=
  {| d_group_name := d_group_name d; d_project := project;
     d_name := d_name d; d_date := d_date d; d_tick := d_tick d |}.

(** The three statements of a project rename, in the order the caller
    issues them. *)
Definition rename_cascade (group old_name new_name : value) : M unit :=
  _ ← update_project_name group old_name new_name None;
  _ ← update_database_project group old_name new_name None;
  update_events_project group old_name new_name None.

(** A second sample: the project "p1" of group "g" with its database "d1" and
    two events. *)
Definition rename_session : M unit :=
  _ ← initialize;
  _ ← insert_group (Group_dict sample_group);
  _ ← insert_project (Project_dict sample_project);
  _ ← insert_database (Database_dict sample_database);
  _ ← insert_event sample_client {| e_tick := VInt 1; e_dict := "{1}" |};
  insert_event sample_client {| e_tick := VInt 2; e_dict := "{2}" |}.

Definition rename_db : db := Eval vm_compute in (rename_session ∅).2.

(** The same, with a project "p2" in group "g" besides. *)
Definition clash_session : M unit :=
  _ ← rename_session;
  insert_project (Project_dict (with_name (VStr "p2") sample_project)).

Definition clash_db : db := Eval vm_compute in (clash_session ∅).2.

(** ** Reachable databases

    The databases the server can be in: the one [initialize] makes of an empty
    file, and those that a method call makes of a reachable one, whether the
    call returns or raises. The caller gives events an integer tick (or none,
    which the engine refuses). *)
Inductive call :=
  | CallInitialize
  | CallInsertGroup (group : pyobject)
  | CallInsertProject (project : pyobject)
  | CallInsertDatabase (database : pyobject)
  | CallInsertEvent (client : Client) (event : Event)
  | CallUpdateProjectName (group old_name new_name : value) (limit : option Z)
  | CallUpdateDatabaseProject (group old_name new_name : value) (limit : option Z)
  | CallUpdateEventsProject (group old_name new_name : value) (limit : option Z).

Definition run (c : call) : M unit :=
  match c with
  | CallInitialize => initialize
  | CallInsertGroup group => insert_group group
  | CallInsertProject project => insert_project project
  | CallInsertDatabase database => insert_database database
  | CallInsertEvent client event => insert_event client event
  | CallUpdateProjectName g o n l => update_project_name g o n l
  | CallUpdateDatabaseProject g o n l => update_database_project g o n l
  | CallUpdateEventsProject g o n l => update_events_project g o n l
  end.

Definition integer_ticks (c : call) : Prop :=
  match c with
  | CallInsertEvent _ event => ∀ s, e_tick event ≠ VStr s
  | _ => True
  end.

Inductive reachable : db → Prop :=
  | reachable_init : reachable (initialize ∅).2
  | reachable_call c st : reachable st → integer_ticks c → reachable (run c st).2.

(** ** Words for the further properties *)

(** The database after [create table if not exists]. *)
Definition created (name : string) (defs : list coldef) (st : db) : db :=
  match st !! name with
  | Some _ => st
  | None => <[name := Table defs []]> st
  end.

(** The greatest of a list of ticks, 0 for none. *)
Definition max_tick (ticks : list Z) : Z :=
  match ticks with
  | [] => 0
  | n :: ticks' => foldr Z.max n ticks'
  end.

(** The table a call writes to; [initialize] writes to none that exists. *)
Definition table_of (c : call) : option string :=
  match c with
  | CallInitialize => None
  | CallInsertGroup _ => Some "groups"
  | CallInsertProject _ | CallUpdateProjectName _ _ _ _ => Some "projects"
  | CallInsertDatabase _ | CallUpdateDatabaseProject _ _ _ _ => Some "databases"
  | CallInsertEvent _ _ | CallUpdateEventsProject _ _ _ _ => Some "events"
  end.

(** What a limit leaves of a result: the first [n] objects of the outcome
    of a select without limit, an error as it is. *)
Definition first_n {A} (n : nat) (out : res (list A) * db) : res (list A) * db :=
  match out with
  | (Ok objects, st) => (Ok (take n objects), st)
  | (Raise e, st) => (Raise e, st)
  end.

(** [objects[0] if objects else None] of the outcome of a select. *)
Definition first_or_None {A} (out : res (list A) * db) : res (option A) * db :=
  match out with
  | (Ok objects, st) => (Ok (head objects), st)
  | (Raise e, st) => (Raise e, st)
  end.

(** The rows of a table after an update that returned: those of [group]
    whose [field] is [old_name] carry [new_name] there, in place. *)
Definition rename_rows (field group old_name new_name : string) (rows : list row)
    : list row :=
  (λ r, if holds [("group_name", VStr group); (field, VStr old_name)] r
        then set_cell field (VStr new_name) r else r) <$> rows.

(** * Properties *)

(** The statements read as the source writes them. *)
Example select_text :
  sql_text (select_stmt "projects" [("group_name", VStr "g"); ("name", VNone)] (Some 1))
  = "select * from projects where group_name = ? limit 1;".
Proof. vm_compute. reflexivity. Qed.

Example update_text :
  sql_text (update_stmt "events" "project" [("group_name", VStr "g"); ("project", VStr "p")] None)
  = "update events set project = ? where group_name = ? and project = ?;".
Proof. vm_compute. reflexivity. Qed.

Example insert_text :
  sql_text (InsertInto "groups" (keys [("name", VStr "g"); ("date", VStr "d")]))
  = "insert into groups (name, date) values (?, ?);".
Proof. vm_compute. reflexivity. Qed.

Example last_tick_text :
  sql_text last_tick_stmt
  = "select tick from events where group_name = ? and project = ? and database = ? order by tick desc limit 1;".
Proof. vm_compute. reflexivity. Qed.
(** ** Falsy filters and limits in the statement builder *)

Lemma drop_falsy_remove k (fields : pydict) :
  (∀ v, (k, v) ∈ fields → truthy v = false) →
  drop_falsy (dict_remove k fields) = drop_falsy fields.
Proof.
  unfold drop_falsy, dict_remove.
  induction fields as [|[k' v'] fields IH]; intros Hk; [done|].
  assert (Htl : ∀ v, (k, v) ∈ fields → truthy v = false)
    by (intros v Hv; apply Hk; by right).
  specialize (IH Htl). simpl.
  destruct (decide (k' ≠ k)) as [Hne|Heq].
  - rewrite bool_decide_eq_true_2 by done. simpl. by rewrite IH.
  - rewrite bool_decide_eq_false_2 by done.
    apply dec_stable in Heq as ->.
    rewrite (Hk v') by left. done.
Qed.
Lemma limit_clause_spec limit n :
  limit_clause limit = Some n ↔ limit = Some n ∧ n ≠ 0.
Proof.
  unfold limit_clause. destruct limit as [m|]; simpl.
  - destruct (Z.eqb_spec m 0) as [->|Hm]; simpl; split.
    + discriminate.
    + intros [[= <-] Hn]. by destruct Hn.
    + intros [= <-]. done.
    + by intros [-> _].
  - split; [discriminate | by intros [? _]].
Qed.

Lemma update_rows_all test f rows :
  update_rows None test f rows = (λ r, if test r then f r else r) <$> rows.
Proof.
  induction rows as [|r rows IH]; simpl; [done|].
  destruct (test r); by rewrite IH.
Qed.

(** C3: a filter mapping in which the key [k] holds a falsy value gives the
    same statement and the same bindings as the mapping without [k], so that
    the generic select returns, and the generic update changes, the same rows
    either way. *)
Theorem falsy_filter_does_not_constrain
    table field new_value (fields : pydict) k limit st :
  (∀ v, (k, v) ∈ fields → truthy v = false) →
  select_stmt table fields limit = select_stmt table (dict_remove k fields) limit
  ∧ _select table fields limit st = _select table (dict_remove k fields) limit st
  ∧ update_stmt table field fields limit
    = update_stmt table field (dict_remove k fields) limit
  ∧ _update table field new_value fields limit st
    = _update table field new_value (dict_remove k fields) limit st.
Proof.
  intros Hk. unfold _select, _update, select_stmt, update_stmt.
  by rewrite (drop_falsy_remove k fields Hk).
Qed.

Lemma falsy_filter_does_not_constrain_witness :
  _select "projects" [("group_name", VStr "g"); ("name", VStr "")] None sample_db
  = _select "projects" [("group_name", VStr "g")] None sample_db
  ∧ _update "projects" "name" (VStr "p2") [("group_name", VNone); ("name", VStr "p1")]
      None sample_db
    = _update "projects" "name" (VStr "p2") [("name", VStr "p1")] None sample_db.
Proof.
  split.
  - refine (proj1 (proj2 (falsy_filter_does_not_constrain
      "projects" "name" VNone [("group_name", VStr "g"); ("name", VStr "")]
      "name" None sample_db _))).
    intros v Hv. apply list_elem_of_In in Hv. simpl in Hv.
    destruct Hv as [Hv|[Hv|[]]]; inversion Hv; reflexivity.
  - refine (proj2 (proj2 (proj2 (falsy_filter_does_not_constrain
      "projects" "name" (VStr "p2") [("group_name", VNone); ("name", VStr "p1")]
      "group_name" None sample_db _)))).
    intros v Hv. apply list_elem_of_In in Hv. simpl in Hv.
    destruct Hv as [Hv|[Hv|[]]]; inversion Hv; reflexivity.
Defined.

Lemma _select_unfold table fields limit st :
  _select table fields limit st =
  match st !! table with
  | None => (Raise OperationalError, st)
  | Some t =>
      (exec_select t None ((λ col, (col, CmpEq)) <$> keys (drop_falsy fields)) None
         (limit_clause limit) (values (drop_falsy fields)), st)
  end.
Proof. reflexivity. Qed.

Lemma _update_unfold table field new_value fields limit st :
  _update table field new_value fields limit st =
  match st !! table with
  | None => (Raise OperationalError, st)
  | Some t =>
      match exec_update t field ((λ col, (col, CmpEq)) <$> keys (drop_falsy fields))
              (limit_clause limit) (new_value :: values (drop_falsy fields)) with
      | Ok t' => (Ok [], <[table := t']> st)
      | Raise e => (Raise e, st)
      end
  end.
Proof. reflexivity. Qed.

Lemma project_all (rows : list row) : project None <$> rows = rows.
Proof. induction rows as [|r rows IH]; [done|]. by rewrite fmap_cons, IH. Qed.

Lemma exec_select_limit t conds limit params rows :
  exec_select t None conds None limit params = Ok rows →
  ∃ all, exec_select t None conds None None params = Ok all
         ∧ rows = apply_limit limit all.
Proof.
  unfold exec_select. repeat case_decide; try discriminate.
  intros [= <-]. eexists. split; [reflexivity|].
  simpl. by rewrite !project_all.
Qed.

Lemma exec_update_unlimited t field conds new_value params t' :
  exec_update t field conds None (new_value :: params) = Ok t' →
  tbl_rows t' =
  (λ r, if row_matches (bind_conds (tbl_defs t) conds params) r
        then set_cell field
               (coerce (default TEXT (affinity_of (tbl_defs t) field)) new_value) r
        else r) <$> tbl_rows t.
Proof.
  unfold exec_update. simpl budget. rewrite update_rows_all.
  repeat case_match; try discriminate; intros [= <-]; simpl; congruence.
Qed.



(** ** Dictionaries *)

Lemma dict_get_elem_of k v (d : pydict) : dict_get k d = Some v → (k, v) ∈ d.
Proof.
  unfold dict_get. induction d as [|[k' v'] d IH]; simpl; [done|].
  case_decide as Hk.
  - intros [= ->]. subst. left.
  - intros H. right. by apply IH.
Qed.

Lemma dict_get_None k (d : pydict) : dict_get k d = None ↔ k ∉ keys d.
Proof.
  unfold dict_get, keys. induction d as [|[k' v'] d IH]; simpl.
  - split; [intros _; apply not_elem_of_nil | done].
  - rewrite not_elem_of_cons. case_decide as Hk; simpl.
    + split; [done | intros [Hne _]; by destruct Hne].
    + rewrite IH. split; [by intros H; split | by intros [_ H]].
Qed.

Lemma elem_of_drop_falsy k v (d : pydict) :
  (k, v) ∈ drop_falsy d ↔ (k, v) ∈ d ∧ truthy v = true.
Proof.
  unfold drop_falsy. rewrite !list_elem_of_In, filter_In. done.
Qed.

Lemma keys_drop_falsy k (d : pydict) :
  k ∈ keys (drop_falsy d) ↔ ∃ v, (k, v) ∈ d ∧ truthy v = true.
Proof.
  unfold keys. rewrite list_elem_of_fmap. split.
  - intros ([k' v] & -> & Hin). exists v. by apply elem_of_drop_falsy.
  - intros (v & Hin). exists (k, v). split; [done|]. by apply elem_of_drop_falsy.
Qed.

Lemma dict_get_drop_falsy_None k (d : pydict) :
  dict_get k (drop_falsy d) = None ↔ ∀ v, (k, v) ∈ d → truthy v = false.
Proof.
  rewrite dict_get_None, keys_drop_falsy. split.
  - intros Hno v Hin. destruct (truthy v) eqn:Hv; [|done].
    destruct Hno. by exists v.
  - intros Hall (v & Hin & Hv). rewrite (Hall v Hin) in Hv. discriminate.
Qed.

Lemma keys_dict_remove k (d : pydict) : k ∉ keys (dict_remove k d).
Proof.
  unfold keys, dict_remove. rewrite list_elem_of_fmap.
  intros ([k' v] & -> & Hin). apply list_elem_of_In, filter_In in Hin as [_ Hne].
  apply bool_decide_eq_true in Hne. by destruct Hne.
Qed.

Lemma dict_remove_absent k (d : pydict) : k ∉ keys d → dict_remove k d = d.
Proof.
  unfold keys, dict_remove. induction d as [|[k' v'] d IH]; simpl; [done|].
  rewrite not_elem_of_cons. intros [Hne Hnot].
  rewrite bool_decide_eq_true_2 by done. by rewrite IH.
Qed.

Lemma dict_remove_app k (d1 d2 : pydict) :
  dict_remove k (d1 ++ d2) = dict_remove k d1 ++ dict_remove k d2.
Proof. apply List.filter_app. Qed.

Lemma drop_falsy_app (d1 d2 : pydict) :
  drop_falsy (d1 ++ d2) = drop_falsy d1 ++ drop_falsy d2.
Proof. apply List.filter_app. Qed.

Lemma dict_get_app_absent k (d1 d2 : pydict) :
  k ∉ keys d1 → dict_get k (d1 ++ d2) = dict_get k d2.
Proof.
  unfold keys, dict_get. induction d1 as [|[k' v'] d1 IH]; simpl; [done|].
  rewrite not_elem_of_cons. intros [Hne Hnot].
  rewrite decide_False by done. by apply IH.
Qed.

Lemma keys_values_zip (d : pydict) : zip (keys d) (values d) = d.
Proof. unfold keys, values. apply zip_fst_snd. Qed.

Lemma keys_values_length (d : pydict) : length (keys d) = length (values d).
Proof. unfold keys, values. by rewrite !length_fmap. Qed.

(** ** The generic insert *)

Lemma _insert_unfold table fields st :
  _insert table fields st =
  match st !! table with
  | None => (Raise OperationalError, st)
  | Some t =>
      match exec_insert t (keys fields) (values fields) with
      | Ok t' => (Ok (), <[table := t']> st)
      | Raise e => (Raise e, st)
      end
  end.
Proof.
  unfold _insert, mbind, M_bind, execute.
  destruct (st !! table) as [t|]; [|done].
  by destruct (exec_insert _ _ _).
Qed.

Lemma exec_insert_Ok t cols params t' :
  exec_insert t cols params = Ok t' →
  cols ≠ [] ∧ known (tbl_defs t) cols ∧ length cols = length params
  ∧ not_null_ok (tbl_defs t) (new_row (tbl_defs t) (zip cols params)) = true
  ∧ pk_taken (tbl_defs t) (new_row (tbl_defs t) (zip cols params)) (tbl_rows t) = false
  ∧ t' = Table (tbl_defs t) (tbl_rows t ++ [new_row (tbl_defs t) (zip cols params)]).
Proof.
  unfold exec_insert. repeat case_decide; try discriminate.
  destruct (not_null_ok _ _); [|discriminate].
  destruct (pk_taken _ _ _); [discriminate|].
  by intros [= <-].
Qed.

Lemma exec_insert_no_KeyError t cols params : exec_insert t cols params ≠ Raise KeyError.
Proof.
  unfold exec_insert. repeat case_decide; try discriminate.
  destruct (not_null_ok _ _); [|discriminate].
  by destruct (pk_taken _ _ _).
Qed.

Lemma _insert_no_KeyError table fields st st' :
  _insert table fields st ≠ (Raise KeyError, st').
Proof.
  rewrite _insert_unfold. destruct (st !! table) as [t|]; [|discriminate].
  pose proof (exec_insert_no_KeyError t (keys fields) (values fields)) as Hno.
  destruct (exec_insert _ _ _) as [t'|e]; [discriminate|].
  intros [= -> _]. done.
Qed.

Lemma insert_database_unfold database st :
  insert_database database st =
  match dict_get "tick" (Default_attrs database) with
  | Some _ => _insert "databases" (dict_remove "tick" (Default_attrs database)) st
  | None => (Raise KeyError, st)
  end.
Proof.
  unfold insert_database, mbind, M_bind, lift, dict_pop.
  by destruct (dict_get _ _).
Qed.

(** ** Inserting a database *)

Lemma Database_attrs d :
  Default_attrs (Database_dict d) =
  drop_falsy [("group_name", d_group_name d); ("project", d_project d);
              ("name", d_name d); ("date", d_date d)]
  ++ (if truthy (d_tick d) then [("tick", d_tick d)] else []).
Proof.
  unfold Default_attrs, Database_dict.
  change [("group_name", d_group_name d); ("project", d_project d);
          ("name", d_name d); ("date", d_date d); ("tick", d_tick d)]
    with ([("group_name", d_group_name d); ("project", d_project d);
           ("name", d_name d); ("date", d_date d)] ++ [("tick", d_tick d)]).
  by rewrite drop_falsy_app.
Qed.

Lemma Database_columns_no_tick d :
  "tick" ∉ keys (drop_falsy [("group_name", d_group_name d); ("project", d_project d);
                              ("name", d_name d); ("date", d_date d)]).
Proof.
  rewrite keys_drop_falsy. intros (v & Hin & _).
  apply list_elem_of_In in Hin. simpl in Hin.
  repeat destruct Hin as [Hin|Hin]; try discriminate; done.
Qed.

Lemma insert_database_truthy d st :
  truthy (d_tick d) = true →
  insert_database (Database_dict d) st =
  _insert "databases"
    (drop_falsy [("group_name", d_group_name d); ("project", d_project d);
                 ("name", d_name d); ("date", d_date d)]) st.
Proof.
  intros Ht. rewrite insert_database_unfold, Database_attrs, Ht.
  pose proof (Database_columns_no_tick d) as Hno.
  rewrite dict_get_app_absent by done. simpl.
  rewrite dict_remove_app, dict_remove_absent by done. simpl.
  by rewrite app_nil_r.
Qed.

(** C8: the column mapping [insert_database] hands to the generic insert has
    no tick, whatever the object holds; the row it adds to [databases] has
    the four declared columns only; and two objects that differ in their
    tick alone are stored alike. *)
Theorem insert_database_omits_tick :
  (∀ (database : pyobject) v attrs,
     dict_pop "tick" (Default_attrs database) = Ok (v, attrs) →
     ("tick" ∉ keys attrs)
     ∧ (∀ st, insert_database database st = _insert "databases" attrs st))
  ∧ (∀ (database : pyobject) st rows st',
       st !! "databases" = Some (Table databases_cols rows) →
       insert_database database st = (Ok (), st') →
       ∃ r, st' !! "databases" = Some (Table databases_cols (rows ++ [r]))
            ∧ r.*1 = ["group_name"; "project"; "name"; "date"])
  ∧ (∀ group_name project name date tick1 tick2 st,
       truthy tick1 = true → truthy tick2 = true →
       insert_database (Database_dict
         {| d_group_name := group_name; d_project := project; d_name := name;
            d_date := date; d_tick := tick1 |}) st
       = insert_database (Database_dict
         {| d_group_name := group_name; d_project := project; d_name := name;
            d_date := date; d_tick := tick2 |}) st).
Proof.
  split; [|split].
  - intros database v attrs. unfold dict_pop.
    destruct (dict_get "tick" (Default_attrs database)) as [w|] eqn:Hget;
      [|discriminate].
    intros [= -> <-]. split; [apply keys_dict_remove|].
    intros st. by rewrite insert_database_unfold, Hget.
  - intros database st rows st' Hst. rewrite insert_database_unfold.
    destruct (dict_get _ _); [|discriminate].
    rewrite _insert_unfold, Hst.
    destruct (exec_insert _ _ _) as [t'|e] eqn:Hins; [|discriminate].
    intros [= <-]. apply exec_insert_Ok in Hins as (_ & _ & _ & _ & _ & ->).
    simpl. eexists. split; [apply lookup_insert_eq|]. reflexivity.
  - intros gn pr nm dt t1 t2 st H1 H2.
    by rewrite !insert_database_truthy.
Qed.

Lemma insert_database_omits_tick_witness :
  insert_database (Database_dict
    {| d_group_name := VStr "g"; d_project := VStr "p1"; d_name := VStr "d2";
       d_date := VStr "2019-02-01"; d_tick := VInt 4 |}) sample_db
  = insert_database (Database_dict
    {| d_group_name := VStr "g"; d_project := VStr "p1"; d_name := VStr "d2";
       d_date := VStr "2019-02-01"; d_tick := VStr "x" |}) sample_db.
Proof.
  apply (proj2 (proj2 insert_database_omits_tick)); reflexivity.
Defined.

(** C9: [insert_database] raises KeyError exactly when the attribute
    extraction yields no tick, that is when the object has no tick or a falsy
    one (0, None, the empty text), and leaves the database as it was; it
    returns normally only for an object that carries a truthy tick. *)
Theorem insert_database_needs_truthy_tick (database : pyobject) st :
  (dict_get "tick" (Default_attrs database) = None
   ↔ ∀ v, ("tick", v) ∈ database → truthy v = false)
  ∧ (insert_database database st = (Raise KeyError, st)
     ↔ ∀ v, ("tick", v) ∈ database → truthy v = false)
  ∧ (∀ st', insert_database database st = (Ok (), st') →
       ∃ v, ("tick", v) ∈ database ∧ truthy v = true)
  ∧ (∀ d : Database, truthy (d_tick d) = false →
       insert_database (Database_dict d) st = (Raise KeyError, st)).
Proof.
  assert (Hiff : insert_database database st = (Raise KeyError, st)
                 ↔ ∀ v, ("tick", v) ∈ database → truthy v = false).
  { rewrite <- dict_get_drop_falsy_None, insert_database_unfold.
    unfold Default_attrs. destruct (dict_get _ _) as [v|] eqn:Hget.
    - split; [|discriminate]. intros H. by apply _insert_no_KeyError in H.
    - done. }
  split; [apply dict_get_drop_falsy_None|]. split; [exact Hiff|]. split.
  - intros st'. rewrite insert_database_unfold.
    destruct (dict_get _ _) as [v|] eqn:Hget; [|discriminate].
    intros _. exists v. apply dict_get_elem_of in Hget.
    by apply elem_of_drop_falsy in Hget.
  - intros d Hd. rewrite insert_database_unfold, Database_attrs, Hd.
    rewrite app_nil_r.
    assert (Hno := Database_columns_no_tick d).
    apply dict_get_None in Hno. by rewrite Hno.
Qed.

Lemma insert_database_needs_truthy_tick_witness :
  insert_database
    [("group_name", VStr "g"); ("project", VStr "p1"); ("name", VStr "d2");
     ("date", VStr "2019-02-01"); ("tick", VInt 0)] sample_db
  = (Raise KeyError, sample_db)
  ∧ insert_database
      [("group_name", VStr "g"); ("project", VStr "p1"); ("name", VStr "d2");
       ("date", VStr "2019-02-01")] sample_db
    = (Raise KeyError, sample_db).
Proof.
  split.
  - apply (proj2 (proj1 (proj2 (insert_database_needs_truthy_tick _ sample_db)))).
    intros v Hv. apply list_elem_of_In in Hv. simpl in Hv.
    repeat destruct Hv as [Hv|Hv]; try discriminate; try done.
    by injection Hv as <-.
  - apply (proj2 (proj1 (proj2 (insert_database_needs_truthy_tick _ sample_db)))).
    intros v Hv. apply list_elem_of_In in Hv. simpl in Hv.
    repeat destruct Hv as [Hv|Hv]; try discriminate; done.
Defined.

Lemma exec_select_all t fields limit :
  known (tbl_defs t) (keys fields) →
  exec_select t None ((λ col, (col, CmpEq)) <$> keys fields) None limit (values fields)
  = Ok (apply_limit limit
          (List.filter
             (row_matches (bind_conds (tbl_defs t)
                ((λ col, (col, CmpEq)) <$> keys fields) (values fields)))
             (tbl_rows t))).
Proof.
  intros Hk. unfold exec_select. simpl.
  rewrite decide_True.
  - rewrite decide_True by (by rewrite length_fmap, keys_values_length).
    by rewrite project_all.
  - rewrite app_nil_r, <- list_fmap_compose.
    erewrite list_fmap_ext; [by rewrite list_fmap_id|done].
Qed.

(** The rows that hold the given values in the given columns. *)
Lemma row_matches_text defs (fields : pydict) r :
  Forall (λ kv, affinity_of defs kv.1 = Some TEXT ∧ ∃ s, kv.2 = VStr s) fields →
  row_matches (bind_conds defs ((λ col, (col, CmpEq)) <$> keys fields) (values fields)) r
  = forallb (λ kv, bool_decide (cell r kv.1 = kv.2)) fields.
Proof.
  unfold row_matches, bind_conds, keys, values.
  induction 1 as [|[k v] fields [Hk [s Hv]] _ IH]; [done|].
  simpl in Hk, Hv. subst v. rewrite !fmap_cons. simpl zip_with.
  rewrite Hk. simpl. rewrite IH. f_equal.
  unfold sql_test. destruct (cell r k); try done.
Qed.

Lemma truthy_text s : s ≠ "" → truthy (VStr s) = true.
Proof.
  intros Hs. simpl. destruct (String.eqb_spec s ""); [done|done].
Qed.

Lemma assoc_Some_elem_of {A} k (v : A) l : assoc k l = Some v → k ∈ l.*1.
Proof.
  induction l as [|[k' v'] l IH]; simpl; [done|].
  case_decide as Hk; [intros _; subst; left | intros H; right; by apply IH].
Qed.

Lemma affinity_of_known defs c a : affinity_of defs c = Some a → c ∈ column_names defs.
Proof.
  unfold affinity_of, column_names.
  destruct (assoc c (columns defs)) as [x|] eqn:Hx; [|done].
  intros _. by eapply assoc_Some_elem_of.
Qed.

Lemma drop_falsy_Forall (P : string * value → Prop) (fields : pydict) :
  Forall P fields → Forall P (drop_falsy fields).
Proof.
  rewrite !Forall_forall. intros H [k v] Hin.
  apply elem_of_drop_falsy in Hin as [Hin _]. by apply H.
Qed.

Lemma _select_text table defs rows fields limit st :
  st !! table = Some (Table defs rows) →
  Forall (λ kv, affinity_of defs kv.1 = Some TEXT) fields →
  Forall (λ kv, kv.2 = VNone ∨ ∃ s, kv.2 = VStr s) fields →
  _select table fields limit st
  = (Ok (apply_limit (limit_clause limit) (List.filter (holds (drop_falsy fields)) rows)),
     st).
Proof.
  intros Hst Haff Hval. rewrite _select_unfold, Hst.
  rewrite exec_select_all; simpl tbl_defs; simpl tbl_rows.
  - do 3 f_equal. apply List.filter_ext. intros r. apply row_matches_text.
    apply Forall_forall. intros [k v] Hin.
    pose proof Hin as Hin'. apply elem_of_drop_falsy in Hin' as [Hin' Ht].
    rewrite Forall_forall in Haff, Hval. split; [by apply (Haff (k, v))|].
    destruct (Hval (k, v) Hin') as [Hn|Hs]; [|done].
    simpl in Hn. subst. discriminate.
  - unfold known, keys. rewrite Forall_fmap. apply drop_falsy_Forall.
    eapply Forall_impl; [exact Haff|]. intros [k v]. apply affinity_of_known.
Qed.

Lemma drop_falsy_cons_true k v (d : pydict) :
  truthy v = true → drop_falsy ((k, v) :: d) = (k, v) :: drop_falsy d.
Proof. intros Hv. unfold drop_falsy. simpl. by rewrite Hv. Qed.

Lemma drop_falsy_cons_false k v (d : pydict) :
  truthy v = false → drop_falsy ((k, v) :: d) = drop_falsy d.
Proof. intros Hv. unfold drop_falsy. simpl. by rewrite Hv. Qed.

Ltac text_fields :=
  repeat (apply List.Forall_cons;
          [simpl; first [reflexivity | by right; eexists | by left] |]);
  apply List.Forall_nil.

Lemma select_groups_text name limit st rows :
  st !! "groups" = Some (Table groups_cols rows) → name ≠ "" →
  select_groups (VStr name) limit st
  = (Ok (Group_new <$> apply_limit (limit_clause limit)
           (List.filter (holds [("name", VStr name)]) rows)), st).
Proof.
  intros Hst Hn. unfold select_groups, mbind, M_bind.
  erewrite _select_text; [| exact Hst | text_fields..].
  by rewrite drop_falsy_cons_true by by apply truthy_text.
Qed.

Lemma select_projects_text group name limit st rows :
  st !! "projects" = Some (Table projects_cols rows) → group ≠ "" → name ≠ "" →
  select_projects (VStr group) (VStr name) limit st
  = (Ok (Project_new <$> apply_limit (limit_clause limit)
           (List.filter (holds [("group_name", VStr group); ("name", VStr name)]) rows)),
     st).
Proof.
  intros Hst Hg Hn. unfold select_projects, mbind, M_bind.
  erewrite _select_text; [| exact Hst | text_fields..].
  by rewrite !drop_falsy_cons_true by by apply truthy_text.
Qed.

Lemma select_databases_text dt group project name limit st rows :
  st !! "databases" = Some (Table databases_cols rows) →
  group ≠ "" → project ≠ "" → name ≠ "" →
  select_databases dt (VStr group) (VStr project) (VStr name) limit st
  = (Ok (Database_new dt <$> apply_limit (limit_clause limit)
           (List.filter
              (holds [("group_name", VStr group); ("project", VStr project);
                      ("name", VStr name)]) rows)),
     st).
Proof.
  intros Hst Hg Hp Hn. unfold select_databases, mbind, M_bind.
  erewrite _select_text; [| exact Hst | text_fields..].
  by rewrite !drop_falsy_cons_true by by apply truthy_text.
Qed.

Lemma select_databases_of_project dt group project limit st rows :
  st !! "databases" = Some (Table databases_cols rows) →
  group ≠ "" → project ≠ "" →
  select_databases dt (VStr group) (VStr project) VNone limit st
  = (Ok (Database_new dt <$> apply_limit (limit_clause limit)
           (List.filter
              (holds [("group_name", VStr group); ("project", VStr project)]) rows)),
     st).
Proof.
  intros Hst Hg Hp. unfold select_databases, mbind, M_bind.
  erewrite _select_text; [| exact Hst | text_fields..].
  rewrite !drop_falsy_cons_true by by apply truthy_text.
  by rewrite drop_falsy_cons_false.
Qed.

(** A select on a table that exists, by columns it has, does not raise:
    absence is an empty result. *)
Lemma _select_never_raises table t fields limit st :
  st !! table = Some t → known (tbl_defs t) (keys fields) →
  ∃ rows, _select table fields limit st = (Ok rows, st).
Proof.
  intros Hst Hk. rewrite _select_unfold, Hst. rewrite exec_select_all; [by eexists|].
  unfold known, keys in *. rewrite Forall_fmap in *. by apply drop_falsy_Forall.
Qed.

(** ** Single-entity lookups *)

Lemma head_fmap_take_1 {A B} (f : A → B) (l : list A) :
  head (f <$> take 1 l) = f <$> head l.
Proof. by destruct l. Qed.

Lemma head_fmap_list {A B} (f : A → B) (l : list A) : head (f <$> l) = f <$> head l.
Proof. by destruct l. Qed.

Lemma apply_limit_1 {A} (l : list A) : apply_limit (limit_clause (Some 1)) l = take 1 l.
Proof. reflexivity. Qed.

Lemma select_group_spec name st rows :
  st !! "groups" = Some (Table groups_cols rows) → name ≠ "" →
  select_group (VStr name) st
  = (Ok (Group_new <$> head (List.filter (holds [("name", VStr name)]) rows)), st).
Proof.
  intros Hst Hn. unfold select_group, mbind, M_bind.
  rewrite (select_groups_text _ _ _ rows) by done.
  unfold mret, M_ret. by rewrite apply_limit_1, head_fmap_take_1.
Qed.

Lemma select_database_spec dt group project name st rows :
  st !! "databases" = Some (Table databases_cols rows) →
  group ≠ "" → project ≠ "" → name ≠ "" →
  select_database dt (VStr group) (VStr project) (VStr name) st
  = (Ok (Database_new dt <$>
         head (List.filter
                 (holds [("group_name", VStr group); ("project", VStr project);
                         ("name", VStr name)]) rows)), st).
Proof.
  intros Hst Hg Hp Hn. unfold select_database, mbind, M_bind.
  rewrite (select_databases_text _ _ _ _ _ _ rows) by done.
  unfold mret, M_ret. by rewrite apply_limit_1, head_fmap_take_1.
Qed.

Ltac solve_known :=
  unfold known, keys; simpl;
  repeat (apply List.Forall_cons; [apply list_elem_of_In; simpl; tauto|]);
  apply List.Forall_nil.

(** What [select_project] asks the engine: the projects of the group called
    [name] whose own name is the text 1, all of them. *)
Lemma select_project_spec name st rows :
  st !! "projects" = Some (Table projects_cols rows) → name ≠ "" →
  select_project (VStr name) st
  = (Ok (Project_new <$>
         head (List.filter (holds [("group_name", VStr name); ("name", VStr "1")]) rows)),
     st).
Proof.
  intros Hst Hn. unfold select_project, select_projects, mbind, M_bind.
  rewrite _select_unfold, Hst.
  rewrite !drop_falsy_cons_true by (by apply truthy_text || done).
  rewrite exec_select_all by solve_known.
  unfold mret, M_ret. simpl. unfold apply_limit. simpl budget.
  rewrite head_fmap_list. do 4 f_equal.
  apply List.filter_ext. intros r. unfold row_matches, holds. simpl.
  unfold sql_test. by destruct (cell r "group_name"), (cell r "name").
Qed.

(** C4: on the sample database, which holds the project "p1" of group "g",
    the multi-entity select with that name and limit 1 finds the project,
    and [select_project] does not: it returns None. *)
Theorem select_project_misses_the_project :
  select_projects VNone (VStr "p1") (Some 1) sample_db = (Ok [sample_project], sample_db)
  ∧ select_projects (VStr "g") (VStr "p1") (Some 1) sample_db
    = (Ok [sample_project], sample_db)
  ∧ select_project (VStr "p1") sample_db = (Ok None, sample_db).
Proof. repeat split; vm_compute; reflexivity. Qed.

(** ** Well-formed databases *)

Lemma table_ok_spec st name defs :
  table_ok st name defs = true ↔
  ∃ rows, st !! name = Some (Table defs rows)
          ∧ forallb (typed_row defs) rows = true
          ∧ NoDup (pk_of defs <$> rows).
Proof.
  unfold table_ok. destruct (st !! name) as [[defs' rows]|]; simpl.
  - rewrite !andb_true_iff, !bool_decide_eq_true. split.
    + intros [[-> Ht] Hnd]. by exists rows.
    + intros (rows' & [= -> ->] & Ht & Hnd). done.
  - split; [done|]. by intros (rows & ? & _).
Qed.

Lemma wf_spec st :
  wf st ↔
  table_ok st "groups" groups_cols = true
  ∧ table_ok st "projects" projects_cols = true
  ∧ table_ok st "databases" databases_cols = true
  ∧ table_ok st "events" events_cols = true.
Proof. unfold wf. rewrite !andb_true_iff. tauto. Qed.

Lemma wf_table st name defs :
  wf st →
  (name, defs) ∈ [("groups", groups_cols); ("projects", projects_cols);
                  ("databases", databases_cols); ("events", events_cols)] →
  ∃ rows, st !! name = Some (Table defs rows)
          ∧ forallb (typed_row defs) rows = true
          ∧ NoDup (pk_of defs <$> rows).
Proof.
  rewrite wf_spec. intros (Hg & Hp & Hd & He) Hin.
  apply table_ok_spec. apply list_elem_of_In in Hin. simpl in Hin.
  repeat destruct Hin as [[= <- <-]|Hin]; try done.
Qed.

Lemma rows_of_lookup st name t : st !! name = Some t → rows_of st name = tbl_rows t.
Proof. unfold rows_of. by intros ->. Qed.

(** A typed row of [events]: text in the scope columns and in [dict], an
    integer in [tick]. *)
Lemma typed_event_row r :
  typed_row events_cols r = true →
  ∃ g p d n s, r = [("group_name", VStr g); ("project", VStr p); ("database", VStr d);
                    ("tick", VInt n); ("dict", VStr s)].
Proof.
  unfold typed_row. rewrite andb_true_iff, bool_decide_eq_true.
  intros [Hk Hc].
  destruct r as [|[k1 v1] [|[k2 v2] [|[k3 v3] [|[k4 v4] [|[k5 v5] [|? ?]]]]]];
    try discriminate.
  injection Hk as -> -> -> -> ->.
  vm_compute in Hc.
  destruct v1, v2, v3, v4, v5; try discriminate. by do 5 eexists.
Qed.

(** ** Inserting *)

Lemma exec_insert_fields t (fields : pydict) :
  keys fields ≠ [] → known (tbl_defs t) (keys fields) →
  exec_insert t (keys fields) (values fields) =
  let r := new_row (tbl_defs t) fields in
  if not_null_ok (tbl_defs t) r then
    if pk_taken (tbl_defs t) r (tbl_rows t) then Raise IntegrityError
    else Ok (Table (tbl_defs t) (tbl_rows t ++ [r]))
  else Raise IntegrityError.
Proof.
  intros Hne Hk. unfold exec_insert.
  rewrite decide_False by done. rewrite decide_True by done.
  rewrite decide_True by apply keys_values_length.
  by rewrite keys_values_zip.
Qed.

Lemma pk_taken_spec defs r rows :
  pk_taken defs r rows = true ↔
  primary_key defs ≠ [] ∧ ∃ r', r' ∈ rows ∧ pk_of defs r' = pk_of defs r.
Proof.
  unfold pk_taken. rewrite andb_true_iff, !bool_decide_eq_true, list_elem_of_fmap.
  split; intros [Hpk (r' & H1 & H2)]; (split; [done|]); exists r'; by split.
Qed.

Lemma insert_event_text group project database tick dict st rows :
  st !! "events" = Some (Table events_cols rows) →
  insert_event
    {| client_group := VStr group; client_project := VStr project;
       client_database := VStr database |}
    {| e_tick := VInt tick; e_dict := dict |} st
  = if pk_taken events_cols (event_row group project database tick dict) rows
    then (Raise IntegrityError, st)
    else (Ok (), <["events" := Table events_cols
                                 (rows ++ [event_row group project database tick dict])]> st).
Proof.
  intros Hst. unfold insert_event. rewrite _insert_unfold, Hst.
  rewrite exec_insert_fields by (done || solve_known).
  simpl. by destruct (pk_taken _ _ _).
Qed.

(** C6: inserting a row whose primary key is already in its table raises
    IntegrityError, the engine's own exception, and leaves the database, the
    stored row of that key included, as it was; so does inserting an event
    whose scope and tick are those of a stored event. *)
Theorem insert_duplicate_key_raises :
  (∀ table (fields : pydict) t st r,
     st !! table = Some t →
     keys fields ≠ [] → known (tbl_defs t) (keys fields) →
     primary_key (tbl_defs t) ≠ [] →
     r ∈ tbl_rows t →
     pk_of (tbl_defs t) r = pk_of (tbl_defs t) (new_row (tbl_defs t) fields) →
     _insert table fields st = (Raise IntegrityError, st))
  ∧ (∀ group project database tick dict st rows r,
       st !! "events" = Some (Table events_cols rows) →
       r ∈ rows →
       in_scope group project database r = true → cell r "tick" = VInt tick →
       insert_event
         {| client_group := VStr group; client_project := VStr project;
            client_database := VStr database |}
         {| e_tick := VInt tick; e_dict := dict |} st
       = (Raise IntegrityError, st)).
Proof.
  split.
  - intros table fields t st r Hst Hne Hk Hpk Hr Heq.
    rewrite _insert_unfold, Hst, exec_insert_fields by done. simpl.
    destruct (not_null_ok _ _); [|done].
    replace (pk_taken _ _ _) with true; [done|].
    symmetry. apply pk_taken_spec. eauto.
  - intros g p d n s st rows r Hst Hr Hscope Htick.
    rewrite (insert_event_text _ _ _ _ _ _ rows) by done.
    replace (pk_taken _ _ _) with true; [done|].
    symmetry. apply pk_taken_spec. split; [done|]. exists r. split; [done|].
    unfold in_scope in Hscope.
    rewrite !andb_true_iff, !bool_decide_eq_true in Hscope.
    destruct Hscope as [[Hg Hp] Hd].
    unfold pk_of. simpl. by rewrite Hg, Hp, Hd, Htick.
Qed.

Lemma insert_duplicate_key_raises_witness :
  insert_event sample_client {| e_tick := VInt 3; e_dict := "{other}" |} sample_db
  = (Raise IntegrityError, sample_db)
  ∧ _insert "groups" [("name", VStr "g"); ("date", VStr "2020-05-05")] sample_db
    = (Raise IntegrityError, sample_db).
Proof.
  split.
  - apply (proj2 insert_duplicate_key_raises "g" "p1" "d1" 3 "{other}" sample_db
             (rows_of sample_db "events")
             (event_row "g" "p1" "d1" 3 "{3}")).
    + reflexivity.
    + apply list_elem_of_In. vm_compute. tauto.
    + reflexivity.
    + reflexivity.
  - apply (proj1 insert_duplicate_key_raises "groups"
             [("name", VStr "g"); ("date", VStr "2020-05-05")]
             (Table groups_cols (rows_of sample_db "groups")) sample_db
             [("name", VStr "g"); ("date", VStr "2019-01-01")]).
    + reflexivity.
    + discriminate.
    + solve_known.
    + discriminate.
    + apply list_elem_of_In. vm_compute. tauto.
    + reflexivity.
Defined.

(** ** Order *)

Lemma value_leb_total a b : value_leb a b = true ∨ value_leb b a = true.
Proof.
  destruct a as [|x|s], b as [|y|t]; simpl; auto.
  - destruct (decide (x ≤ y)); [left | right]; apply bool_decide_eq_true; lia.
  - apply String.leb_total.
Qed.

Global Instance asc_total c :
  Total (λ r1 r2 : row, Is_true (value_leb (cell r1 c) (cell r2 c))).
Proof.
  intros r1 r2. destruct (value_leb_total (cell r1 c) (cell r2 c)) as [H|H];
    [left | right]; by apply Is_true_true.
Qed.

Global Instance desc_total c :
  Total (λ r1 r2 : row, Is_true (value_leb (cell r2 c) (cell r1 c))).
Proof. intros r1 r2. destruct (asc_total c r1 r2); [by right | by left]. Qed.

Lemma NoDup_fmap_transfer {A B C} (f : A → B) (g : A → C) (l : list A) :
  (∀ x y, x ∈ l → y ∈ l → g x = g y → f x = f y) →
  NoDup (f <$> l) → NoDup (g <$> l).
Proof.
  induction l as [|x l IH]; intros Hfg; [constructor|].
  rewrite !fmap_cons, !NoDup_cons. intros [Hx Hnd]. split.
  - rewrite list_elem_of_fmap. intros (y & Hgy & Hy).
    apply Hx. rewrite list_elem_of_fmap. exists y. split; [|done].
    apply Hfg; [left | by right | done].
  - apply IH; [|done]. intros y z Hy Hz. apply Hfg; by right.
Qed.

Lemma NoDup_fmap_filter {A B} (f : A → B) (P : A → bool) (l : list A) :
  NoDup (f <$> l) → NoDup (f <$> List.filter P l).
Proof.
  induction l as [|x l IH]; [done|].
  rewrite fmap_cons, NoDup_cons. intros [Hx Hnd]. simpl.
  destruct (P x); [|by apply IH].
  rewrite fmap_cons, NoDup_cons. split; [|by apply IH].
  rewrite list_elem_of_fmap. intros (y & Hy & Hin). apply Hx.
  rewrite list_elem_of_fmap. exists y. split; [done|].
  by apply list_elem_of_In, filter_In in Hin as [Hin%list_elem_of_In _].
Qed.

Lemma StronglySorted_le_lt (l : list Z) :
  StronglySorted Z.le l → NoDup l → StronglySorted Z.lt l.
Proof.
  induction 1 as [|x l Hs IH Hall]; [constructor|].
  rewrite NoDup_cons. intros [Hx Hnd]. constructor; [by apply IH|].
  rewrite Forall_forall in *. intros y Hy.
  specialize (Hall y Hy). assert (x ≠ y) by (by intros ->). lia.
Qed.

Lemma filter_filter {A} (P Q : A → bool) (l : list A) :
  List.filter P (List.filter Q l) = List.filter (λ x, Q x && P x) l.
Proof.
  induction l as [|x l IH]; simpl; [done|].
  destruct (Q x); simpl; [|done]. destruct (P x); by rewrite IH.
Qed.

Lemma filter_fmap {A B} (f : A → B) (P : B → bool) (l : list A) :
  List.filter P (f <$> l) = f <$> List.filter (λ x, P (f x)) l.
Proof.
  induction l as [|x l IH]; [done|].
  rewrite fmap_cons. simpl. destruct (P (f x)); [rewrite fmap_cons|]; by rewrite IH.
Qed.

Lemma Forall_filter {A} (P : A → Prop) (Q : A → bool) (l : list A) :
  Forall P l → Forall P (List.filter Q l).
Proof.
  rewrite !Forall_forall. intros H x Hx.
  apply list_elem_of_In, filter_In in Hx as [Hx%list_elem_of_In _]. by apply H.
Qed.

Lemma Event_new_typed r :
  typed_row events_cols r = true → Event_new r = Ok (event_of_row r).
Proof. intros (g & p & d & n & s & ->)%typed_event_row. reflexivity. Qed.

Lemma mapM_Event_new rows :
  Forall (λ r, typed_row events_cols r = true) rows →
  mapM Event_new rows = Ok (event_of_row <$> rows).
Proof.
  induction 1 as [|r rows Hr _ IH]; [done|].
  simpl. by rewrite Event_new_typed, IH.
Qed.

Lemma event_row_matches group project database k r :
  typed_row events_cols r = true →
  row_matches [("group_name", CmpEq, VStr group); ("project", CmpEq, VStr project);
               ("database", CmpEq, VStr database); ("tick", CmpGt, VInt k)] r
  = in_scope group project database r && after k (event_of_row r).
Proof.
  intros (g & p & d & n & s & ->)%typed_event_row.
  unfold row_matches, in_scope, after. simpl.
  rewrite andb_true_r, !andb_assoc. do 1 f_equal.
  change (cell _ "tick") with (VInt n). simpl.
  destruct (Z.ltb_spec k n).
  - rewrite bool_decide_eq_false_2 by lia. done.
  - rewrite bool_decide_eq_true_2 by lia. done.
Qed.

Lemma select_events_unfold group project database k st rows :
  st !! "events" = Some (Table events_cols rows) →
  select_events (VStr group) (VStr project) (VStr database) (VInt k) st
  = (mapM Event_new
       (merge_sort (λ r1 r2, Is_true (value_leb (cell r1 "tick") (cell r2 "tick")))
          (List.filter
             (row_matches
                [("group_name", CmpEq, VStr group); ("project", CmpEq, VStr project);
                 ("database", CmpEq, VStr database); ("tick", CmpGt, VInt k)])
             rows)), st).
Proof.
  intros Hst. unfold select_events, mbind, M_bind, select_events_stmt, execute.
  rewrite Hst. unfold exec_select. simpl tbl_defs. simpl tbl_rows.
  rewrite decide_True by solve_known. rewrite decide_True by done.
  unfold apply_limit, budget, order_rows. rewrite project_all.
  unfold lift. done.
Qed.

Lemma typed_tick r : typed_row events_cols r = true → cell r "tick" = VInt (tick_of r).
Proof. intros (g & p & d & n & s & ->)%typed_event_row. reflexivity. Qed.

Lemma scope_pk group project database r :
  typed_row events_cols r = true → in_scope group project database r = true →
  pk_of events_cols r = [VStr group; VStr project; VStr database; VInt (tick_of r)].
Proof.
  intros Ht. unfold in_scope. rewrite !andb_true_iff, !bool_decide_eq_true.
  intros [[Hg Hp] Hd]. unfold pk_of. simpl. by rewrite Hg, Hp, Hd, typed_tick.
Qed.

Lemma typed_rows_Forall defs rows :
  forallb (typed_row defs) rows = true ↔ Forall (λ r, typed_row defs r = true) rows.
Proof. rewrite forallb_forall, Forall_forall. by setoid_rewrite list_elem_of_In. Qed.

Lemma ticks_sorted (l : list row) :
  Forall (λ r, typed_row events_cols r = true) l →
  Sorted (λ r1 r2, Is_true (value_leb (cell r1 "tick") (cell r2 "tick"))) l →
  Sorted Z.le (tick_of <$> l).
Proof.
  intros Ht Hs. induction Hs as [|r l Hs IH Hhd]; [constructor|].
  apply Forall_cons in Ht as [Hr Ht]. rewrite fmap_cons. constructor; [by apply IH|].
  destruct Hhd as [|r' l' Hle]; [constructor|].
  apply Forall_cons in Ht as [Hr' _]. rewrite fmap_cons. constructor.
  rewrite !typed_tick in Hle by done. simpl in Hle.
  by apply bool_decide_unpack in Hle.
Qed.

Lemma ticks_strictly_sorted (l : list row) :
  Forall (λ r, typed_row events_cols r = true) l →
  StronglySorted Z.lt (tick_of <$> l) →
  StronglySorted tick_lt (event_of_row <$> l).
Proof.
  induction 1 as [|r l Hr Hl IH]; [constructor|].
  rewrite !fmap_cons. intros [Hall Hs]%StronglySorted_cons.
  constructor; [by apply IH|].
  rewrite Forall_fmap in Hall. rewrite Forall_fmap.
  rewrite Forall_forall in Hall, Hl. apply Forall_forall.
  intros r' Hr'. specialize (Hall r' Hr'). specialize (Hl r' Hr').
  exists (tick_of r), (tick_of r'). unfold event_of_row. cbn [e_tick].
  by rewrite !typed_tick.
Qed.

(** The events [select_events] returns. *)
Lemma select_events_sorted group project database k st :
  wf st →
  ∃ events,
    select_events (VStr group) (VStr project) (VStr database) (VInt k) st
    = (Ok events, st)
    ∧ events ≡ₚ List.filter (after k) (stored_events group project database st)
    ∧ StronglySorted tick_lt events
    ∧ Forall (λ e, ∃ n, e_tick e = VInt n ∧ k < n) events.
Proof.
  intros Hwf.
  destruct (wf_table st "events" events_cols Hwf) as (rows & Hst & Htyped & Hnd);
    [apply list_elem_of_In; simpl; tauto|].
  apply typed_rows_Forall in Htyped.
  rewrite (select_events_unfold _ _ _ _ _ rows) by done.
  unfold stored_events. rewrite (rows_of_lookup _ _ _ Hst). simpl tbl_rows.
  rewrite filter_fmap, filter_filter.
  erewrite (List.filter_ext_in (row_matches _)); last first.
  { intros r Hr%list_elem_of_In. apply event_row_matches.
    rewrite Forall_forall in Htyped. by apply Htyped. }
  set (hits := List.filter _ rows).
  set (R := λ r1 r2 : row, Is_true (value_leb (cell r1 "tick") (cell r2 "tick"))).
  assert (Hthits : Forall (λ r, typed_row events_cols r = true) hits)
    by by apply Forall_filter.
  assert (Hperm : merge_sort R hits ≡ₚ hits) by apply merge_sort_Permutation.
  assert (Htsorted : Forall (λ r, typed_row events_cols r = true) (merge_sort R hits))
    by by rewrite Hperm.
  exists (event_of_row <$> merge_sort R hits).
  split; [by rewrite mapM_Event_new|]. split; [by rewrite Hperm|]. split.
  - apply ticks_strictly_sorted; [done|].
    apply StronglySorted_le_lt.
    + apply Sorted_StronglySorted; [intros x y z; lia|].
      apply ticks_sorted; [done|]. apply Sorted_merge_sort, asc_total.
    + rewrite Hperm. eapply (NoDup_fmap_transfer (pk_of events_cols)).
      * intros r1 r2 H1 H2 Heq.
        apply list_elem_of_In, filter_In in H1 as [H1%list_elem_of_In [Hs1 _]%andb_true_iff].
        apply list_elem_of_In, filter_In in H2 as [H2%list_elem_of_In [Hs2 _]%andb_true_iff].
        rewrite Forall_forall in Htyped.
        rewrite (scope_pk group project database r1),
                (scope_pk group project database r2), Heq; auto.
      * by apply NoDup_fmap_filter.
  - rewrite Hperm. apply Forall_fmap, Forall_forall.
    intros r Hr. apply list_elem_of_In, filter_In in Hr as [_ [_ Ha]%andb_true_iff].
    unfold after in Ha.
    destruct (e_tick (event_of_row r)) as [|n|] eqn:He; try done.
    exists n. split; [exact He|]. by apply Z.ltb_lt.
Qed.

Lemma after_spec k e : after k e = true ↔ ∃ n, e_tick e = VInt n ∧ k < n.
Proof.
  unfold after. destruct (e_tick e) as [|n|s]; split; try discriminate.
  - by intros (n & ? & _).
  - intros Hlt%Z.ltb_lt. by exists n.
  - intros (m & [= <-] & Hlt). by apply Z.ltb_lt.
  - by intros (n & ? & _).
Qed.



Lemma scope_row_matches group project database r :
  row_matches [("group_name", CmpEq, VStr group); ("project", CmpEq, VStr project);
               ("database", CmpEq, VStr database)] r
  = in_scope group project database r.
Proof.
  unfold row_matches, in_scope, sql_test. simpl. rewrite andb_true_r, andb_assoc.
  by destruct (cell r "group_name"), (cell r "project"), (cell r "database").
Qed.

Lemma last_tick_unfold group project database st rows :
  st !! "events" = Some (Table events_cols rows) →
  last_tick (VStr group) (VStr project) (VStr database) st
  = (Ok (match head (merge_sort
                       (λ r1 r2, Is_true (value_leb (cell r2 "tick") (cell r1 "tick")))
                       (List.filter (in_scope group project database) rows)) with
         | Some r => cell r "tick"
         | None => VInt 0
         end), st).
Proof.
  intros Hst. unfold last_tick, mbind, M_bind, last_tick_stmt, execute.
  rewrite Hst. unfold exec_select. simpl tbl_defs. simpl tbl_rows.
  rewrite decide_True by solve_known. rewrite decide_True by done.
  unfold order_rows, mret, M_ret.
  rewrite (List.filter_ext _ _ (scope_row_matches group project database)).
  change (apply_limit (Some 1) ?l) with (take 1 l).
  rewrite head_fmap_take_1. by destruct (head _).
Qed.

Lemma ticks_sorted_desc (l : list row) :
  Forall (λ r, typed_row events_cols r = true) l →
  Sorted (λ r1 r2, Is_true (value_leb (cell r2 "tick") (cell r1 "tick"))) l →
  Sorted Z.ge (tick_of <$> l).
Proof.
  intros Ht Hs. induction Hs as [|r l Hs IH Hhd]; [constructor|].
  apply Forall_cons in Ht as [Hr Ht]. rewrite fmap_cons. constructor; [by apply IH|].
  destruct Hhd as [|r' l' Hle]; [constructor|].
  apply Forall_cons in Ht as [Hr' _]. rewrite fmap_cons. constructor.
  rewrite !typed_tick in Hle by done. simpl in Hle.
  apply bool_decide_unpack in Hle. lia.
Qed.

Lemma last_tick_max group project database st :
  wf st →
  ∃ n, last_tick (VStr group) (VStr project) (VStr database) st = (Ok (VInt n), st)
       ∧ (scope_ticks group project database st = [] → n = 0)
       ∧ (scope_ticks group project database st ≠ [] →
            n ∈ scope_ticks group project database st
            ∧ ∀ m, m ∈ scope_ticks group project database st → m ≤ n).
Proof.
  intros Hwf.
  destruct (wf_table st "events" events_cols Hwf) as (rows & Hst & Htyped & _);
    [apply list_elem_of_In; simpl; tauto|].
  apply typed_rows_Forall in Htyped.
  rewrite (last_tick_unfold _ _ _ _ rows) by done.
  unfold scope_ticks. rewrite (rows_of_lookup _ _ _ Hst). simpl tbl_rows.
  set (hits := List.filter _ rows).
  set (R := λ r1 r2 : row, Is_true (value_leb (cell r2 "tick") (cell r1 "tick"))).
  assert (Hthits : Forall (λ r, typed_row events_cols r = true) hits)
    by by apply Forall_filter.
  assert (Hperm : merge_sort R hits ≡ₚ hits) by apply merge_sort_Permutation.
  assert (Htsorted : Forall (λ r, typed_row events_cols r = true) (merge_sort R hits))
    by by rewrite Hperm.
  assert (Hsorted : StronglySorted Z.ge (tick_of <$> merge_sort R hits)).
  { apply Sorted_StronglySorted; [intros x y z; lia|].
    apply ticks_sorted_desc; [done|]. apply Sorted_merge_sort, desc_total. }
  destruct (merge_sort R hits) as [|r l] eqn:Hl.
  - apply Permutation_nil_l in Hperm as <-. exists 0. simpl. by repeat split.
  - exists (tick_of r). simpl.
    apply Forall_cons in Htsorted as [Hr _]. rewrite typed_tick by done.
    split; [done|]. split.
    + intros Hnil. apply fmap_nil_inv in Hnil. rewrite Hnil in Hperm.
      by apply Permutation_nil_r in Hperm.
    + intros _. setoid_rewrite <- Hperm. rewrite fmap_cons.
      split; [left|]. intros m Hm.
      apply StronglySorted_cons in Hsorted as [Hall _].
      apply elem_of_cons in Hm as [->|Hm]; [lia|].
      rewrite Forall_forall in Hall. specialize (Hall m Hm). lia.
Qed.

(** ** Statements keep the database well formed *)

Lemma table_ok_insert st name t name' defs :
  table_ok (<[name := t]> st) name' defs =
  if decide (name = name') then
    bool_decide (tbl_defs t = defs) && forallb (typed_row defs) (tbl_rows t)
    && bool_decide (NoDup (pk_of defs <$> tbl_rows t))
  else table_ok st name' defs.
Proof.
  unfold table_ok. case_decide as Hn.
  - subst. by rewrite lookup_insert_eq.
  - by rewrite lookup_insert_ne.
Qed.

Lemma wf_set_rows st name defs rows :
  wf st →
  (name, defs) ∈ [("groups", groups_cols); ("projects", projects_cols);
                  ("databases", databases_cols); ("events", events_cols)] →
  forallb (typed_row defs) rows = true →
  NoDup (pk_of defs <$> rows) →
  wf (<[name := Table defs rows]> st).
Proof.
  rewrite !wf_spec. intros (Hg & Hp & Hd & He) Hin Ht Hnd.
  rewrite !table_ok_insert. simpl.
  apply list_elem_of_In in Hin. simpl in Hin.
  repeat destruct Hin as [[= <- <-]|Hin]; try done;
    repeat split; try done; simpl;
    rewrite Ht, !bool_decide_eq_true_2 by done; done.
Qed.

Lemma wf_initialize : wf (initialize ∅).2.
Proof. reflexivity. Qed.

Lemma NoDup_snoc {A} (l : list A) x : NoDup l → x ∉ l → NoDup (l ++ [x]).
Proof.
  intros Hl Hx. apply NoDup_app. split; [done|]. split.
  - intros y Hy Hy'. apply list_elem_of_singleton in Hy' as ->. done.
  - apply NoDup_singleton.
Qed.

Lemma pk_taken_false defs r rows :
  pk_taken defs r rows = false → primary_key defs ≠ [] →
  pk_of defs r ∉ pk_of defs <$> rows.
Proof.
  unfold pk_taken. intros H Hpk. rewrite bool_decide_eq_true_2 in H by done.
  by apply bool_decide_eq_false in H.
Qed.

(** An insert that goes through adds one typed row with a new key. *)
Lemma wf_exec_insert st name defs rows cols params t' :
  wf st →
  (name, defs) ∈ [("groups", groups_cols); ("projects", projects_cols);
                  ("databases", databases_cols); ("events", events_cols)] →
  st !! name = Some (Table defs rows) →
  exec_insert (Table defs rows) cols params = Ok t' →
  typed_row defs (new_row defs (zip cols params)) = true →
  wf (<[name := t']> st).
Proof.
  intros Hwf Hin Hst Hins Htyped.
  apply exec_insert_Ok in Hins as (_ & _ & _ & _ & Hpk & ->). simpl in *.
  destruct (wf_table st name defs Hwf Hin) as (rows' & Hst' & Ht & Hnd).
  rewrite Hst in Hst'. injection Hst' as <-.
  apply wf_set_rows; [done|done| |].
  - rewrite forallb_app, Ht. simpl. by rewrite Htyped.
  - rewrite fmap_app. apply NoDup_snoc; [done|].
    apply pk_taken_false; [done|].
    apply list_elem_of_In in Hin. simpl in Hin.
    repeat destruct Hin as [[= <- <-]|Hin]; done.
Qed.

Lemma scope_ticks_taken group project database tick dict st rows :
  st !! "events" = Some (Table events_cols rows) →
  forallb (typed_row events_cols) rows = true →
  pk_taken events_cols (event_row group project database tick dict) rows = true →
  tick ∈ scope_ticks group project database st.
Proof.
  intros Hst Ht (_ & r & Hr & Hpk)%pk_taken_spec.
  apply typed_rows_Forall in Ht. rewrite Forall_forall in Ht.
  specialize (Ht r Hr). destruct (typed_event_row r Ht) as (g & p & d & n & s & ->).
  injection Hpk as -> -> -> ->.
  unfold scope_ticks. rewrite (rows_of_lookup _ _ _ Hst). simpl.
  apply list_elem_of_fmap. exists (event_row group project database tick s).
  split; [|apply list_elem_of_In, filter_In].
  - reflexivity.
  - split; [by apply list_elem_of_In|].
    unfold in_scope. simpl. by rewrite !bool_decide_eq_true_2.
Qed.

(** Appending an event with a tick the scope does not have yet. *)
Lemma insert_event_fresh group project database tick dict st :
  wf st → tick ∉ scope_ticks group project database st →
  ∃ st', insert_event
           {| client_group := VStr group; client_project := VStr project;
              client_database := VStr database |}
           {| e_tick := VInt tick; e_dict := dict |} st = (Ok (), st')
         ∧ wf st'
         ∧ st' = <["events" := Table events_cols
                     (rows_of st "events"
                      ++ [event_row group project database tick dict])]> st.
Proof.
  intros Hwf Hfresh.
  destruct (wf_table st "events" events_cols Hwf) as (rows & Hst & Ht & Hnd);
    [apply list_elem_of_In; simpl; tauto|].
  rewrite (insert_event_text _ _ _ _ _ _ rows) by done.
  rewrite (rows_of_lookup _ _ _ Hst). simpl tbl_rows.
  destruct (pk_taken _ _ _) eqn:Hpk.
  { destruct Hfresh. by eapply scope_ticks_taken. }
  eexists. split; [done|]. split; [|done].
  apply wf_set_rows; [done|apply list_elem_of_In; simpl; tauto| |].
  - rewrite forallb_app, Ht. reflexivity.
  - rewrite fmap_app. apply NoDup_snoc; [done|].
    by apply pk_taken_false.
Qed.

Lemma scope_ticks_append group project database tick dict st :
  scope_ticks group project database
    (<["events" := Table events_cols
         (rows_of st "events" ++ [event_row group project database tick dict])]> st)
  = scope_ticks group project database st ++ [tick].
Proof.
  unfold scope_ticks at 1. unfold rows_of at 1. rewrite lookup_insert_eq. simpl.
  rewrite List.filter_app, fmap_app. f_equal. simpl.
  unfold in_scope. simpl. by rewrite !bool_decide_eq_true_2.
Qed.

(** C2: on a well-formed database, [last_tick] returns 0 for a scope without
    events and the greatest tick of the scope otherwise; after the events of
    ticks 3, 1 and 5 are inserted, in that order, into a scope that had
    none, it returns 5. *)
Theorem last_tick_is_max :
  (∀ group project database st,
     wf st →
     ∃ n, last_tick (VStr group) (VStr project) (VStr database) st = (Ok (VInt n), st)
          ∧ (scope_ticks group project database st = [] → n = 0)
          ∧ (scope_ticks group project database st ≠ [] →
               n ∈ scope_ticks group project database st
               ∧ ∀ m, m ∈ scope_ticks group project database st → m ≤ n))
  ∧ (∀ group project database dict3 dict1 dict5 st,
       wf st → scope_ticks group project database st = [] →
       let client := {| client_group := VStr group; client_project := VStr project;
                        client_database := VStr database |} in
       ∃ st',
         (_ ← insert_event client {| e_tick := VInt 3; e_dict := dict3 |};
          _ ← insert_event client {| e_tick := VInt 1; e_dict := dict1 |};
          insert_event client {| e_tick := VInt 5; e_dict := dict5 |}) st = (Ok (), st')
         ∧ last_tick (VStr group) (VStr project) (VStr database) st' = (Ok (VInt 5), st')).
Proof.
  split; [apply last_tick_max|].
  intros g p d s3 s1 s5 st Hwf Hnone client.
  destruct (insert_event_fresh g p d 3 s3 st Hwf) as (st1 & H1 & Hwf1 & Hst1).
  { rewrite Hnone. apply not_elem_of_nil. }
  assert (Ht1 : scope_ticks g p d st1 = [3])
    by (by rewrite Hst1, scope_ticks_append, Hnone).
  destruct (insert_event_fresh g p d 1 s1 st1 Hwf1) as (st2 & H2 & Hwf2 & Hst2).
  { rewrite Ht1. by intros [=]%list_elem_of_singleton. }
  assert (Ht2 : scope_ticks g p d st2 = [3; 1])
    by (by rewrite Hst2, scope_ticks_append, Ht1).
  destruct (insert_event_fresh g p d 5 s5 st2 Hwf2) as (st3 & H3 & Hwf3 & Hst3).
  { rewrite Ht2. intros Hin. apply list_elem_of_In in Hin. simpl in Hin. lia. }
  assert (Ht3 : scope_ticks g p d st3 = [3; 1; 5])
    by (by rewrite Hst3, scope_ticks_append, Ht2).
  exists st3. split.
  - unfold mbind, M_bind, client. by rewrite H1, H2, H3.
  - destruct (last_tick_max g p d st3 Hwf3) as (n & -> & _ & Hmax).
    destruct Hmax as [Hin Hle]; [by rewrite Ht3|].
    rewrite Ht3 in Hin, Hle. apply list_elem_of_In in Hin. simpl in Hin.
    assert (5 ≤ n) by (apply Hle, list_elem_of_In; simpl; tauto).
    do 3 f_equal. lia.
Qed.

Lemma last_tick_is_max_witness :
  last_tick (VStr "g") (VStr "p1") (VStr "d1") sample_db = (Ok (VInt 5), sample_db)
  ∧ last_tick (VStr "g") (VStr "p1") (VStr "d2") sample_db = (Ok (VInt 0), sample_db)
  ∧ ∃ st',
      (_ ← insert_event sample_client {| e_tick := VInt 3; e_dict := "{a}" |};
       _ ← insert_event sample_client {| e_tick := VInt 1; e_dict := "{b}" |};
       insert_event sample_client {| e_tick := VInt 5; e_dict := "{c}" |})
        (initialize ∅).2 = (Ok (), st')
      ∧ last_tick (VStr "g") (VStr "p1") (VStr "d1") st' = (Ok (VInt 5), st').
Proof.
  split; [|split].
  - destruct (proj1 last_tick_is_max "g" "p1" "d1" sample_db) as (n & Hn & _ & Hmax);
      [reflexivity|].
    destruct Hmax as [Hin Hle]; [discriminate|].
    assert (5 ≤ n) by (apply Hle, list_elem_of_In; vm_compute; tauto).
    apply list_elem_of_In in Hin. vm_compute in Hin.
    rewrite Hn. do 3 f_equal. lia.
  - destruct (proj1 last_tick_is_max "g" "p1" "d2" sample_db) as (n & Hn & Hzero & _);
      [reflexivity|].
    rewrite Hn, Hzero; reflexivity.
  - apply (proj2 last_tick_is_max "g" "p1" "d1" "{a}" "{b}" "{c}" (initialize ∅).2);
      reflexivity.
Defined.

(** ** Round trips *)

Lemma nonempty_text_inv v : nonempty_text v = true → ∃ s, v = VStr s ∧ s ≠ "".
Proof.
  destruct v as [| |s]; try discriminate. simpl.
  destruct (String.eqb_spec s ""); [discriminate|]. by exists s.
Qed.

Lemma _insert_fresh table defs rows (fields : pydict) st :
  st !! table = Some (Table defs rows) →
  keys fields ≠ [] → known defs (keys fields) →
  not_null_ok defs (new_row defs fields) = true →
  pk_taken defs (new_row defs fields) rows = false →
  _insert table fields st
  = (Ok (), <[table := Table defs (rows ++ [new_row defs fields])]> st).
Proof.
  intros Hst Hne Hk Hnn Hpk.
  rewrite _insert_unfold, Hst, exec_insert_fields by done. simpl.
  by rewrite Hnn, Hpk.
Qed.

Lemma filter_nil_not_elem {A} (P : A → bool) (l : list A) x :
  List.filter P l = [] → x ∈ l → P x = false.
Proof.
  intros Hnil Hx. destruct (P x) eqn:HP; [|done].
  assert (Hin : In x (List.filter P l)) by (apply filter_In; by rewrite <- list_elem_of_In).
  rewrite Hnil in Hin. destruct Hin.
Qed.

Lemma pk_fresh defs r rows (P : row → bool) :
  List.filter P rows = [] →
  (∀ r', pk_of defs r' = pk_of defs r → P r' = true) →
  pk_taken defs r rows = false.
Proof.
  intros Hnil HP. destruct (pk_taken defs r rows) eqn:Hpk; [|done].
  apply pk_taken_spec in Hpk as (_ & r' & Hr' & Heq).
  specialize (HP r' Heq).
  by rewrite (filter_nil_not_elem P rows r' Hnil Hr') in HP.
Qed.

Lemma fmap_nil_head {A B} (f : A → B) (l : list A) :
  f <$> head l = None → head l = None.
Proof. by destruct (head l). Qed.

Lemma head_filter_None {A} (P : A → bool) (l : list A) :
  head (List.filter P l) = None → List.filter P l = [].
Proof. by destruct (List.filter P l). Qed.

Lemma insert_group_round_trip (g : Group) st :
  wf st → valid_group g = true →
  select_group (g_name g) st = (Ok None, st) →
  ∃ st', insert_group (Group_dict g) st = (Ok (), st')
         ∧ wf st'
         ∧ select_group (g_name g) st' = (Ok (Some g), st')
         ∧ select_groups (g_name g) None st' = (Ok [g], st').
Proof.
  intros Hwf Hv Hnone. destruct g as [vn vd]. unfold valid_group in Hv. simpl in *.
  apply andb_true_iff in Hv as [(n & -> & Hn)%nonempty_text_inv
                                 (d & -> & Hd)%nonempty_text_inv].
  destruct (wf_table st "groups" groups_cols Hwf) as (rows & Hst & Ht & Hnd);
    [apply list_elem_of_In; simpl; tauto|].
  rewrite (select_group_spec _ _ rows) in Hnone by done.
  injection Hnone as Hnone%fmap_nil_head%head_filter_None.
  assert (Hpk : pk_taken groups_cols [("name", VStr n); ("date", VStr d)] rows = false).
  { eapply pk_fresh; [exact Hnone|]. intros r' [= Heq].
    unfold holds. simpl. by rewrite Heq, bool_decide_eq_true_2. }
  assert (Hins : insert_group [("name", VStr n); ("date", VStr d)] st
                 = (Ok (), <["groups" := Table groups_cols
                               (rows ++ [[("name", VStr n); ("date", VStr d)]])]> st)).
  { unfold insert_group, Default_attrs.
    rewrite !drop_falsy_cons_true by by apply truthy_text.
    rewrite (_insert_fresh _ groups_cols rows); try done. solve_known. }
  eexists. split; [exact Hins|].
  assert (Hfilter : List.filter (holds [("name", VStr n)])
                      (rows ++ [[("name", VStr n); ("date", VStr d)]])
                    = [[("name", VStr n); ("date", VStr d)]]).
  { rewrite List.filter_app, Hnone. unfold holds. simpl.
    by rewrite bool_decide_eq_true_2. }
  split; [|split].
  - apply wf_set_rows; [done|apply list_elem_of_In; simpl; tauto| |].
    + rewrite forallb_app, Ht. reflexivity.
    + rewrite fmap_app. apply NoDup_snoc; [done|]. by apply pk_taken_false.
  - erewrite select_group_spec; [|apply lookup_insert_eq|done].
    by rewrite Hfilter.
  - erewrite select_groups_text; [|apply lookup_insert_eq|done].
    unfold apply_limit. simpl budget. by rewrite Hfilter.
Qed.

Ltac in_schema := apply list_elem_of_In; simpl; tauto.

Ltac wf_after_insert Ht Hnd Hpk :=
  apply wf_set_rows;
  [ done
  | in_schema
  | rewrite forallb_app, Ht; reflexivity
  | rewrite fmap_app; apply NoDup_snoc; [exact Hnd | by apply pk_taken_false] ].

Lemma insert_project_round_trip (p : Project) st :
  wf st → valid_project p = true →
  select_projects (p_group_name p) (p_name p) None st = (Ok [], st) →
  ∃ st', insert_project (Project_dict p) st = (Ok (), st')
         ∧ wf st'
         ∧ select_projects (p_group_name p) (p_name p) None st' = (Ok [p], st').
Proof.
  intros Hwf Hv Hnone. destruct p as [vg vn vh vf vt vd].
  unfold valid_project in Hv. simpl in *. rewrite !andb_true_iff in Hv.
  destruct Hv as [[[[[(g & -> & Hg)%nonempty_text_inv (n & -> & Hn)%nonempty_text_inv]
    (h & -> & Hh)%nonempty_text_inv] (f & -> & Hf)%nonempty_text_inv]
    (t & -> & Ht')%nonempty_text_inv] (d & -> & Hd)%nonempty_text_inv].
  destruct (wf_table st "projects" projects_cols Hwf) as (rows & Hst & Ht & Hnd);
    [in_schema|].
  rewrite (select_projects_text _ _ _ _ rows) in Hnone by done.
  injection Hnone as Hnone%fmap_nil_inv. unfold apply_limit in Hnone. simpl in Hnone.
  set (r := [("group_name", VStr g); ("name", VStr n); ("hash", VStr h);
             ("file", VStr f); ("type", VStr t); ("date", VStr d)]).
  assert (Hpk : pk_taken projects_cols r rows = false).
  { eapply pk_fresh; [exact Hnone|]. intros r' [= Hg' Hn'].
    unfold holds. simpl. by rewrite Hg', Hn', !bool_decide_eq_true_2. }
  assert (Hins : insert_project r st
                 = (Ok (), <["projects" := Table projects_cols (rows ++ [r])]> st)).
  { unfold insert_project, Default_attrs, r.
    rewrite !drop_falsy_cons_true by by apply truthy_text.
    rewrite (_insert_fresh _ projects_cols rows); try done. solve_known. }
  eexists. split; [exact Hins|]. split; [wf_after_insert Ht Hnd Hpk|].
  erewrite select_projects_text; [|apply lookup_insert_eq|done..].
  unfold apply_limit. simpl budget. rewrite List.filter_app, Hnone.
  unfold holds. simpl. by rewrite !bool_decide_eq_true_2.
Qed.

Lemma insert_database_round_trip default_tick (d : Database) st :
  wf st → valid_database d = true →
  select_database default_tick (d_group_name d) (d_project d) (d_name d) st
  = (Ok None, st) →
  ∃ st', insert_database (Database_dict d) st = (Ok (), st')
         ∧ wf st'
         ∧ select_database default_tick (d_group_name d) (d_project d) (d_name d) st'
           = (Ok (Some (with_tick default_tick d)), st').
Proof.
  intros Hwf Hv Hnone. destruct d as [vg vp vn vd vt].
  unfold valid_database in Hv. simpl in *. rewrite !andb_true_iff in Hv.
  destruct Hv as [[[[(g & -> & Hg)%nonempty_text_inv (p & -> & Hp)%nonempty_text_inv]
    (n & -> & Hn)%nonempty_text_inv] (d & -> & Hd)%nonempty_text_inv] Htick].
  destruct (wf_table st "databases" databases_cols Hwf) as (rows & Hst & Ht & Hnd);
    [in_schema|].
  rewrite (select_database_spec _ _ _ _ _ rows) in Hnone by done.
  injection Hnone as Hnone%fmap_nil_head%head_filter_None.
  set (r := [("group_name", VStr g); ("project", VStr p); ("name", VStr n);
             ("date", VStr d)]).
  assert (Hpk : pk_taken databases_cols r rows = false).
  { eapply pk_fresh; [exact Hnone|]. intros r' [= Hg' Hp' Hn'].
    unfold holds. simpl. by rewrite Hg', Hp', Hn', !bool_decide_eq_true_2. }
  eexists. split; [|split].
  - rewrite insert_database_truthy by done.
    cbn [d_group_name d_project d_name d_date].
    rewrite !drop_falsy_cons_true by by apply truthy_text.
    rewrite (_insert_fresh _ databases_cols rows); try done. solve_known.
  - wf_after_insert Ht Hnd Hpk.
  - erewrite select_database_spec; [|apply lookup_insert_eq|done..].
    rewrite List.filter_app, Hnone.
    unfold holds. simpl. by rewrite !bool_decide_eq_true_2.
Qed.

Lemma stored_events_append group project database tick dict st :
  stored_events group project database
    (<["events" := Table events_cols
         (rows_of st "events" ++ [event_row group project database tick dict])]> st)
  = stored_events group project database st
    ++ [{| e_tick := VInt tick; e_dict := dict |}].
Proof.
  unfold stored_events at 1. unfold rows_of at 1. rewrite lookup_insert_eq. simpl.
  rewrite List.filter_app, fmap_app. f_equal. simpl.
  unfold in_scope. simpl. by rewrite !bool_decide_eq_true_2.
Qed.

Lemma insert_event_round_trip group project database tick dict st :
  wf st → tick ∉ scope_ticks group project database st →
  ∃ st', insert_event
           {| client_group := VStr group; client_project := VStr project;
              client_database := VStr database |}
           {| e_tick := VInt tick; e_dict := dict |} st = (Ok (), st')
         ∧ wf st'
         ∧ ∀ k, k < tick →
             ∃ events,
               select_events (VStr group) (VStr project) (VStr database) (VInt k) st'
               = (Ok events, st')
               ∧ {| e_tick := VInt tick; e_dict := dict |} ∈ events.
Proof.
  intros Hwf Hfresh.
  destruct (insert_event_fresh group project database tick dict st Hwf Hfresh)
    as (st' & Hins & Hwf' & Hst').
  exists st'. split; [done|]. split; [done|]. intros k Hk.
  destruct (select_events_sorted group project database k st' Hwf')
    as (events & Hsel & Hperm & _).
  exists events. split; [done|]. rewrite Hperm, Hst', stored_events_append.
  rewrite List.filter_app. apply elem_of_app. right.
  unfold after. simpl. apply Z.ltb_lt in Hk as ->. left.
Qed.

(** ** The generic update *)

Lemma drop_falsy_all (fields : pydict) :
  Forall (λ kv, truthy kv.2 = true) fields → drop_falsy fields = fields.
Proof.
  induction 1 as [|[k v] fields Hv _ IH]; [done|].
  simpl in Hv. by rewrite drop_falsy_cons_true, IH.
Qed.

Lemma _update_text table defs rows field new (fields : pydict) st :
  st !! table = Some (Table defs rows) →
  affinity_of defs field = Some TEXT →
  Forall (λ kv, affinity_of defs kv.1 = Some TEXT ∧ ∃ s, kv.2 = VStr s ∧ s ≠ "") fields →
  NoDup (pk_of defs <$>
         ((λ r, if holds fields r then set_cell field (VStr new) r else r) <$> rows)) →
  _update table field (VStr new) fields None st
  = (Ok [], <[table := Table defs
                 ((λ r, if holds fields r then set_cell field (VStr new) r else r)
                    <$> rows)]> st).
Proof.
  intros Hst Hfield Hfields Hnd. rewrite _update_unfold, Hst.
  rewrite drop_falsy_all; last first.
  { eapply Forall_impl; [exact Hfields|]. intros [k v] [_ (s & -> & Hs)].
    by apply truthy_text. }
  unfold exec_update. simpl tbl_defs. simpl tbl_rows.
  rewrite decide_True; last first.
  { apply List.Forall_cons; [by eapply affinity_of_known|].
    unfold keys. rewrite <- !list_fmap_compose.
    apply Forall_fmap. eapply Forall_impl; [exact Hfields|].
    intros [k v] [Hk _]. by eapply affinity_of_known. }
  rewrite decide_True by (by rewrite length_fmap, keys_values_length).
  rewrite Hfield. simpl coerce. simpl budget. rewrite update_rows_all.
  erewrite (list_fmap_ext _ (λ r, if holds fields r then _ else r)); last first.
  { intros i r _. simpl. rewrite row_matches_text; [done|].
    eapply Forall_impl; [exact Hfields|]. intros [k v] [Hk (s & -> & _)]. eauto. }
  set (rows' := _ <$> rows) in *.
  destruct (decide (rows' = rows)) as [->|Hne]; [done|].
  rewrite andb_false_r.
  rewrite (bool_decide_eq_true_2 (NoDup _)) by done.
  by rewrite andb_false_r.
Qed.

(** ** Renaming rows *)

Section rename.
Context (P Q extra : row → bool) (set : row → row) (rows : list row).

Let upd (r : row) : row := if P r then set r else r.

Hypothesis set_Q : ∀ r, r ∈ rows → P r = true → Q (set r) = true.
Hypothesis fresh : ∀ r, r ∈ rows → Q r = false.
Hypothesis set_P : ∀ r, r ∈ rows → P r = true → P (set r) = false.
Hypothesis set_extra : ∀ r, r ∈ rows → extra (set r) = extra r.

Lemma rename_filter_new :
  List.filter (λ r, Q r && extra r) (upd <$> rows)
  = set <$> List.filter (λ r, P r && extra r) rows.
Proof using set_Q fresh set_extra.
  clear set_P. induction rows as [|r l IH]; [done|].
  rewrite fmap_cons. simpl.
  assert (Hr : r ∈ r :: l) by left.
  rewrite IH by (intros; (apply set_Q || apply fresh || apply set_extra);
                 try done; by right).
  unfold upd. destruct (P r) eqn:HP; simpl.
  - rewrite set_Q, set_extra by done. simpl. by destruct (extra r).
  - by rewrite fresh.
Qed.

Lemma rename_filter_old :
  List.filter (λ r, P r && extra r) (upd <$> rows) = [].
Proof using set_P.
  clear set_Q fresh set_extra. induction rows as [|r l IH]; [done|].
  rewrite fmap_cons. simpl.
  assert (Hr : r ∈ r :: l) by left.
  rewrite IH by (intros; apply set_P; try done; by right).
  unfold upd. destruct (P r) eqn:HP; simpl.
  - by rewrite set_P.
  - by rewrite HP.
Qed.
End rename.

Lemma typed_project_row r :
  typed_row projects_cols r = true →
  ∃ g n h f t d, r = [("group_name", VStr g); ("name", VStr n); ("hash", VStr h);
                      ("file", VStr f); ("type", VStr t); ("date", VStr d)].
Proof.
  unfold typed_row. rewrite andb_true_iff, bool_decide_eq_true.
  intros [Hk Hc].
  destruct r as [|[k1 v1] [|[k2 v2] [|[k3 v3] [|[k4 v4] [|[k5 v5] [|[k6 v6] [|? ?]]]]]]];
    try discriminate.
  injection Hk as -> -> -> -> -> ->.
  vm_compute in Hc.
  destruct v1, v2, v3, v4, v5, v6; try discriminate. by do 6 eexists.
Qed.

Lemma typed_database_row r :
  typed_row databases_cols r = true →
  ∃ g p n d, r = [("group_name", VStr g); ("project", VStr p); ("name", VStr n);
                  ("date", VStr d)].
Proof.
  unfold typed_row. rewrite andb_true_iff, bool_decide_eq_true.
  intros [Hk Hc].
  destruct r as [|[k1 v1] [|[k2 v2] [|[k3 v3] [|[k4 v4] [|? ?]]]]];
    try discriminate.
  injection Hk as -> -> -> ->.
  vm_compute in Hc.
  destruct v1, v2, v3, v4; try discriminate. by do 4 eexists.
Qed.

Lemma holds_2 c1 v1 c2 v2 r :
  holds [(c1, v1); (c2, v2)] r = true ↔ cell r c1 = v1 ∧ cell r c2 = v2.
Proof.
  unfold holds. simpl. rewrite andb_true_r, andb_true_iff, !bool_decide_eq_true. done.
Qed.

Lemma holds_2_false c1 v1 c2 v2 r :
  holds [(c1, v1); (c2, v2)] r = false ↔ ¬ (cell r c1 = v1 ∧ cell r c2 = v2).
Proof. rewrite <- holds_2. by destruct (holds _ r). Qed.

(** Renaming keeps the keys apart when the new name is not in use. *)
Lemma NoDup_rename (pk : row → list value) (P : row → bool) (set : row → row)
    (rows : list row) :
  NoDup (pk <$> rows) →
  (∀ r1 r2, r1 ∈ rows → r2 ∈ rows →
     pk (if P r1 then set r1 else r1) = pk (if P r2 then set r2 else r2) →
     pk r1 = pk r2) →
  NoDup (pk <$> ((λ r, if P r then set r else r) <$> rows)).
Proof.
  intros Hnd Hinj. rewrite <- list_fmap_compose.
  eapply (NoDup_fmap_transfer pk); [|done].
  intros r1 r2 H1 H2 Heq. by apply Hinj.
Qed.

Section rename_tables.
Context (group old_name new_name : string).
Hypothesis group_ne : group ≠ "".
Hypothesis old_ne : old_name ≠ "".
Hypothesis old_new : old_name ≠ new_name.

Lemma rename_projects st rows :
  st !! "projects" = Some (Table projects_cols rows) →
  forallb (typed_row projects_cols) rows = true →
  NoDup (pk_of projects_cols <$> rows) →
  List.filter (holds [("group_name", VStr group); ("name", VStr new_name)]) rows = [] →
  ∃ rows',
    update_project_name (VStr group) (VStr old_name) (VStr new_name) None st
    = (Ok (), <["projects" := Table projects_cols rows']> st)
    ∧ forallb (typed_row projects_cols) rows' = true
    ∧ NoDup (pk_of projects_cols <$> rows')
    ∧ Project_new <$>
        List.filter (holds [("group_name", VStr group); ("name", VStr new_name)]) rows'
      = with_name (VStr new_name) <$> (Project_new <$>
          List.filter (holds [("group_name", VStr group); ("name", VStr old_name)]) rows)
    ∧ List.filter (holds [("group_name", VStr group); ("name", VStr old_name)]) rows'
      = [].
Proof using group_ne old_ne old_new.
  intros Hst Ht Hnd Hfresh.
  apply typed_rows_Forall in Ht. rewrite Forall_forall in Ht.
  set (P := holds [("group_name", VStr group); ("name", VStr old_name)]).
  set (Q := holds [("group_name", VStr group); ("name", VStr new_name)]) in *.
  set (set := set_cell "name" (VStr new_name)).
  assert (HQ : ∀ r, r ∈ rows → Q r = false)
    by (intros r Hr; by eapply filter_nil_not_elem).
  exists ((λ r, if P r then set r else r) <$> rows).
  assert (Hnd' : NoDup (pk_of projects_cols <$>
                        ((λ r, if P r then set r else r) <$> rows))).
  { apply NoDup_rename; [done|]. intros r1 r2 H1 H2.
    pose proof (HQ r1 H1) as HQ1. pose proof (HQ r2 H2) as HQ2.
    destruct (typed_project_row r1 (Ht r1 H1)) as (g1 & n1 & h1 & f1 & t1 & d1 & ->).
    destruct (typed_project_row r2 (Ht r2 H2)) as (g2 & n2 & h2 & f2 & t2 & d2 & ->).
    apply holds_2_false in HQ1, HQ2.
    destruct (P _) eqn:HP1; destruct (P _) eqn:HP2 in |- *;
      try apply holds_2 in HP1 as [[= ->] [= ->]];
      try apply holds_2 in HP2 as [[= ->] [= ->]];
      intros Heq; simplify_eq/=; try done.
    - destruct HQ2. by split.
    - destruct HQ1. by split. }
  split; [|split; [|split; [done|split]]].
  - unfold update_project_name, mbind, M_bind.
    erewrite _update_text; [done|exact Hst|done| |done].
    repeat (apply List.Forall_cons; [split; [done|eauto]|]). apply List.Forall_nil.
  - apply typed_rows_Forall, Forall_fmap, Forall_forall. intros r Hr. simpl.
    destruct (typed_project_row r (Ht r Hr)) as (g1 & n1 & h1 & f1 & t1 & d1 & ->).
    by destruct (P _).
  - rewrite <- !list_fmap_compose.
    rewrite (List.filter_ext Q (λ r, Q r && true)) by (intros; by rewrite andb_true_r).
    rewrite (List.filter_ext P (λ r, P r && true)) by (intros; by rewrite andb_true_r).
    rewrite (rename_filter_new P Q (λ _, true) set); [|try done..].
    + rewrite <- list_fmap_compose. apply list_fmap_ext.
      intros i r Hr%list_elem_of_lookup_2.
      apply list_elem_of_In, filter_In in Hr as [Hr%list_elem_of_In _].
      destruct (typed_project_row r (Ht r Hr)) as (g1 & n1 & h1 & f1 & t1 & d1 & ->).
      reflexivity.
    + intros r Hr HP.
      destruct (typed_project_row r (Ht r Hr)) as (g1 & n1 & h1 & f1 & t1 & d1 & ->).
      apply holds_2 in HP as [[= ->] [= ->]]. by apply holds_2.
  - rewrite (List.filter_ext P (λ r, P r && true)) by (intros; by rewrite andb_true_r).
    apply (rename_filter_old P (λ _, true) set).
    intros r Hr HP.
    destruct (typed_project_row r (Ht r Hr)) as (g1 & n1 & h1 & f1 & t1 & d1 & ->).
    apply holds_2 in HP as [[= ->] [= ->]]. apply holds_2_false.
    intros [_ [= ?]]. done.
Qed.

Lemma rename_databases default_tick st rows :
  st !! "databases" = Some (Table databases_cols rows) →
  forallb (typed_row databases_cols) rows = true →
  NoDup (pk_of databases_cols <$> rows) →
  List.filter (holds [("group_name", VStr group); ("project", VStr new_name)]) rows
  = [] →
  ∃ rows',
    update_database_project (VStr group) (VStr old_name) (VStr new_name) None st
    = (Ok (), <["databases" := Table databases_cols rows']> st)
    ∧ forallb (typed_row databases_cols) rows' = true
    ∧ NoDup (pk_of databases_cols <$> rows')
    ∧ Database_new default_tick <$>
        List.filter (holds [("group_name", VStr group); ("project", VStr new_name)])
          rows'
      = with_project (VStr new_name) <$> (Database_new default_tick <$>
          List.filter (holds [("group_name", VStr group); ("project", VStr old_name)])
            rows)
    ∧ List.filter (holds [("group_name", VStr group); ("project", VStr old_name)]) rows'
      = [].
Proof using group_ne old_ne old_new.
  intros Hst Ht Hnd Hfresh.
  apply typed_rows_Forall in Ht. rewrite Forall_forall in Ht.
  set (P := holds [("group_name", VStr group); ("project", VStr old_name)]).
  set (Q := holds [("group_name", VStr group); ("project", VStr new_name)]) in *.
  set (set := set_cell "project" (VStr new_name)).
  assert (HQ : ∀ r, r ∈ rows → Q r = false)
    by (intros r Hr; by eapply filter_nil_not_elem).
  exists ((λ r, if P r then set r else r) <$> rows).
  assert (Hnd' : NoDup (pk_of databases_cols <$>
                        ((λ r, if P r then set r else r) <$> rows))).
  { apply NoDup_rename; [done|]. intros r1 r2 H1 H2.
    pose proof (HQ r1 H1) as HQ1. pose proof (HQ r2 H2) as HQ2.
    destruct (typed_database_row r1 (Ht r1 H1)) as (g1 & p1 & n1 & d1 & ->).
    destruct (typed_database_row r2 (Ht r2 H2)) as (g2 & p2 & n2 & d2 & ->).
    apply holds_2_false in HQ1, HQ2.
    destruct (P _) eqn:HP1; destruct (P _) eqn:HP2 in |- *;
      try apply holds_2 in HP1 as [[= ->] [= ->]];
      try apply holds_2 in HP2 as [[= ->] [= ->]];
      intros Heq; simplify_eq/=; try done.
    - destruct HQ2. by split.
    - destruct HQ1. by split. }
  split; [|split; [|split; [done|split]]].
  - unfold update_database_project, mbind, M_bind.
    erewrite _update_text; [done|exact Hst|done| |done].
    repeat (apply List.Forall_cons; [split; [done|eauto]|]). apply List.Forall_nil.
  - apply typed_rows_Forall, Forall_fmap, Forall_forall. intros r Hr. simpl.
    destruct (typed_database_row r (Ht r Hr)) as (g1 & p1 & n1 & d1 & ->).
    by destruct (P _).
  - rewrite <- !list_fmap_compose.
    rewrite (List.filter_ext Q (λ r, Q r && true)) by (intros; by rewrite andb_true_r).
    rewrite (List.filter_ext P (λ r, P r && true)) by (intros; by rewrite andb_true_r).
    rewrite (rename_filter_new P Q (λ _, true) set); [|try done..].
    + rewrite <- list_fmap_compose. apply list_fmap_ext.
      intros i r Hr%list_elem_of_lookup_2.
      apply list_elem_of_In, filter_In in Hr as [Hr%list_elem_of_In _].
      destruct (typed_database_row r (Ht r Hr)) as (g1 & p1 & n1 & d1 & ->).
      reflexivity.
    + intros r Hr HP.
      destruct (typed_database_row r (Ht r Hr)) as (g1 & p1 & n1 & d1 & ->).
      apply holds_2 in HP as [[= ->] [= ->]]. by apply holds_2.
  - rewrite (List.filter_ext P (λ r, P r && true)) by (intros; by rewrite andb_true_r).
    apply (rename_filter_old P (λ _, true) set).
    intros r Hr HP.
    destruct (typed_database_row r (Ht r Hr)) as (g1 & p1 & n1 & d1 & ->).
    apply holds_2 in HP as [[= ->] [= ->]]. apply holds_2_false.
    intros [_ [= ?]]. done.
Qed.

Lemma in_scope_holds project database r :
  in_scope group project database r
  = holds [("group_name", VStr group); ("project", VStr project)] r
    && bool_decide (cell r "database" = VStr database).
Proof. unfold in_scope, holds. simpl. by rewrite andb_true_r. Qed.

Lemma rename_events st rows :
  st !! "events" = Some (Table events_cols rows) →
  forallb (typed_row events_cols) rows = true →
  NoDup (pk_of events_cols <$> rows) →
  List.filter (holds [("group_name", VStr group); ("project", VStr new_name)]) rows
  = [] →
  ∃ rows',
    update_events_project (VStr group) (VStr old_name) (VStr new_name) None st
    = (Ok (), <["events" := Table events_cols rows']> st)
    ∧ forallb (typed_row events_cols) rows' = true
    ∧ NoDup (pk_of events_cols <$> rows')
    ∧ (∀ database,
         event_of_row <$> List.filter (in_scope group new_name database) rows'
         = event_of_row <$> List.filter (in_scope group old_name database) rows)
    ∧ (∀ database, List.filter (in_scope group old_name database) rows' = []).
Proof using group_ne old_ne old_new.
  intros Hst Ht Hnd Hfresh.
  apply typed_rows_Forall in Ht. rewrite Forall_forall in Ht.
  set (P := holds [("group_name", VStr group); ("project", VStr old_name)]).
  set (Q := holds [("group_name", VStr group); ("project", VStr new_name)]) in *.
  set (set := set_cell "project" (VStr new_name)).
  assert (HQ : ∀ r, r ∈ rows → Q r = false)
    by (intros r Hr; by eapply filter_nil_not_elem).
  exists ((λ r, if P r then set r else r) <$> rows).
  assert (Hnd' : NoDup (pk_of events_cols <$>
                        ((λ r, if P r then set r else r) <$> rows))).
  { apply NoDup_rename; [done|]. intros r1 r2 H1 H2.
    pose proof (HQ r1 H1) as HQ1. pose proof (HQ r2 H2) as HQ2.
    destruct (typed_event_row r1 (Ht r1 H1)) as (g1 & p1 & d1 & n1 & s1 & ->).
    destruct (typed_event_row r2 (Ht r2 H2)) as (g2 & p2 & d2 & n2 & s2 & ->).
    apply holds_2_false in HQ1, HQ2.
    destruct (P _) eqn:HP1; destruct (P _) eqn:HP2 in |- *;
      try apply holds_2 in HP1 as [[= ->] [= ->]];
      try apply holds_2 in HP2 as [[= ->] [= ->]];
      intros Heq; simplify_eq/=; try done.
    - destruct HQ2. by split.
    - destruct HQ1. by split. }
  split; [|split; [|split; [done|split]]].
  - unfold update_events_project, mbind, M_bind.
    erewrite _update_text; [done|exact Hst|done| |done].
    repeat (apply List.Forall_cons; [split; [done|eauto]|]). apply List.Forall_nil.
  - apply typed_rows_Forall, Forall_fmap, Forall_forall. intros r Hr. simpl.
    destruct (typed_event_row r (Ht r Hr)) as (g1 & p1 & d1 & n1 & s1 & ->).
    by destruct (P _).
  - intros database.
    rewrite (List.filter_ext _ _ (in_scope_holds new_name database)).
    rewrite (List.filter_ext _ _ (in_scope_holds old_name database)).
    rewrite (rename_filter_new P Q _ set); [|try done..].
    + rewrite <- list_fmap_compose. apply list_fmap_ext.
      intros i r Hr%list_elem_of_lookup_2.
      apply list_elem_of_In, filter_In in Hr as [Hr%list_elem_of_In _].
      destruct (typed_event_row r (Ht r Hr)) as (g1 & p1 & d1 & n1 & s1 & ->).
      reflexivity.
    + intros r Hr HP.
      destruct (typed_event_row r (Ht r Hr)) as (g1 & p1 & d1 & n1 & s1 & ->).
      apply holds_2 in HP as [[= ->] [= ->]]. by apply holds_2.
    + intros r Hr.
      destruct (typed_event_row r (Ht r Hr)) as (g1 & p1 & d1 & n1 & s1 & ->).
      reflexivity.
  - intros database.
    rewrite (List.filter_ext _ _ (in_scope_holds old_name database)).
    apply (rename_filter_old P _ set).
    intros r Hr HP.
    destruct (typed_event_row r (Ht r Hr)) as (g1 & p1 & d1 & n1 & s1 & ->).
    apply holds_2 in HP as [[= ->] [= ->]]. apply holds_2_false.
    intros [_ [= ?]]. done.
Qed.
End rename_tables.

(** ** The rename cascade *)

Global Instance tick_lt_antisymm : AntiSymm (=) tick_lt.
Proof.
  intros e1 e2 (m & n & Hm & Hn & Hlt) (n' & m' & Hn' & Hm' & Hlt').
  rewrite Hm in Hm'. rewrite Hn in Hn'. simplify_eq. lia.
Qed.

Lemma select_events_unique group project database k st events :
  wf st →
  events ≡ₚ List.filter (after k) (stored_events group project database st) →
  StronglySorted tick_lt events →
  select_events (VStr group) (VStr project) (VStr database) (VInt k) st
  = (Ok events, st).
Proof.
  intros Hwf Hperm Hsorted.
  destruct (select_events_sorted group project database k st Hwf)
    as (events' & -> & Hperm' & Hsorted' & _).
  do 2 f_equal. apply (StronglySorted_unique tick_lt); [done..|].
  by rewrite Hperm, Hperm'.
Qed.

Lemma rename_cascade_spec default_tick group old_name new_name st :
  wf st →
  group ≠ "" → old_name ≠ "" → new_name ≠ "" → old_name ≠ new_name →
  select_projects (VStr group) (VStr new_name) None st = (Ok [], st) →
  select_databases default_tick (VStr group) (VStr new_name) VNone None st = (Ok [], st) →
  _select "events" [("group_name", VStr group); ("project", VStr new_name)] None st
  = (Ok [], st) →
  ∃ st',
    rename_cascade (VStr group) (VStr old_name) (VStr new_name) st = (Ok (), st')
    ∧ wf st'
    ∧ (∀ ps, select_projects (VStr group) (VStr old_name) None st = (Ok ps, st) →
         select_projects (VStr group) (VStr new_name) None st'
         = (Ok (with_name (VStr new_name) <$> ps), st'))
    ∧ select_projects (VStr group) (VStr old_name) None st' = (Ok [], st')
    ∧ (∀ ds, select_databases default_tick (VStr group) (VStr old_name) VNone None st
             = (Ok ds, st) →
         select_databases default_tick (VStr group) (VStr new_name) VNone None st'
         = (Ok (with_project (VStr new_name) <$> ds), st'))
    ∧ select_databases default_tick (VStr group) (VStr old_name) VNone None st'
      = (Ok [], st')
    ∧ (∀ database k es,
         select_events (VStr group) (VStr old_name) (VStr database) (VInt k) st
         = (Ok es, st) →
         select_events (VStr group) (VStr new_name) (VStr database) (VInt k) st'
         = (Ok es, st'))
    ∧ (∀ database k,
         select_events (VStr group) (VStr old_name) (VStr database) (VInt k) st'
         = (Ok [], st')).
Proof.
  intros Hwf Hg Ho Hn Hon HfP HfD HfE.
  destruct (wf_table st "projects" projects_cols Hwf) as (rowsP & HstP & HtP & HndP);
    [in_schema|].
  destruct (wf_table st "databases" databases_cols Hwf) as (rowsD & HstD & HtD & HndD);
    [in_schema|].
  destruct (wf_table st "events" events_cols Hwf) as (rowsE & HstE & HtE & HndE);
    [in_schema|].
  rewrite (select_projects_text _ _ _ _ rowsP) in HfP by done.
  injection HfP as HfP%fmap_nil_inv.
  rewrite (select_databases_of_project _ _ _ _ _ rowsD) in HfD by done.
  injection HfD as HfD%fmap_nil_inv.
  erewrite _select_text in HfE; [|exact HstE|text_fields..].
  rewrite !drop_falsy_cons_true in HfE by by apply truthy_text.
  injection HfE as HfE.
  change (apply_limit (limit_clause None) ?l) with l in HfP, HfD, HfE.
  destruct (rename_projects group old_name new_name Hg Ho Hon st rowsP HstP HtP HndP HfP)
    as (rowsP' & Hup1 & HtP' & HndP' & HnewP & HoldP).
  set (st1 := <["projects" := Table projects_cols rowsP']> st) in *.
  assert (HstD1 : st1 !! "databases" = Some (Table databases_cols rowsD))
    by (unfold st1; by rewrite lookup_insert_ne).
  destruct (rename_databases group old_name new_name Hg Ho Hon default_tick
              st1 rowsD HstD1 HtD HndD HfD)
    as (rowsD' & Hup2 & HtD' & HndD' & HnewD & HoldD).
  set (st2 := <["databases" := Table databases_cols rowsD']> st1) in *.
  assert (HstE2 : st2 !! "events" = Some (Table events_cols rowsE))
    by (unfold st2, st1; by rewrite !lookup_insert_ne).
  destruct (rename_events group old_name new_name Hg Ho Hon st2 rowsE HstE2 HtE HndE HfE)
    as (rowsE' & Hup3 & HtE' & HndE' & HnewE & HoldE).
  set (st3 := <["events" := Table events_cols rowsE']> st2) in *.
  assert (HstP3 : st3 !! "projects" = Some (Table projects_cols rowsP'))
    by (unfold st3, st2, st1;
        do 2 (rewrite lookup_insert_ne by done); by rewrite lookup_insert_eq).
  assert (HstD3 : st3 !! "databases" = Some (Table databases_cols rowsD'))
    by (unfold st3, st2; by rewrite lookup_insert_ne, lookup_insert_eq).
  assert (HstE3 : st3 !! "events" = Some (Table events_cols rowsE'))
    by (unfold st3; by rewrite lookup_insert_eq).
  assert (Hwf3 : wf st3).
  { unfold st3, st2, st1. repeat (apply wf_set_rows; [|in_schema|done|done]). done. }
  exists st3. split.
  { unfold rename_cascade, mbind, M_bind. by rewrite Hup1, Hup2, Hup3. }
  split; [done|]. repeat split.
  - intros ps. rewrite (select_projects_text _ _ _ _ rowsP) by done.
    intros [= <-]. rewrite (select_projects_text _ _ _ _ rowsP') by done.
    change (apply_limit (limit_clause None) ?l) with l. by rewrite HnewP.
  - rewrite (select_projects_text _ _ _ _ rowsP') by done.
    change (apply_limit (limit_clause None) ?l) with l. by rewrite HoldP.
  - intros ds. rewrite (select_databases_of_project _ _ _ _ _ rowsD) by done.
    intros [= <-]. rewrite (select_databases_of_project _ _ _ _ _ rowsD') by done.
    change (apply_limit (limit_clause None) ?l) with l. by rewrite HnewD.
  - rewrite (select_databases_of_project _ _ _ _ _ rowsD') by done.
    change (apply_limit (limit_clause None) ?l) with l. by rewrite HoldD.
  - intros database k es Hes.
    destruct (select_events_sorted group old_name database k st Hwf)
      as (es' & Hes' & Hperm & Hsorted & _).
    rewrite Hes in Hes'. injection Hes' as <-.
    apply select_events_unique; [done| |done].
    rewrite Hperm. unfold stored_events.
    rewrite (rows_of_lookup _ _ _ HstE3), (rows_of_lookup _ _ _ HstE). simpl tbl_rows.
    by rewrite HnewE.
  - intros database k. apply select_events_unique; [done| |constructor].
    unfold stored_events. rewrite (rows_of_lookup _ _ _ HstE3). simpl tbl_rows.
    by rewrite HoldE.
Qed.

(** C7: on a well-formed database in which project "p1" of group "g" is one
    row, has the one database "d1" and "d1" has two events, and in which no
    project, database or event of group "g" carries the name "p2" yet, the
    three updates of the rename go through, and afterwards the project, the
    database "d1" and both events are found under "p2" and nothing is found
    under "p1". *)
Theorem rename_project_cascade default_tick st (p : Project) (d : Database) (e1 e2 : Event) :
  wf st →
  select_projects (VStr "g") (VStr "p1") None st = (Ok [p], st) →
  select_databases default_tick (VStr "g") (VStr "p1") VNone None st = (Ok [d], st) →
  d_name d = VStr "d1" →
  select_events (VStr "g") (VStr "p1") (VStr "d1") (VInt 0) st = (Ok [e1; e2], st) →
  select_projects (VStr "g") (VStr "p2") None st = (Ok [], st) →
  select_databases default_tick (VStr "g") (VStr "p2") VNone None st = (Ok [], st) →
  _select "events" [("group_name", VStr "g"); ("project", VStr "p2")] None st
  = (Ok [], st) →
  ∃ st',
    (_ ← update_project_name (VStr "g") (VStr "p1") (VStr "p2") None;
     _ ← update_database_project (VStr "g") (VStr "p1") (VStr "p2") None;
     update_events_project (VStr "g") (VStr "p1") (VStr "p2") None) st = (Ok (), st')
    ∧ select_projects (VStr "g") (VStr "p2") None st'
      = (Ok [with_name (VStr "p2") p], st')
    ∧ select_databases default_tick (VStr "g") (VStr "p2") VNone None st'
      = (Ok [with_project (VStr "p2") d], st')
    ∧ d_name (with_project (VStr "p2") d) = VStr "d1"
    ∧ select_events (VStr "g") (VStr "p2") (VStr "d1") (VInt 0) st' = (Ok [e1; e2], st')
    ∧ select_projects (VStr "g") (VStr "p1") None st' = (Ok [], st')
    ∧ select_databases default_tick (VStr "g") (VStr "p1") VNone None st' = (Ok [], st')
    ∧ select_events (VStr "g") (VStr "p1") (VStr "d1") (VInt 0) st' = (Ok [], st').
Proof.
  intros Hwf Hp Hd Hname He HfP HfD HfE.
  destruct (rename_cascade_spec default_tick "g" "p1" "p2" st)
    as (st' & Hrun & _ & HP & HP0 & HD & HD0 & HE & HE0); try done.
  exists st'. split; [exact Hrun|].
  split; [by apply (HP [p])|]. split; [by apply (HD [d])|]. split; [done|].
  split; [by apply HE|]. split; [done|]. split; [done|]. apply HE0.
Qed.

Lemma rename_project_cascade_witness :
  ∃ st',
    (_ ← update_project_name (VStr "g") (VStr "p1") (VStr "p2") None;
     _ ← update_database_project (VStr "g") (VStr "p1") (VStr "p2") None;
     update_events_project (VStr "g") (VStr "p1") (VStr "p2") None) rename_db
    = (Ok (), st')
    ∧ select_projects (VStr "g") (VStr "p2") None st'
      = (Ok [with_name (VStr "p2") sample_project], st')
    ∧ select_events (VStr "g") (VStr "p2") (VStr "d1") (VInt 0) st'
      = (Ok [{| e_tick := VInt 1; e_dict := "{1}" |};
             {| e_tick := VInt 2; e_dict := "{2}" |}], st')
    ∧ select_events (VStr "g") (VStr "p1") (VStr "d1") (VInt 0) st' = (Ok [], st').
Proof.
  destruct (rename_project_cascade (VInt 0) rename_db sample_project
              (with_tick (VInt 0) sample_database)
              {| e_tick := VInt 1; e_dict := "{1}" |}
              {| e_tick := VInt 2; e_dict := "{2}" |})
    as (st' & H1 & H2 & _ & _ & H3 & _ & _ & H4); try reflexivity.
  by exists st'.
Defined.

(** C7, as stated, fails: on a database where group "g" owns "p1" with its
    database "d1" and two events, and owns a project "p2" as well, the first update of the cascade
    raises IntegrityError; nothing is renamed, the queries under "p1" still
    find the project, the database and the events, and no database or event
    is found under "p2". *)
Lemma rename_onto_existing_project :
  wf clash_db
  ∧ select_projects (VStr "g") (VStr "p1") None clash_db = (Ok [sample_project], clash_db)
  ∧ select_databases (VInt 0) (VStr "g") (VStr "p1") VNone None clash_db
    = (Ok [with_tick (VInt 0) sample_database], clash_db)
  ∧ select_events (VStr "g") (VStr "p1") (VStr "d1") (VInt 0) clash_db
    = (Ok [{| e_tick := VInt 1; e_dict := "{1}" |};
           {| e_tick := VInt 2; e_dict := "{2}" |}], clash_db)
  ∧ (_ ← update_project_name (VStr "g") (VStr "p1") (VStr "p2") None;
     _ ← update_database_project (VStr "g") (VStr "p1") (VStr "p2") None;
     update_events_project (VStr "g") (VStr "p1") (VStr "p2") None) clash_db
    = (Raise IntegrityError, clash_db)
  ∧ select_databases (VInt 0) (VStr "g") (VStr "p2") VNone None clash_db = (Ok [], clash_db)
  ∧ select_events (VStr "g") (VStr "p2") (VStr "d1") (VInt 0) clash_db = (Ok [], clash_db).
Proof. repeat split; vm_compute; reflexivity. Qed.

Lemma pk_free defs r rows (P : row → bool) :
  pk_taken defs r rows = false → primary_key defs ≠ [] →
  (∀ r', P r' = true → pk_of defs r' = pk_of defs r) →
  List.filter P rows = [].
Proof.
  intros Hpk Hne HP. destruct (List.filter P rows) as [|r' l] eqn:Hf; [done|].
  assert (Hin : In r' (List.filter P rows)) by (rewrite Hf; by left).
  apply filter_In in Hin as [Hin%list_elem_of_In HPr'].
  assert (pk_taken defs r rows = true) as Htaken
    by (apply pk_taken_spec; split; [done|]; exists r'; split; [done|by apply HP]).
  by rewrite Hpk in Htaken.
Qed.

Lemma _insert_Ok table defs rows (fields : pydict) st st' :
  st !! table = Some (Table defs rows) →
  _insert table fields st = (Ok (), st') →
  pk_taken defs (new_row defs fields) rows = false.
Proof.
  intros Hst. rewrite _insert_unfold, Hst.
  destruct (exec_insert _ _ _) as [t'|e] eqn:Hins; [|discriminate].
  intros _. apply exec_insert_Ok in Hins as (_ & _ & _ & _ & Hpk & _).
  simpl in Hpk. by rewrite keys_values_zip in Hpk.
Qed.

Lemma holds_3 c1 v1 c2 v2 c3 v3 r :
  holds [(c1, v1); (c2, v2); (c3, v3)] r = true
  ↔ cell r c1 = v1 ∧ cell r c2 = v2 ∧ cell r c3 = v3.
Proof.
  unfold holds. simpl.
  rewrite andb_true_r, !andb_true_iff, !bool_decide_eq_true. done.
Qed.

Lemma holds_1 c1 v1 r : holds [(c1, v1)] r = true ↔ cell r c1 = v1.
Proof. unfold holds. simpl. by rewrite andb_true_r, bool_decide_eq_true. Qed.

Lemma insert_group_new (g : Group) st st' :
  wf st → valid_group g = true →
  insert_group (Group_dict g) st = (Ok (), st') →
  select_group (g_name g) st = (Ok None, st).
Proof.
  intros Hwf Hv. destruct g as [vn vd]. unfold valid_group in Hv.
  cbn [g_name g_date] in *.
  apply andb_true_iff in Hv as [(n & -> & Hn)%nonempty_text_inv
                                 (d & -> & Hd)%nonempty_text_inv].
  destruct (wf_table st "groups" groups_cols Hwf) as (rows & Hst & _); [in_schema|].
  unfold insert_group, Default_attrs, Group_dict. cbn [g_name g_date].
  rewrite !drop_falsy_cons_true by by apply truthy_text.
  intros Hpk%(_insert_Ok _ groups_cols rows); [|done].
  rewrite (select_group_spec _ _ rows) by done.
  erewrite pk_free; [done|exact Hpk|done|].
  intros r' Hr'%holds_1. unfold pk_of. simpl. by rewrite Hr'.
Qed.

Lemma insert_project_new (p : Project) st st' :
  wf st → valid_project p = true →
  insert_project (Project_dict p) st = (Ok (), st') →
  select_projects (p_group_name p) (p_name p) None st = (Ok [], st).
Proof.
  intros Hwf Hv. destruct p as [vg vn vh vf vt vd].
  unfold valid_project in Hv.
  cbn [p_group_name p_name p_hash p_file p_type p_date] in *.
  rewrite !andb_true_iff in Hv.
  destruct Hv as [[[[[(g & -> & Hg)%nonempty_text_inv (n & -> & Hn)%nonempty_text_inv]
    (h & -> & Hh)%nonempty_text_inv] (f & -> & Hf)%nonempty_text_inv]
    (t & -> & Ht')%nonempty_text_inv] (d & -> & Hd)%nonempty_text_inv].
  destruct (wf_table st "projects" projects_cols Hwf) as (rows & Hst & _); [in_schema|].
  unfold insert_project, Default_attrs, Project_dict.
  cbn [p_group_name p_name p_hash p_file p_type p_date].
  rewrite !drop_falsy_cons_true by by apply truthy_text.
  intros Hpk%(_insert_Ok _ projects_cols rows); [|done].
  rewrite (select_projects_text _ _ _ _ rows) by done.
  change (apply_limit (limit_clause None) ?l) with l.
  erewrite pk_free; [done|exact Hpk|done|].
  intros r' [Hg' Hn']%holds_2. unfold pk_of. simpl. by rewrite Hg', Hn'.
Qed.

Lemma insert_database_new default_tick (d : Database) st st' :
  wf st → valid_database d = true →
  insert_database (Database_dict d) st = (Ok (), st') →
  select_database default_tick (d_group_name d) (d_project d) (d_name d) st
  = (Ok None, st).
Proof.
  intros Hwf Hv. destruct d as [vg vp vn vd vt].
  unfold valid_database in Hv. rewrite !andb_true_iff in Hv.
  destruct Hv as [[[[Hg Hp] Hn] Hd] Htick].
  rewrite insert_database_truthy by done.
  cbn [d_group_name d_project d_name d_date d_tick] in *.
  apply nonempty_text_inv in Hg as (g & -> & Hg), Hp as (p & -> & Hp),
    Hn as (n & -> & Hn), Hd as (d & -> & Hd).
  destruct (wf_table st "databases" databases_cols Hwf) as (rows & Hst & _); [in_schema|].
  rewrite !drop_falsy_cons_true by by apply truthy_text.
  intros Hpk%(_insert_Ok _ databases_cols rows); [|done].
  rewrite (select_database_spec _ _ _ _ _ rows) by done.
  erewrite pk_free; [done|exact Hpk|done|].
  intros r' (Hg' & Hp' & Hn')%holds_3. unfold pk_of. simpl. by rewrite Hg', Hp', Hn'.
Qed.

Lemma insert_event_new group project database tick dict st st' :
  wf st →
  insert_event
    {| client_group := VStr group; client_project := VStr project;
       client_database := VStr database |}
    {| e_tick := VInt tick; e_dict := dict |} st = (Ok (), st') →
  tick ∉ scope_ticks group project database st.
Proof.
  intros Hwf.
  destruct (wf_table st "events" events_cols Hwf) as (rows & Hst & Ht & _); [in_schema|].
  rewrite (insert_event_text _ _ _ _ _ _ rows) by done.
  destruct (pk_taken _ _ _) eqn:Hpk; [discriminate|]. intros _ Hin.
  unfold scope_ticks in Hin. rewrite (rows_of_lookup _ _ _ Hst) in Hin. simpl in Hin.
  apply list_elem_of_fmap in Hin as (r & -> & Hr).
  apply list_elem_of_In, filter_In in Hr as [Hr%list_elem_of_In Hscope].
  apply typed_rows_Forall in Ht. rewrite Forall_forall in Ht.
  assert (pk_taken events_cols (event_row group project database (tick_of r) dict) rows
          = true) as Htaken.
  { apply pk_taken_spec. split; [done|]. exists r. split; [done|].
    by rewrite (scope_pk group project database) by auto. }
  by rewrite Hpk in Htaken.
Qed.



(** ** Every call keeps the database well formed *)

Lemma assoc_fmap_NoDup {A B} (f : string * A → B) (l : list (string * A)) k x :
  NoDup l.*1 → (k, x) ∈ l →
  assoc k ((λ c, (c.1, f c)) <$> l) = Some (f (k, x)).
Proof.
  induction l as [|[k' x'] l IH]; [by intros _ ?%elem_of_nil|].
  rewrite fmap_cons, NoDup_cons. simpl. intros [Hk' Hnd] Hin.
  apply elem_of_cons in Hin as [[= <- <-]|Hin].
  - by rewrite decide_True.
  - rewrite decide_False; [by apply IH|].
    intros ->. apply Hk'. apply list_elem_of_fmap. by exists (k, x).
Qed.

Lemma new_row_typed defs (given : list (string * value)) :
  NoDup (column_names defs) →
  Forall (λ c, c.2.2 = true
               ∧ (c.2.1 = INTEGER → ∀ s, assoc c.1 given ≠ Some (VStr s)))
    (columns defs) →
  not_null_ok defs (new_row defs given) = true →
  typed_row defs (new_row defs given) = true.
Proof.
  intros Hnd Hcols Hnn. unfold typed_row. apply andb_true_iff. split.
  - apply bool_decide_eq_true. unfold new_row, column_names.
    rewrite <- list_fmap_compose. by apply list_fmap_ext.
  - unfold not_null_ok in Hnn. rewrite forallb_forall in Hnn.
    apply forallb_forall. intros [c [a nn]] Hin.
    specialize (Hnn _ Hin). apply list_elem_of_In in Hin.
    rewrite Forall_forall in Hcols. destruct (Hcols _ Hin) as [Hnn' Hint].
    simpl in *. subst nn. simpl in Hnn. apply bool_decide_eq_true in Hnn.
    unfold cell, new_row in *.
    rewrite (assoc_fmap_NoDup (λ c, coerce c.2.1 (default VNone (assoc c.1 given)))
               _ c (a, true)) in * by done.
    simpl in *. destruct a, (assoc c given) as [[| |s]|]; simpl in *; try done.
    by destruct (Hint eq_refl s).
Qed.

Lemma wf_insert name defs (fields : pydict) st :
  wf st →
  (name, defs) ∈ [("groups", groups_cols); ("projects", projects_cols);
                  ("databases", databases_cols); ("events", events_cols)] →
  (∀ c s, affinity_of defs c = Some INTEGER → assoc c fields ≠ Some (VStr s)) →
  wf (_insert name fields st).2.
Proof.
  intros Hwf Hin Hint.
  destruct (wf_table st name defs Hwf Hin) as (rows & Hst & Ht & Hnd).
  rewrite _insert_unfold, Hst.
  destruct (exec_insert _ _ _) as [t'|e] eqn:Hins; [|done]. simpl.
  eapply wf_exec_insert; [done..|].
  apply exec_insert_Ok in Hins as (_ & _ & _ & Hnn & _). simpl in Hnn.
  rewrite keys_values_zip in *. apply new_row_typed; [| |done].
  - apply list_elem_of_In in Hin. simpl in Hin.
    repeat destruct Hin as [[= <- <-]|Hin]; try done;
      match goal with |- ?G => apply (bool_decide_unpack G) end; vm_compute; exact I.
  - apply Forall_forall. intros [c [a nn]] Hc. simpl. split.
    + apply list_elem_of_In in Hin, Hc. simpl in Hin.
      repeat destruct Hin as [[= <- <-]|Hin]; try done; simpl in Hc;
        repeat destruct Hc as [[= <- <- <-]|Hc]; done.
    + intros -> s. apply Hint.
      apply list_elem_of_In in Hin, Hc. simpl in Hin.
      repeat destruct Hin as [[= <- <-]|Hin]; try done; simpl in Hc;
        repeat destruct Hc as [[= <- <-]|Hc]; done.
Qed.

Lemma update_rows_Forall (P : row → Prop) n test f rows :
  (∀ r, P r → P (f r)) → Forall P rows → Forall P (update_rows n test f rows).
Proof.
  intros Hf Hrows. revert n. induction Hrows as [|r rows Hr Hrows IH]; intros n; simpl.
  - constructor.
  - destruct (test r); [destruct n as [[|n']|]|]; constructor; auto.
Qed.

Lemma coerce_text_cases v : coerce TEXT v = VNone ∨ ∃ s, coerce TEXT v = VStr s.
Proof. destruct v; simpl; eauto. Qed.

Lemma wf_update name defs field new_value (fields : pydict) limit st :
  wf st →
  (name, defs, field) ∈ [("projects", projects_cols, "name");
                         ("databases", databases_cols, "project");
                         ("events", events_cols, "project")] →
  wf (_update name field new_value fields limit st).2.
Proof.
  intros Hwf Hin.
  assert (Hschema : (name, defs) ∈ [("groups", groups_cols); ("projects", projects_cols);
                                    ("databases", databases_cols); ("events", events_cols)]).
  { apply list_elem_of_In in Hin. simpl in Hin.
    repeat destruct Hin as [[= <- <- <-]|Hin]; try done; in_schema. }
  destruct (wf_table st name defs Hwf Hschema) as (rows & Hst & Ht & Hnd).
  rewrite _update_unfold, Hst.
  destruct (exec_update _ _ _ _ _) as [t'|e] eqn:Hup; [|done]. simpl.
  unfold exec_update in Hup. simpl tbl_defs in Hup. simpl tbl_rows in Hup.
  destruct (decide (known _ _)); [|done].
  destruct (decide (length _ = length _)); [|done].
  set (v := coerce (default TEXT (affinity_of defs field)) new_value) in *.
  set (rows' := update_rows _ _ _ rows) in *.
  destruct (decide (rows' = rows)) as [Heq|Hne].
  { injection Hup as <-. by apply wf_set_rows. }
  assert (Hfield : affinity_of defs field = Some TEXT ∧ not_null defs field = true
                   ∧ field ∈ primary_key defs).
  { apply list_elem_of_In in Hin. simpl in Hin.
    repeat destruct Hin as [[= <- <- <-]|Hin]; try done;
      (split; [done|split; [done|]]); apply list_elem_of_In; simpl; tauto. }
  destruct Hfield as (Haff & Hnn & Hpk).
  rewrite Hnn in Hup. simpl in Hup.
  rewrite (bool_decide_eq_true_2 (field ∈ _)) in Hup by done. simpl in Hup.
  destruct (bool_decide (v = VNone)) eqn:Hv; [done|].
  apply bool_decide_eq_false in Hv.
  destruct (bool_decide (NoDup _)) eqn:Hnd'; [|done].
  apply bool_decide_eq_true in Hnd'. injection Hup as <-.
  apply wf_set_rows; [done|done| |done].
  apply typed_rows_Forall. apply update_rows_Forall; [|by apply typed_rows_Forall].
  unfold v in *. rewrite Haff in *. simpl default in *.
  destruct (coerce_text_cases new_value) as [Hnone|[s Hs]]; [done|].
  rewrite Hs. intros r Hr.
  apply list_elem_of_In in Hin. simpl in Hin.
  repeat destruct Hin as [[= <- <- <-]|Hin]; try done.
  - by destruct (typed_project_row r Hr) as (? & ? & ? & ? & ? & ? & ->).
  - by destruct (typed_database_row r Hr) as (? & ? & ? & ? & ->).
  - by destruct (typed_event_row r Hr) as (? & ? & ? & ? & ? & ->).
Qed.

Lemma _create_exists table cols t st :
  st !! table = Some t → _create table cols st = (Ok (), st).
Proof. intros Hst. unfold _create, mbind, M_bind, execute. by rewrite Hst. Qed.

Lemma wf_initialize_again st : wf st → initialize st = (Ok (), st).
Proof.
  intros Hwf.
  destruct (wf_table st "groups" groups_cols Hwf) as (rg & Hg & _); [in_schema|].
  destruct (wf_table st "projects" projects_cols Hwf) as (rp & Hp & _); [in_schema|].
  destruct (wf_table st "databases" databases_cols Hwf) as (rd & Hd & _); [in_schema|].
  destruct (wf_table st "events" events_cols Hwf) as (re & He & _); [in_schema|].
  unfold initialize, mbind, M_bind.
  by rewrite (_create_exists _ _ _ _ Hg), (_create_exists _ _ _ _ Hp),
       (_create_exists _ _ _ _ Hd), (_create_exists _ _ _ _ He).
Qed.

Lemma wf_run c st : wf st → integer_ticks c → wf (run c st).2.
Proof.
  intros Hwf Hticks. destruct c as [|g|p|d|client event|g o n l|g o n l|g o n l]; simpl.
  - by rewrite wf_initialize_again.
  - apply (wf_insert _ groups_cols); [done|in_schema|].
    intros c s Hc. unfold affinity_of in Hc. simpl in Hc.
    repeat case_decide; simplify_eq.
  - apply (wf_insert _ projects_cols); [done|in_schema|].
    intros c s Hc. unfold affinity_of in Hc. simpl in Hc.
    repeat case_decide; simplify_eq.
  - rewrite insert_database_unfold. destruct (dict_get _ _); [|done].
    apply (wf_insert _ databases_cols); [done|in_schema|].
    intros c s Hc. unfold affinity_of in Hc. simpl in Hc.
    repeat case_decide; simplify_eq.
  - apply (wf_insert _ events_cols); [done|in_schema|].
    intros c s Hc. unfold affinity_of in Hc. simpl in Hc.
    repeat case_decide; simplify_eq. simpl. intros [= Heq]. by apply (Hticks s).
  - unfold update_project_name, mbind, M_bind.
    pose proof (wf_update "projects" projects_cols "name" n
                  [("group_name", g); ("name", o)] l st Hwf) as H.
    destruct (_update _ _ _ _ _ st) as [[?|?] st']; apply H;
      apply list_elem_of_In; simpl; tauto.
  - unfold update_database_project, mbind, M_bind.
    pose proof (wf_update "databases" databases_cols "project" n
                  [("group_name", g); ("project", o)] l st Hwf) as H.
    destruct (_update _ _ _ _ _ st) as [[?|?] st']; apply H;
      apply list_elem_of_In; simpl; tauto.
  - unfold update_events_project, mbind, M_bind.
    pose proof (wf_update "events" events_cols "project" n
                  [("group_name", g); ("project", o)] l st Hwf) as H.
    destruct (_update _ _ _ _ _ st) as [[?|?] st']; apply H;
      apply list_elem_of_In; simpl; tauto.
Qed.

(** X2: every database the server can reach, from [initialize] on an empty
    file through any calls, returning or raising, is well formed: the four
    tables as declared, typed rows, no two rows of a table with one key. *)
Lemma reachable_wf st : reachable st → wf st.
Proof.
  induction 1 as [|c st _ IH Hticks]; [apply wf_initialize | by apply wf_run].
Qed.

(** * Further properties *)

(** A closed equation, decided by evaluating both sides. *)
Ltac computed :=
  try unfold wf;
  lazymatch goal with
  | |- @eq ?A ?l ?r => exact (@eq_refl A r <: @eq A l r)
  end.

(** ** Creating the tables *)

Lemma _create_spec name defs st : _create name defs st = (Ok (), created name defs st).
Proof.
  unfold _create, created, mbind, M_bind, execute. by destruct (st !! name).
Qed.

Lemma created_keeps name defs st n t :
  st !! n = Some t → created name defs st !! n = Some t.
Proof.
  intros Hn. unfold created. destruct (st !! name) eqn:Hname; [done|].
  rewrite lookup_insert_ne; [done|]. intros ->. by rewrite Hn in Hname.
Qed.

Lemma created_exists name defs st : is_Some (created name defs st !! name).
Proof.
  unfold created. destruct (st !! name) eqn:Hname; [by rewrite Hname|].
  by rewrite lookup_insert_eq.
Qed.

Lemma created_again name defs st :
  is_Some (st !! name) → created name defs st = st.
Proof. intros [t Ht]. unfold created. by rewrite Ht. Qed.

Lemma initialize_spec st :
  initialize st
  = (Ok (), created "events" events_cols
              (created "databases" databases_cols
                 (created "projects" projects_cols
                    (created "groups" groups_cols st)))).
Proof. unfold initialize, mbind, M_bind. by rewrite !_create_spec. Qed.

(** X1: [initialize] never raises; it leaves every table the database already
    has, rows included, as it is; afterwards the four tables exist; and a
    second call changes nothing. *)
Theorem initialize_idempotent st :
  (initialize st).1 = Ok ()
  ∧ (∀ name t, st !! name = Some t → (initialize st).2 !! name = Some t)
  ∧ (∀ name, name ∈ ["groups"; "projects"; "databases"; "events"] →
       is_Some ((initialize st).2 !! name))
  ∧ initialize (initialize st).2 = (Ok (), (initialize st).2).
Proof.
  rewrite !initialize_spec. simpl.
  set (s1 := created "groups" groups_cols st).
  set (s2 := created "projects" projects_cols s1).
  set (s3 := created "databases" databases_cols s2).
  set (s4 := created "events" events_cols s3).
  assert (Hex : ∀ name, name ∈ ["groups"; "projects"; "databases"; "events"] →
                        is_Some (s4 !! name)).
  { intros name Hin. apply list_elem_of_In in Hin. simpl in Hin.
    destruct Hin as [<-|[<-|[<-|[<-|[]]]]].
    - destruct (created_exists "groups" groups_cols st) as [t Ht].
      exists t. by do 3 apply created_keeps.
    - destruct (created_exists "projects" projects_cols s1) as [t Ht].
      exists t. by do 2 apply created_keeps.
    - destruct (created_exists "databases" databases_cols s2) as [t Ht].
      exists t. by apply created_keeps.
    - apply created_exists. }
  split; [done|]. split; [|split; [done|]].
  - intros name t Ht. by do 4 apply created_keeps.
  - f_equal.
    rewrite (created_again "groups") by (apply Hex, list_elem_of_In; simpl; tauto).
    rewrite (created_again "projects") by (apply Hex, list_elem_of_In; simpl; tauto).
    rewrite (created_again "databases") by (apply Hex, list_elem_of_In; simpl; tauto).
    by rewrite (created_again "events") by (apply Hex, list_elem_of_In; simpl; tauto).
Qed.

Lemma reachable_wf_witness :
  wf (run (CallUpdateProjectName (VStr "g") (VStr "p1") (VStr "p2") (Some 1))
        (run (CallInsertProject (Project_dict sample_project))
           (run (CallInsertGroup (Group_dict sample_group)) (initialize ∅).2).2).2).2.
Proof.
  apply reachable_wf.
  repeat (apply reachable_call; [|exact I]). apply reachable_init.
Defined.

(** ** Queries *)

Lemma select_events_exec group project database tick st rows :
  st !! "events" = Some (Table events_cols rows) →
  select_events group project database tick st
  = (mapM Event_new
       (merge_sort (λ r1 r2, Is_true (value_leb (cell r1 "tick") (cell r2 "tick")))
          (List.filter
             (row_matches
                [("group_name", CmpEq, coerce TEXT group);
                 ("project", CmpEq, coerce TEXT project);
                 ("database", CmpEq, coerce TEXT database);
                 ("tick", CmpGt, tick)])
             rows)), st).
Proof.
  intros Hst. unfold select_events, mbind, M_bind, select_events_stmt, execute.
  rewrite Hst. unfold exec_select. simpl tbl_defs. simpl tbl_rows.
  rewrite decide_True by solve_known. rewrite decide_True by done.
  unfold apply_limit, budget, order_rows. rewrite project_all.
  unfold lift. done.
Qed.

Lemma last_tick_exec group project database st rows :
  st !! "events" = Some (Table events_cols rows) →
  last_tick group project database st
  = (Ok (match head (merge_sort
                       (λ r1 r2, Is_true (value_leb (cell r2 "tick") (cell r1 "tick")))
                       (List.filter
                          (row_matches
                             [("group_name", CmpEq, coerce TEXT group);
                              ("project", CmpEq, coerce TEXT project);
                              ("database", CmpEq, coerce TEXT database)])
                          rows)) with
         | Some r => cell r "tick"
         | None => VInt 0
         end), st).
Proof.
  intros Hst. unfold last_tick, mbind, M_bind, last_tick_stmt, execute.
  rewrite Hst. unfold exec_select. simpl tbl_defs. simpl tbl_rows.
  rewrite decide_True by solve_known. rewrite decide_True by done.
  unfold order_rows, mret, M_ret.
  change (apply_limit (Some 1) ?l) with (take 1 l).
  rewrite head_fmap_take_1. by destruct (head _).
Qed.

Lemma _select_on_schema name defs rows (fields : pydict) limit st :
  st !! name = Some (Table defs rows) → known defs (keys fields) →
  ∃ out, _select name fields limit st = (Ok out, st).
Proof. intros Hst Hk. by apply (_select_never_raises name (Table defs rows)). Qed.



Lemma filter_none {A} (f : A → bool) (l : list A) :
  (∀ x, f x = false) → List.filter f l = [].
Proof. intros Hf. induction l as [|x l IH]; simpl; [done|by rewrite Hf]. Qed.

Lemma sql_test_null op stored : sql_test op stored VNone = false.
Proof. by destruct stored. Qed.

(** X4: a scope with None in it holds nothing to read: on a database with the
    events table, [select_events] with None for the group, the project, the
    database or the tick returns no event, and [last_tick] with None in the
    scope returns 0; neither raises. *)
Theorem null_scope_is_empty group project database tick st rows :
  st !! "events" = Some (Table events_cols rows) →
  group = VNone ∨ project = VNone ∨ database = VNone →
  select_events group project database tick st = (Ok [], st)
  ∧ (∀ g p d, select_events (VStr g) (VStr p) (VStr d) VNone st = (Ok [], st))
  ∧ last_tick group project database st = (Ok (VInt 0), st).
Proof.
  intros Hst Hnull.
  rewrite !(select_events_exec _ _ _ _ _ rows), (last_tick_exec _ _ _ _ rows) by done.
  assert (Hfalse : ∀ t r,
            row_matches [("group_name", CmpEq, coerce TEXT group);
                         ("project", CmpEq, coerce TEXT project);
                         ("database", CmpEq, coerce TEXT database);
                         ("tick", CmpGt, t)] r = false).
  { intros t r. unfold row_matches. simpl.
    destruct Hnull as [->|[->| ->]]; simpl; rewrite sql_test_null;
      by rewrite ?andb_false_r. }
  assert (Hfalse3 : ∀ r,
            row_matches [("group_name", CmpEq, coerce TEXT group);
                         ("project", CmpEq, coerce TEXT project);
                         ("database", CmpEq, coerce TEXT database)] r = false).
  { intros r. unfold row_matches. simpl.
    destruct Hnull as [->|[->| ->]]; simpl; rewrite sql_test_null;
      by rewrite ?andb_false_r. }
  rewrite !filter_none by done. split; [done|]. split; [|done].
  intros g p d. rewrite (select_events_exec _ _ _ _ _ rows) by done.
  rewrite filter_none; [done|]. intros r. unfold row_matches. simpl.
  by rewrite sql_test_null, !andb_false_r.
Qed.

Lemma null_scope_is_empty_witness :
  select_events VNone (VStr "p1") (VStr "d1") (VInt 0) sample_db = (Ok [], sample_db)
  ∧ last_tick (VStr "g") VNone (VStr "d1") sample_db = (Ok (VInt 0), sample_db).
Proof.
  destruct (null_scope_is_empty VNone (VStr "p1") (VStr "d1") (VInt 0) sample_db
              (rows_of sample_db "events")) as (H1 & _ & _); [reflexivity|by left|].
  destruct (null_scope_is_empty (VStr "g") VNone (VStr "d1") (VInt 0) sample_db
              (rows_of sample_db "events")) as (_ & _ & H2);
    [reflexivity|right; by left|].
  by split.
Defined.

(** ** Refused inserts *)

Lemma assoc_fmap {A B} (f : string * A → B) (l : list (string * A)) k :
  assoc k ((λ c, (c.1, f c)) <$> l) = (λ x, f (k, x)) <$> assoc k l.
Proof.
  induction l as [|[k' x'] l IH]; [done|].
  rewrite fmap_cons. simpl. case_decide; [by subst|done].
Qed.

Lemma assoc_is_Some {A} k (l : list (string * A)) : k ∈ l.*1 → is_Some (assoc k l).
Proof.
  induction l as [|[k' x'] l IH]; [by intros ?%elem_of_nil|].
  rewrite fmap_cons. simpl. intros [->|Hin]%elem_of_cons.
  - by rewrite decide_True.
  - case_decide; [done|by apply IH].
Qed.

Lemma coerce_null a : coerce a VNone = VNone.
Proof. by destruct a. Qed.

Lemma not_null_missing defs (given : list (string * value)) c a :
  (c, (a, true)) ∈ columns defs →
  default VNone (assoc c given) = VNone →
  not_null_ok defs (new_row defs given) = false.
Proof.
  intros Hc Hnone. apply not_true_is_false. unfold not_null_ok.
  rewrite forallb_forall. intros Hall.
  apply list_elem_of_In in Hc. specialize (Hall _ Hc). simpl in Hall.
  apply bool_decide_eq_true in Hall. apply Hall.
  unfold cell, new_row. rewrite assoc_fmap.
  destruct (assoc_is_Some c (columns defs)) as [[a' nn'] Hsome].
  { apply list_elem_of_fmap. exists (c, (a, true)). split; [done|].
    by apply list_elem_of_In. }
  rewrite Hsome. simpl. by rewrite Hnone, coerce_null.
Qed.

Lemma _insert_not_null table t (fields : pydict) st c a :
  st !! table = Some t →
  fields ≠ [] → known (tbl_defs t) (keys fields) →
  (c, (a, true)) ∈ columns (tbl_defs t) →
  dict_get c fields = None ∨ dict_get c fields = Some VNone →
  _insert table fields st = (Raise IntegrityError, st).
Proof.
  intros Hst Hne Hknown Hc Hmiss. rewrite _insert_unfold, Hst.
  rewrite exec_insert_fields; [|by destruct fields|done]. simpl.
  rewrite (not_null_missing _ _ c a); [done|done|].
  unfold dict_get in Hmiss. by destruct Hmiss as [-> | ->].
Qed.

(** X5: the generic insert on a table that exists refuses, and leaves the
    database as it was: an empty mapping and a key that is no column of the
    table with OperationalError, and a mapping that gives a NOT NULL column no
    value, or None, with IntegrityError. *)
Theorem _insert_refuses table t (fields : pydict) st :
  st !! table = Some t →
  (fields = [] → _insert table fields st = (Raise OperationalError, st))
  ∧ (∀ k, k ∈ keys fields → k ∉ column_names (tbl_defs t) →
       _insert table fields st = (Raise OperationalError, st))
  ∧ (∀ c a, fields ≠ [] → known (tbl_defs t) (keys fields) →
       (c, (a, true)) ∈ columns (tbl_defs t) →
       dict_get c fields = None ∨ dict_get c fields = Some VNone →
       _insert table fields st = (Raise IntegrityError, st)).
Proof.
  intros Hst. split; [|split].
  - intros ->. by rewrite _insert_unfold, Hst.
  - intros k Hk Hnot. rewrite _insert_unfold, Hst. unfold exec_insert.
    case_decide; [done|]. rewrite decide_False; [done|].
    unfold known. rewrite Forall_forall. intros Hall. by apply Hnot, Hall.
  - intros c a Hne Hknown Hc Hmiss. by apply (_insert_not_null _ t _ _ c a).
Qed.

Lemma _insert_refuses_witness :
  _insert "groups" [] sample_db = (Raise OperationalError, sample_db)
  ∧ _insert "groups" [("name", VStr "h"); ("tick", VInt 1)] sample_db
    = (Raise OperationalError, sample_db)
  ∧ _insert "groups" [("name", VStr "h")] sample_db = (Raise IntegrityError, sample_db).
Proof.
  destruct (_insert_refuses "groups" (Table groups_cols (rows_of sample_db "groups"))
              [] sample_db) as (H1 & _); [reflexivity|].
  destruct (_insert_refuses "groups" (Table groups_cols (rows_of sample_db "groups"))
              [("name", VStr "h"); ("tick", VInt 1)] sample_db) as (_ & H2 & _);
    [reflexivity|].
  destruct (_insert_refuses "groups" (Table groups_cols (rows_of sample_db "groups"))
              [("name", VStr "h")] sample_db) as (_ & _ & H3); [reflexivity|].
  split; [by apply H1|]. split.
  - apply (H2 "tick").
    + apply list_elem_of_In. simpl. tauto.
    + intros Hin. apply list_elem_of_In in Hin. simpl in Hin.
      repeat destruct Hin as [Hin|Hin]; try discriminate; done.
  - apply (H3 "date" TEXT); [discriminate|solve_known| |by left].
    apply list_elem_of_In. simpl. tauto.
Defined.

(** X6: an event cannot be stored for a client that is in no scope, nor
    without a tick: on a database with the events table, [insert_event] with
    None for the client's group, project or database, or for the event's
    tick, raises IntegrityError and leaves the database as it was. *)
Theorem insert_event_needs_scope_and_tick client event st rows :
  st !! "events" = Some (Table events_cols rows) →
  client_group client = VNone ∨ client_project client = VNone
  ∨ client_database client = VNone ∨ e_tick event = VNone →
  insert_event client event st = (Raise IntegrityError, st).
Proof.
  intros Hst Hnull. unfold insert_event.
  set (fields := [("group_name", client_group client);
                  ("project", client_project client);
                  ("database", client_database client);
                  ("tick", e_tick event); ("dict", VStr (e_dict event))]).
  pose proof (λ c a, _insert_not_null "events" (Table events_cols rows) fields st c a Hst)
    as Hnn.
  destruct Hnull as [Hn|[Hn|[Hn|Hn]]].
  - apply (Hnn "group_name" TEXT); [done|solve_known|in_schema|].
    right. unfold fields, dict_get. simpl. by rewrite Hn.
  - apply (Hnn "project" TEXT); [done|solve_known|in_schema|].
    right. unfold fields, dict_get. simpl. by rewrite Hn.
  - apply (Hnn "database" TEXT); [done|solve_known|in_schema|].
    right. unfold fields, dict_get. simpl. by rewrite Hn.
  - apply (Hnn "tick" INTEGER); [done|solve_known|in_schema|].
    right. unfold fields, dict_get. simpl. by rewrite Hn.
Qed.

Lemma insert_event_needs_scope_and_tick_witness :
  insert_event
    {| client_group := VNone; client_project := VNone; client_database := VNone |}
    {| e_tick := VInt 4; e_dict := "{4}" |} sample_db
  = (Raise IntegrityError, sample_db).
Proof.
  apply (insert_event_needs_scope_and_tick _ _ sample_db (rows_of sample_db "events"));
    [reflexivity | by left].
Defined.

(** ** Optional criteria *)

Lemma filter_all {A} (f : A → bool) (l : list A) :
  (∀ x, f x = true) → List.filter f l = l.
Proof. intros Hf. induction l as [|x l IH]; simpl; [done|by rewrite Hf, IH]. Qed.



(** ** Updates that change nothing, updates that are refused *)

Lemma update_rows_none n test f (rows : list row) :
  (∀ r, r ∈ rows → test r = false) → update_rows n test f rows = rows.
Proof.
  induction rows as [|r rows IH]; intros Hno; simpl; [done|].
  rewrite (Hno r) by left. f_equal. apply IH. intros r' Hr'. apply Hno. by right.
Qed.

Lemma _update_fields table defs rows field new_value (fields : pydict) limit st :
  st !! table = Some (Table defs rows) →
  field ∈ column_names defs →
  Forall (λ kv, affinity_of defs kv.1 = Some TEXT ∧ ∃ s, kv.2 = VStr s ∧ s ≠ "") fields →
  _update table field new_value fields limit st
  = match exec_update (Table defs rows) field ((λ col, (col, CmpEq)) <$> keys fields)
            (limit_clause limit) (new_value :: values fields) with
    | Ok t' => (Ok [], <[table := t']> st)
    | Raise e => (Raise e, st)
    end
  ∧ known defs (field :: ((λ col, (col, CmpEq)) <$> keys fields).*1)
  ∧ ∀ r, row_matches (bind_conds defs ((λ col, (col, CmpEq)) <$> keys fields)
                        (values fields)) r = holds fields r.
Proof.
  intros Hst Hfield Hfields. rewrite _update_unfold, Hst.
  rewrite drop_falsy_all; last first.
  { eapply Forall_impl; [exact Hfields|]. intros [k v] [_ (s & -> & Hs)].
    by apply truthy_text. }
  split; [done|]. split.
  - apply List.Forall_cons; [done|].
    unfold keys. rewrite <- !list_fmap_compose.
    apply Forall_fmap. eapply Forall_impl; [exact Hfields|].
    intros [k v] [Hk _]. by eapply affinity_of_known.
  - intros r. apply row_matches_text.
    eapply Forall_impl; [exact Hfields|]. intros [k v] [Hk (s & -> & _)]. eauto.
Qed.

Lemma _update_no_match table defs rows field new_value (fields : pydict) limit st :
  st !! table = Some (Table defs rows) →
  field ∈ column_names defs →
  Forall (λ kv, affinity_of defs kv.1 = Some TEXT ∧ ∃ s, kv.2 = VStr s ∧ s ≠ "") fields →
  List.filter (holds fields) rows = [] →
  _update table field new_value fields limit st = (Ok [], st).
Proof.
  intros Hst Hfield Hfields Hnone.
  destruct (_update_fields table defs rows field new_value fields limit st)
    as (-> & Hknown & Hmatch); [done..|].
  unfold exec_update. simpl tbl_defs. simpl tbl_rows.
  rewrite decide_True by done.
  rewrite decide_True by (by rewrite length_fmap, keys_values_length).
  rewrite update_rows_none.
  - rewrite decide_True by done. by rewrite insert_id.
  - intros r Hr. rewrite Hmatch. by eapply filter_nil_not_elem.
Qed.



Lemma fmap_fixed {A} (f : A → A) (l : list A) x : f <$> l = l → x ∈ l → f x = x.
Proof.
  induction l as [|y l IH]; [by intros _ ?%elem_of_nil|].
  rewrite fmap_cons. intros [= Hy Hl] [->|Hin]%elem_of_cons; [done|by apply IH].
Qed.

Lemma NoDup_fmap_elem {A B} (f : A → B) (l : list A) x y :
  NoDup (f <$> l) → x ∈ l → y ∈ l → f x = f y → x = y.
Proof.
  induction l as [|z l IH]; [by intros _ ?%elem_of_nil|].
  rewrite fmap_cons, NoDup_cons. intros [Hz Hnd] Hx Hy Heq.
  apply elem_of_cons in Hx as [->|Hx]; apply elem_of_cons in Hy as [->|Hy]; auto.
  - destruct Hz. rewrite Heq. apply list_elem_of_fmap. by exists y.
  - destruct Hz. rewrite <- Heq. apply list_elem_of_fmap. by exists x.
Qed.

Lemma filter_cons_elem {A} (P : A → bool) (l : list A) x l' :
  List.filter P l = x :: l' → x ∈ l ∧ P x = true.
Proof.
  intros Hf. assert (Hin : In x (List.filter P l)) by (rewrite Hf; by left).
  apply filter_In in Hin as [Hin HP]. by rewrite list_elem_of_In.
Qed.

(** X9: a project cannot be renamed onto a name its group already uses: on a
    well-formed database that has the project under the old name and another
    of the same group under the new name, [update_project_name] raises
    IntegrityError and leaves the database as it was. *)
Theorem rename_onto_used_name_raises group old_name new_name st p q :
  wf st → group ≠ "" → old_name ≠ "" → new_name ≠ "" → old_name ≠ new_name →
  select_projects (VStr group) (VStr old_name) None st = (Ok [p], st) →
  select_projects (VStr group) (VStr new_name) None st = (Ok [q], st) →
  update_project_name (VStr group) (VStr old_name) (VStr new_name) None st
  = (Raise IntegrityError, st).
Proof.
  intros Hwf Hg Ho Hn Hon Hold Hnew.
  destruct (wf_table st "projects" projects_cols Hwf) as (rows & Hst & Ht & Hnd);
    [in_schema|].
  apply typed_rows_Forall in Ht. rewrite Forall_forall in Ht.
  rewrite (select_projects_text _ _ _ _ rows) in Hold by done.
  rewrite (select_projects_text _ _ _ _ rows) in Hnew by done.
  change (apply_limit (limit_clause None) ?l) with l in Hold, Hnew.
  injection Hold as Hold. injection Hnew as Hnew.
  destruct (List.filter _ rows) as [|r1 l1] eqn:H1 in Hold; [done|].
  destruct (List.filter _ rows) as [|r2 l2] eqn:H2 in Hnew; [done|].
  apply filter_cons_elem in H1 as [Hr1 HP1], H2 as [Hr2 HQ2].
  destruct (typed_project_row r1 (Ht r1 Hr1)) as (g1 & n1 & h1 & f1 & t1 & d1 & ->).
  destruct (typed_project_row r2 (Ht r2 Hr2)) as (g2 & n2 & h2 & f2 & t2 & d2 & ->).
  apply holds_2 in HP1 as [[= ->] [= ->]]. apply holds_2 in HQ2 as [[= ->] [= ->]].
  unfold update_project_name, mbind, M_bind.
  destruct (_update_fields "projects" projects_cols rows "name" (VStr new_name)
              [("group_name", VStr group); ("name", VStr old_name)] None st)
    as (-> & Hknown & Hmatch); [done|in_schema| |].
  { repeat (apply List.Forall_cons; [split; [done|eauto]|]). apply List.Forall_nil. }
  unfold exec_update. simpl tbl_defs. simpl tbl_rows.
  rewrite decide_True by done. rewrite decide_True by done.
  simpl budget. rewrite update_rows_all.
  set (upd := λ r : row, if row_matches _ r then _ else r).
  assert (Hupd1 : upd [("group_name", VStr group); ("name", VStr old_name);
                       ("hash", VStr h1); ("file", VStr f1); ("type", VStr t1);
                       ("date", VStr d1)]
                  = [("group_name", VStr group); ("name", VStr new_name);
                     ("hash", VStr h1); ("file", VStr f1); ("type", VStr t1);
                     ("date", VStr d1)]).
  { unfold upd. rewrite Hmatch.
    replace (holds _ _) with true; [done|].
    symmetry. by apply holds_2. }
  assert (Hupd2 : upd [("group_name", VStr group); ("name", VStr new_name);
                       ("hash", VStr h2); ("file", VStr f2); ("type", VStr t2);
                       ("date", VStr d2)]
                  = [("group_name", VStr group); ("name", VStr new_name);
                     ("hash", VStr h2); ("file", VStr f2); ("type", VStr t2);
                     ("date", VStr d2)]).
  { unfold upd. rewrite Hmatch.
    replace (holds _ _) with false; [done|].
    symmetry. apply holds_2_false. intros [_ [= ?]]. done. }
  rewrite decide_False; last first.
  { intros Hfix. pose proof (fmap_fixed upd rows _ Hfix Hr1) as Hsame.
    rewrite Hupd1 in Hsame. by injection Hsame. }
  rewrite (bool_decide_eq_false_2 (_ = VNone)) by done. rewrite andb_false_r.
  rewrite (bool_decide_eq_true_2 (_ ∈ _)) by in_schema.
  rewrite (bool_decide_eq_false_2 (NoDup _)); [done|].
  rewrite <- list_fmap_compose. intros Hnd'.
  pose proof (NoDup_fmap_elem _ rows _ _ Hnd' Hr1 Hr2) as Heq.
  simpl in Heq. rewrite Hupd1, Hupd2 in Heq.
  specialize (Heq eq_refl). by injection Heq.
Qed.

Lemma rename_onto_used_name_raises_witness :
  update_project_name (VStr "g") (VStr "p1") (VStr "p2") None clash_db
  = (Raise IntegrityError, clash_db).
Proof.
  apply (rename_onto_used_name_raises "g" "p1" "p2" clash_db
           sample_project (with_name (VStr "p2") sample_project));
    try reflexivity; discriminate.
Defined.

(** ** What a call leaves alone *)

Lemma _insert_outcome table fields st :
  (_insert table fields st = (Ok (), (_insert table fields st).2)
   ∧ ∃ t r, st !! table = Some t
            ∧ (_insert table fields st).2
              = <[table := Table (tbl_defs t) (tbl_rows t ++ [r])]> st)
  ∨ (∃ e, _insert table fields st = (Raise e, st)).
Proof.
  rewrite _insert_unfold. destruct (st !! table) as [t|] eqn:Hst; [|right; by eexists].
  destruct (exec_insert _ _ _) as [t'|e] eqn:Hins; [|right; by eexists].
  left. split; [done|]. apply exec_insert_Ok in Hins as (_ & _ & _ & _ & _ & ->).
  by exists t, (new_row (tbl_defs t) (zip (keys fields) (values fields))).
Qed.

Lemma update_rows_length n test f (rows : list row) :
  length (update_rows n test f rows) = length rows.
Proof.
  revert n. induction rows as [|r rows IH]; intros n; simpl; [done|].
  destruct (test r); [destruct n as [[|n']|]|]; simpl; by rewrite ?IH.
Qed.

Lemma exec_update_Ok t field conds limit params t' :
  exec_update t field conds limit params = Ok t' →
  tbl_defs t' = tbl_defs t
  ∧ ∃ n test v, tbl_rows t' = update_rows n test (set_cell field v) (tbl_rows t).
Proof.
  unfold exec_update. case_decide; [|done].
  destruct params as [|new_value params]; [done|]. case_decide; [|done].
  set (rows' := update_rows _ _ _ _). case_decide as Hsame.
  - intros [= <-]. split; [done|]. do 3 eexists. symmetry. exact Hsame.
  - destruct (_ && _); [done|]. destruct (_ && _); [done|].
    intros [= <-]. split; [done|]. by do 3 eexists.
Qed.

Lemma _update_outcome table field new_value fields limit st :
  (∃ out t t', _update table field new_value fields limit st
               = (Ok out, <[table := t']> st)
               ∧ st !! table = Some t ∧ tbl_defs t' = tbl_defs t
               ∧ ∃ n test v, tbl_rows t' = update_rows n test (set_cell field v) (tbl_rows t))
  ∨ (∃ e, _update table field new_value fields limit st = (Raise e, st)).
Proof.
  rewrite _update_unfold. destruct (st !! table) as [t|] eqn:Hst; [|right; by eexists].
  destruct (exec_update _ _ _ _ _) as [t'|e] eqn:Hup; [|right; by eexists].
  left. apply exec_update_Ok in Hup as [Hdefs Hrows]. by exists [], t, t'.
Qed.

Lemma run_table c st :
  match table_of c with
  | None => run c st = initialize st
  | Some table =>
      (∃ e, run c st = (Raise e, st))
      ∨ (∃ t t', run c st = (Ok (), <[table := t']> st)
                 ∧ st !! table = Some t ∧ tbl_defs t' = tbl_defs t
                 ∧ ((∃ r, tbl_rows t' = tbl_rows t ++ [r])
                    ∨ (∃ n test field v,
                         field ≠ "tick" ∧ field ≠ "dict" ∧ table ≠ "groups"
                         ∧ tbl_rows t'
                           = update_rows n test (set_cell field v) (tbl_rows t))))
  end.
Proof.
  assert (Hins : ∀ table fields,
    (∃ e, _insert table fields st = (Raise e, st))
    ∨ (∃ t t', _insert table fields st = (Ok (), <[table := t']> st)
               ∧ st !! table = Some t ∧ tbl_defs t' = tbl_defs t
               ∧ ((∃ r, tbl_rows t' = tbl_rows t ++ [r])
                  ∨ (∃ n test field v,
                       field ≠ "tick" ∧ field ≠ "dict" ∧ table ≠ "groups"
                       ∧ tbl_rows t'
                         = update_rows n test (set_cell field v) (tbl_rows t))))).
  { intros table fields.
    destruct (_insert_outcome table fields st) as [[Hok (t & r & Ht & Hst')]|He]; [|by left].
    right. rewrite Hst' in Hok. eexists t, _. split; [exact Hok|].
    split; [done|]. split; [done|]. left. by exists r. }
  assert (Hup : ∀ table field new_value fields limit,
    field ≠ "tick" → field ≠ "dict" → table ≠ "groups" →
    (∃ e, (_ ← _update table field new_value fields limit; mret ()) st = (Raise e, st))
    ∨ (∃ t t', (_ ← _update table field new_value fields limit; mret ()) st
               = (Ok (), <[table := t']> st)
               ∧ st !! table = Some t ∧ tbl_defs t' = tbl_defs t
               ∧ ((∃ r, tbl_rows t' = tbl_rows t ++ [r])
                  ∨ (∃ n test field v,
                       field ≠ "tick" ∧ field ≠ "dict" ∧ table ≠ "groups"
                       ∧ tbl_rows t'
                         = update_rows n test (set_cell field v) (tbl_rows t))))).
  { intros table field new_value fields limit Hf1 Hf2 Htab. unfold mbind, M_bind.
    destruct (_update_outcome table field new_value fields limit st)
      as [(out & t & t' & -> & Ht & Hdefs & n & test & v & Hrows)|[e ->]];
      [|left; by eexists].
    right. exists t, t'. split; [done|]. split; [done|]. split; [done|].
    right. by exists n, test, field, v. }
  destruct c as [|g|p|d|client event|g o n l|g o n l|g o n l]; simpl; try done;
    try apply Hins; try (by apply Hup).
  rewrite insert_database_unfold. destruct (dict_get _ _); [apply Hins|].
  left. by eexists.
Qed.

(** X10: a call that raises leaves the database as it was, whatever the call
    and the database; [initialize] never raises. *)
Theorem failed_call_changes_nothing c st e :
  (run c st).1 = Raise e → (run c st).2 = st ∧ c ≠ CallInitialize.
Proof.
  intros Hraise. pose proof (run_table c st) as Hrun.
  destruct (table_of c) as [table|] eqn:Htab.
  - split; [|by intros ->].
    destruct Hrun as [(e' & ->)|(t & t' & Hrun & _)]; [done|].
    by rewrite Hrun in Hraise.
  - rewrite Hrun in Hraise. by rewrite initialize_spec in Hraise.
Qed.

Lemma failed_call_changes_nothing_witness :
  (run (CallInsertGroup (Group_dict sample_group)) sample_db).2 = sample_db.
Proof.
  apply (failed_call_changes_nothing _ sample_db IntegrityError). reflexivity.
Defined.

Lemma _select_frame table fields limit (st1 st2 : db) :
  st1 !! table = st2 !! table →
  (_select table fields limit st1).1 = (_select table fields limit st2).1.
Proof. intros Heq. rewrite !_select_unfold, Heq. by destruct (st2 !! table). Qed.

(** X11: a call writes to one table and to no other: whatever the call and
    the database, every table but the one the call is for is left as it is,
    and a select from such a table returns what it returned before. In
    particular renaming a project does not touch its databases and events,
    and nothing checks or follows the declared foreign keys. *)
Theorem call_writes_one_table c table name st :
  table_of c = Some table → name ≠ table →
  (run c st).2 !! name = st !! name
  ∧ ∀ fields limit,
      (_select name fields limit (run c st).2).1 = (_select name fields limit st).1.
Proof.
  intros Htab Hne.
  assert (Hframe : (run c st).2 !! name = st !! name).
  { pose proof (run_table c st) as Hrun. rewrite Htab in Hrun.
    destruct Hrun as [(e & ->)|(t & t' & -> & _)]; [done|].
    simpl. by rewrite lookup_insert_ne. }
  split; [done|]. intros fields limit. by apply _select_frame.
Qed.

Lemma call_writes_one_table_witness :
  (_select "databases" [("group_name", VStr "g"); ("project", VStr "p1")] None
     (run (CallUpdateProjectName (VStr "g") (VStr "p1") (VStr "p2") None) sample_db).2).1
  = (_select "databases" [("group_name", VStr "g"); ("project", VStr "p1")] None
       sample_db).1.
Proof.
  apply (call_writes_one_table _ "projects" "databases" sample_db);
    [reflexivity|discriminate].
Defined.

(** ** Nothing is deleted, no event is rewritten *)

Lemma cell_set_cell_ne c v r c' : c' ≠ c → cell (set_cell c v r) c' = cell r c'.
Proof.
  intros Hne. unfold cell, set_cell. f_equal.
  induction r as [|[k x] r IH]; [done|].
  rewrite fmap_cons. simpl. case_decide as Hk; simpl.
  - subst k. rewrite !decide_False by done. apply IH.
  - case_decide; [done|apply IH].
Qed.

Lemma event_of_row_set_cell field v r :
  field ≠ "tick" → field ≠ "dict" →
  event_of_row (set_cell field v r) = event_of_row r.
Proof.
  intros H1 H2. unfold event_of_row. by rewrite !cell_set_cell_ne by done.
Qed.

Lemma event_of_row_update_rows n test field v (rows : list row) :
  field ≠ "tick" → field ≠ "dict" →
  event_of_row <$> update_rows n test (set_cell field v) rows = event_of_row <$> rows.
Proof.
  intros H1 H2. revert n. induction rows as [|r rows IH]; intros n; simpl; [done|].
  destruct (test r); [destruct n as [[|n']|]|]; rewrite ?fmap_cons, ?IH;
    by rewrite ?event_of_row_set_cell.
Qed.

Lemma rows_of_initialize st name :
  rows_of st name `prefix_of` rows_of (initialize st).2 name.
Proof.
  unfold rows_of at 1. destruct (st !! name) as [t|] eqn:Hst; [|apply prefix_nil].
  rewrite initialize_spec. simpl. unfold rows_of.
  by rewrite (created_keeps _ _ _ name t) by by do 3 apply created_keeps.
Qed.

(** X12: no call removes anything: whatever the call and the database, no
    table has fewer rows afterwards; the rows of groups before are still the
    first rows of groups; and the events before, with their ticks and
    payloads, are still the first events: an event, once stored, is never
    rewritten or dropped. *)
Theorem append_only c st :
  (∀ name, (length (rows_of st name) ≤ length (rows_of (run c st).2 name))%nat)
  ∧ rows_of st "groups" `prefix_of` rows_of (run c st).2 "groups"
  ∧ (event_of_row <$> rows_of st "events")
    `prefix_of` (event_of_row <$> rows_of (run c st).2 "events").
Proof.
  pose proof (run_table c st) as Hrun.
  destruct (table_of c) as [table|].
  - destruct Hrun as [(e & ->)|(t & t' & -> & Ht & _ & Hrows)]; [done|]. simpl.
    assert (Hother : ∀ name, name ≠ table →
              rows_of (<[table := t']> st) name = rows_of st name)
      by (intros name Hne; unfold rows_of; by rewrite lookup_insert_ne).
    assert (Hthis : rows_of (<[table := t']> st) table = tbl_rows t')
      by (unfold rows_of; by rewrite lookup_insert_eq).
    assert (Hold : rows_of st table = tbl_rows t) by (unfold rows_of; by rewrite Ht).
    split; [|split].
    + intros name. destruct (decide (name = table)) as [->|Hne];
        [|by rewrite Hother].
      rewrite Hthis, Hold.
      destruct Hrows as [[r ->]|(n & test & field & v & _ & _ & _ & ->)].
      * rewrite length_app. lia.
      * by rewrite update_rows_length.
    + destruct (decide ("groups" = table)) as [<-|Hne]; [|by rewrite Hother].
      rewrite Hthis, Hold.
      destruct Hrows as [[r ->]|(n & test & field & v & _ & _ & Hg & _)]; [|done].
      by apply prefix_app_r.
    + destruct (decide ("events" = table)) as [<-|Hne]; [|by rewrite Hother].
      rewrite Hthis, Hold.
      destruct Hrows as [[r ->]|(n & test & field & v & Hf1 & Hf2 & _ & ->)].
      * rewrite fmap_app. by apply prefix_app_r.
      * by rewrite event_of_row_update_rows.
  - rewrite Hrun. split; [|split].
    + intros name. by apply prefix_length, rows_of_initialize.
    + apply rows_of_initialize.
    + destruct (rows_of_initialize st "events") as [k ->].
      rewrite fmap_app. by apply prefix_app_r.
Qed.

(** ** The event log, further *)

Lemma max_tick_bounds (l : list Z) :
  l ≠ [] → max_tick l ∈ l ∧ ∀ m, m ∈ l → m ≤ max_tick l.
Proof.
  destruct l as [|n l]; [done|]. intros _. simpl.
  induction l as [|x l IH]; simpl.
  - split; [left|]. intros m ->%list_elem_of_singleton. lia.
  - destruct IH as [Hin Hle]. split.
    + destruct (Z.max_spec x (foldr Z.max n l)) as [[_ ->]|[_ ->]].
      * apply elem_of_cons in Hin as [->|Hin]; [left|right; by right].
      * right. left.
    + intros m Hm. apply elem_of_cons in Hm as [->|Hm].
      * pose proof (Hle n (list_elem_of_here _ _)). lia.
      * apply elem_of_cons in Hm as [->|Hm]; [lia|].
        pose proof (Hle m (list_elem_of_further _ _ _ Hm)). lia.
Qed.

Lemma last_tick_value group project database st :
  wf st →
  last_tick (VStr group) (VStr project) (VStr database) st
  = (Ok (VInt (max_tick (scope_ticks group project database st))), st).
Proof.
  intros Hwf.
  destruct (last_tick_max group project database st Hwf) as (n & -> & Hnil & Hmax).
  do 3 f_equal.
  destruct (scope_ticks group project database st) as [|x l] eqn:Hl; [by apply Hnil|].
  destruct Hmax as [Hin Hle]; [done|].
  destruct (max_tick_bounds (x :: l)) as [Hin' Hle']; [done|].
  specialize (Hle _ Hin'). specialize (Hle' _ Hin). lia.
Qed.

Lemma scope_ticks_stored group project database st :
  scope_ticks group project database st
  = (λ e, match e_tick e with VInt n => n | _ => 0 end)
      <$> stored_events group project database st.
Proof. unfold scope_ticks, stored_events. by rewrite <- list_fmap_compose. Qed.

Lemma insert_event_Ok group project database tick dict st st' :
  wf st →
  insert_event
    {| client_group := VStr group; client_project := VStr project;
       client_database := VStr database |}
    {| e_tick := VInt tick; e_dict := dict |} st = (Ok (), st') →
  wf st'
  ∧ st' = <["events" := Table events_cols
              (rows_of st "events" ++ [event_row group project database tick dict])]> st.
Proof.
  intros Hwf Hins.
  pose proof (insert_event_new _ _ _ _ _ _ _ Hwf Hins) as Hfresh.
  destruct (insert_event_fresh group project database tick dict st Hwf Hfresh)
    as (st'' & Hins' & Hwf' & Hst').
  rewrite Hins in Hins'. injection Hins' as <-. by split.
Qed.

Lemma stored_events_other_scope g p d g' p' d' tick dict st :
  (g', p', d') ≠ (g, p, d) →
  stored_events g' p' d'
    (<["events" := Table events_cols
         (rows_of st "events" ++ [event_row g p d tick dict])]> st)
  = stored_events g' p' d' st.
Proof.
  intros Hne. unfold stored_events at 1. unfold rows_of at 1.
  rewrite lookup_insert_eq. simpl. rewrite List.filter_app. simpl.
  replace (in_scope g' p' d' _) with false; [by rewrite app_nil_r|].
  symmetry. apply not_true_is_false. unfold in_scope. simpl.
  rewrite !andb_true_iff, !bool_decide_eq_true. intros [[[= ->] [= ->]] [= ->]]. done.
Qed.

(** X13: scopes do not see each other's events: after an event is inserted
    for one scope, on a well-formed database, [select_events] and [last_tick]
    for any other (group, project, database) return what they returned
    before. *)
Theorem insert_event_other_scope g p d tick dict g' p' d' st st' :
  wf st →
  insert_event
    {| client_group := VStr g; client_project := VStr p; client_database := VStr d |}
    {| e_tick := VInt tick; e_dict := dict |} st = (Ok (), st') →
  (g', p', d') ≠ (g, p, d) →
  (∀ k events, select_events (VStr g') (VStr p') (VStr d') (VInt k) st = (Ok events, st) →
               select_events (VStr g') (VStr p') (VStr d') (VInt k) st' = (Ok events, st'))
  ∧ (∀ n, last_tick (VStr g') (VStr p') (VStr d') st = (Ok n, st) →
          last_tick (VStr g') (VStr p') (VStr d') st' = (Ok n, st')).
Proof.
  intros Hwf Hins Hne.
  destruct (insert_event_Ok _ _ _ _ _ _ _ Hwf Hins) as [Hwf' ->].
  pose proof (stored_events_other_scope g p d g' p' d' tick dict st Hne) as Hsame.
  split.
  - intros k events Hsel.
    destruct (select_events_sorted g' p' d' k st Hwf) as (es & Hes & Hperm & Hsorted & _).
    rewrite Hsel in Hes. injection Hes as <-.
    apply select_events_unique; [done| |done]. by rewrite Hsame.
  - intros n. rewrite !last_tick_value by done. intros [= <-].
    by rewrite !scope_ticks_stored, Hsame.
Qed.

Lemma insert_event_other_scope_witness :
  let st' := (insert_event
                {| client_group := VStr "g"; client_project := VStr "p1";
                   client_database := VStr "d2" |}
                {| e_tick := VInt 9; e_dict := "{9}" |} sample_db).2 in
  last_tick (VStr "g") (VStr "p1") (VStr "d1") st' = (Ok (VInt 5), st').
Proof.
  intros st'.
  refine (proj2 (insert_event_other_scope "g" "p1" "d2" 9 "{9}" "g" "p1" "d1"
                   sample_db st' _ _ _) (VInt 5) _).
  - computed.
  - computed.
  - discriminate.
  - computed.
Defined.

(** X14: the last tick follows the writer: when an event is inserted with a
    tick above every tick of its scope (any tick, for a scope without
    events), [last_tick] of the scope then returns that tick. *)
Theorem last_tick_after_insert group project database tick dict st st' :
  wf st →
  insert_event
    {| client_group := VStr group; client_project := VStr project;
       client_database := VStr database |}
    {| e_tick := VInt tick; e_dict := dict |} st = (Ok (), st') →
  (∀ m, m ∈ scope_ticks group project database st → m < tick) →
  last_tick (VStr group) (VStr project) (VStr database) st' = (Ok (VInt tick), st').
Proof.
  intros Hwf Hins Hlt.
  destruct (insert_event_Ok _ _ _ _ _ _ _ Hwf Hins) as [Hwf' ->].
  rewrite last_tick_value by done. do 3 f_equal.
  rewrite scope_ticks_append.
  destruct (max_tick_bounds (scope_ticks group project database st ++ [tick]))
    as [Hin Hle]; [by destruct (scope_ticks _ _ _ _)|].
  specialize (Hle tick). rewrite elem_of_app in Hin, Hle.
  destruct Hin as [Hin|Hin%list_elem_of_singleton]; [|done].
  specialize (Hlt _ Hin). pose proof (Hle (or_intror (list_elem_of_here _ _))). lia.
Qed.

Lemma last_tick_after_insert_witness :
  let st' := (insert_event sample_client {| e_tick := VInt 8; e_dict := "{8}" |}
                sample_db).2 in
  last_tick (VStr "g") (VStr "p1") (VStr "d1") st' = (Ok (VInt 8), st').
Proof.
  intros st'.
  refine (last_tick_after_insert "g" "p1" "d1" 8 "{8}" sample_db st' _ _ _).
  - computed.
  - computed.
  - intros m Hm. apply list_elem_of_In in Hm. vm_compute in Hm. lia.
Defined.

Lemma stored_event_tick group project database st e :
  wf st → e ∈ stored_events group project database st →
  ∃ n, e_tick e = VInt n ∧ n ∈ scope_ticks group project database st.
Proof.
  intros Hwf He.
  destruct (wf_table st "events" events_cols Hwf) as (rows & Hst & Ht & _); [in_schema|].
  apply typed_rows_Forall in Ht. rewrite Forall_forall in Ht.
  rewrite scope_ticks_stored. unfold stored_events in *.
  rewrite (rows_of_lookup _ _ _ Hst) in *. simpl in *.
  pose proof He as He'. apply list_elem_of_fmap in He' as (r & -> & Hr).
  apply list_elem_of_In, filter_In in Hr as [Hr%list_elem_of_In _].
  destruct (typed_event_row r (Ht r Hr)) as (g & p & d & n & s & ->).
  exists n. split; [done|]. apply list_elem_of_fmap. eexists. split; [|exact He]. done.
Qed.

Lemma filter_nil_Forall {A} (P : A → bool) (l : list A) :
  (∀ x, x ∈ l → P x = false) → List.filter P l = [].
Proof.
  induction l as [|x l IH]; intros Hall; simpl; [done|].
  rewrite (Hall x) by left. apply IH. intros y Hy. apply Hall. by right.
Qed.



Lemma filter_Permutation {A} (P : A → bool) (l1 l2 : list A) :
  l1 ≡ₚ l2 → List.filter P l1 ≡ₚ List.filter P l2.
Proof.
  induction 1 as [|x l1 l2 _ IH|x y l|l1 l2 l3 _ IH1 _ IH2]; simpl.
  - done.
  - destruct (P x); by rewrite IH.
  - destruct (P x), (P y); try done. apply perm_swap.
  - by rewrite IH1.
Qed.

Lemma StronglySorted_filter {A} (R : relation A) (P : A → bool) (l : list A) :
  StronglySorted R l → StronglySorted R (List.filter P l).
Proof.
  induction 1 as [|x l Hs IH Hall]; simpl; [constructor|].
  destruct (P x); [|done]. constructor; [done|]. by apply Forall_filter.
Qed.



(** ** Keys *)

Lemma filter_same_key {A B} (f : A → B) (P : A → bool) (l : list A) b :
  NoDup (f <$> l) → (∀ x, P x = true → f x = b) →
  (length (List.filter P l) ≤ 1)%nat.
Proof.
  intros Hnd Hkey.
  destruct (List.filter P l) as [|x [|y l']] eqn:Hf; simpl; [lia|lia|exfalso].
  assert (Hnd' : NoDup (f <$> List.filter P l)) by by apply NoDup_fmap_filter.
  assert (Hx : P x = true ∧ P y = true).
  { split; [apply (filter_In P x l) | apply (filter_In P y l)];
      rewrite Hf; simpl; tauto. }
  rewrite Hf, !fmap_cons, (Hkey x), (Hkey y) in Hnd' by tauto.
  apply NoDup_cons in Hnd' as [Hnot _]. apply Hnot. left.
Qed.

(** X17: an identity key names at most one entity: on a well-formed database
    the select by a group's name, by a project's group and name, or by a
    database's group, project and name returns at most one object. *)
Theorem key_names_at_most_one default_tick st :
  wf st →
  (∀ name groups, name ≠ "" →
     select_groups (VStr name) None st = (Ok groups, st) → (length groups ≤ 1)%nat)
  ∧ (∀ group name projects, group ≠ "" → name ≠ "" →
       select_projects (VStr group) (VStr name) None st = (Ok projects, st) →
       (length projects ≤ 1)%nat)
  ∧ (∀ group project name databases, group ≠ "" → project ≠ "" → name ≠ "" →
       select_databases default_tick (VStr group) (VStr project) (VStr name) None st
       = (Ok databases, st) →
       (length databases ≤ 1)%nat).
Proof.
  intros Hwf.
  destruct (wf_table st "groups" groups_cols Hwf) as (rg & Hg & _ & Hng); [in_schema|].
  destruct (wf_table st "projects" projects_cols Hwf) as (rp & Hp & _ & Hnp); [in_schema|].
  destruct (wf_table st "databases" databases_cols Hwf) as (rd & Hd & _ & Hnd);
    [in_schema|].
  split; [|split].
  - intros name groups Hne. rewrite (select_groups_text _ _ _ rg) by done.
    intros [= <-]. rewrite length_fmap.
    change (apply_limit (limit_clause None) ?l) with l.
    apply (filter_same_key (pk_of groups_cols) _ _ [VStr name]); [done|].
    intros r Hr%holds_1. unfold pk_of. simpl. by rewrite Hr.
  - intros group name projects Hg' Hn'.
    rewrite (select_projects_text _ _ _ _ rp) by done.
    intros [= <-]. rewrite length_fmap.
    change (apply_limit (limit_clause None) ?l) with l.
    apply (filter_same_key (pk_of projects_cols) _ _ [VStr group; VStr name]); [done|].
    intros r [H1 H2]%holds_2. unfold pk_of. simpl. by rewrite H1, H2.
  - intros group project name databases Hg' Hp' Hn'.
    rewrite (select_databases_text _ _ _ _ _ _ rd) by done.
    intros [= <-]. rewrite length_fmap.
    change (apply_limit (limit_clause None) ?l) with l.
    apply (filter_same_key (pk_of databases_cols) _ _
             [VStr group; VStr project; VStr name]); [done|].
    intros r (H1 & H2 & H3)%holds_3. unfold pk_of. simpl. by rewrite H1, H2, H3.
Qed.

Lemma key_names_at_most_one_witness :
  let projects := match (select_projects (VStr "g") (VStr "p1") None clash_db).1 with
                  | Ok projects => projects
                  | Raise _ => []
                  end in
  select_projects (VStr "g") (VStr "p1") None clash_db = (Ok projects, clash_db)
  ∧ (length projects ≤ 1)%nat.
Proof.
  intros projects.
  assert (Hsel : select_projects (VStr "g") (VStr "p1") None clash_db
                 = (Ok projects, clash_db)) by computed.
  split; [exact Hsel|].
  refine (proj1 (proj2 (key_names_at_most_one VNone clash_db _))
            "g" "p1" projects _ _ Hsel).
  - computed.
  - discriminate.
  - discriminate.
Defined.

(** ** Limits *)

Lemma _select_limit table fields n st :
  0 < n →
  _select table fields (Some n) st = first_n (Z.to_nat n) (_select table fields None st).
Proof.
  intros Hn. rewrite !_select_unfold. destruct (st !! table) as [t|]; [|done].
  unfold exec_select. repeat case_decide; try done.
  unfold limit_clause, truthy, apply_limit, budget, first_n.
  destruct (Z.eqb_spec n 0) as [->|_]; [lia|]. simpl.
  destruct (Z.ltb_spec n 0); [lia|]. by rewrite fmap_take.
Qed.

Lemma select_limit {A} (f : row → A) table fields n st :
  0 < n →
  (results ← _select table fields (Some n); mret (f <$> results)) st
  = first_n (Z.to_nat n) ((results ← _select table fields None; mret (f <$> results)) st).
Proof.
  intros Hn. unfold mbind, M_bind, mret, M_ret. rewrite _select_limit by done.
  destruct (_select table fields None st) as [[rows|e] st']; simpl; [|done].
  by rewrite fmap_take.
Qed.

Lemma head_take_1 {A} (l : list A) : head (take 1 l) = head l.
Proof. by destruct l. Qed.

Lemma select_first {A} (objects : M (list A)) (limited : M (list A)) st :
  limited st = first_n 1 (objects st) →
  (objects ← limited; mret (head objects)) st = first_or_None (objects st).
Proof.
  intros Heq. unfold mbind, M_bind, mret, M_ret. rewrite Heq.
  destruct (objects st) as [[l|e] st']; simpl; [|done]. by rewrite head_take_1.
Qed.



(** ** The newest event *)

Lemma StronglySorted_snoc {A} (R : relation A) (l : list A) x :
  StronglySorted R l → Forall (λ y, R y x) l → StronglySorted R (l ++ [x]).
Proof.
  induction 1 as [|y l Hs IH Hall]; intros Hx; simpl.
  - by repeat constructor.
  - apply Forall_cons in Hx as [Hy Hx]. constructor; [by apply IH|].
    apply Forall_app. split; [done|]. by constructor.
Qed.

(** X19: a new event is delivered last: when every tick stored in a scope is
    below the tick of the inserted event, a client that reads the scope since
    a tick k below the new one gets what it got before the insert, followed
    by the new event. *)
Theorem new_event_comes_last group project database tick dict k events st st' :
  wf st →
  insert_event
    {| client_group := VStr group; client_project := VStr project;
       client_database := VStr database |}
    {| e_tick := VInt tick; e_dict := dict |} st = (Ok (), st') →
  (∀ m, m ∈ scope_ticks group project database st → m < tick) →
  k < tick →
  select_events (VStr group) (VStr project) (VStr database) (VInt k) st
  = (Ok events, st) →
  select_events (VStr group) (VStr project) (VStr database) (VInt k) st'
  = (Ok (events ++ [{| e_tick := VInt tick; e_dict := dict |}]), st').
Proof.
  intros Hwf Hins Hmax Hk Hsel.
  destruct (insert_event_Ok _ _ _ _ _ _ _ Hwf Hins) as [Hwf' ->].
  destruct (select_events_sorted group project database k st Hwf)
    as (es & Hes & Hperm & Hsorted & _).
  rewrite Hsel in Hes. injection Hes as <-.
  set (st' := <["events" := _]> st) in *.
  assert (Hstored : stored_events group project database st'
                    = stored_events group project database st
                      ++ [{| e_tick := VInt tick; e_dict := dict |}]).
  { unfold stored_events, st', rows_of at 1. rewrite lookup_insert_eq. simpl.
    rewrite List.filter_app, fmap_app. simpl.
    unfold in_scope at 2, event_row, cell. simpl.
    by rewrite !bool_decide_eq_true_2 by done. }
  apply select_events_unique; [done| |].
  - rewrite Hstored, List.filter_app. simpl.
    unfold after at 2. simpl. destruct (Z.ltb_spec k tick); [|lia].
    by rewrite Hperm.
  - apply StronglySorted_snoc; [done|].
    apply Forall_forall. intros e He. rewrite Hperm in He.
    apply list_elem_of_In, filter_In in He as [He%list_elem_of_In _].
    destruct (stored_event_tick _ _ _ _ _ Hwf He) as (m & Hm & Hin).
    exists m, tick. split; [done|]. split; [done|]. by apply Hmax.
Qed.

Lemma new_event_comes_last_witness :
  let st' := (insert_event sample_client {| e_tick := VInt 8; e_dict := "{8}" |}
                sample_db).2 in
  select_events (VStr "g") (VStr "p1") (VStr "d1") (VInt 3) st'
  = (Ok [{| e_tick := VInt 5; e_dict := "{5}" |};
         {| e_tick := VInt 8; e_dict := "{8}" |}], st').
Proof.
  intros st'.
  refine (new_event_comes_last "g" "p1" "d1" 8 "{8}" 3
            [{| e_tick := VInt 5; e_dict := "{5}" |}] sample_db st' _ _ _ _ _).
  - computed.
  - computed.
  - intros m Hm. vm_compute in Hm.
    repeat (apply elem_of_cons in Hm as [->|Hm]; [lia|]).
    by apply elem_of_nil in Hm.
  - lia.
  - computed.
Defined.

(** ** Listings *)

Lemma insert_group_rows (g : Group) st st' rows :
  st !! "groups" = Some (Table groups_cols rows) → valid_group g = true →
  insert_group (Group_dict g) st = (Ok (), st') →
  st' = <["groups" := Table groups_cols (rows ++ [Group_dict g])]> st.
Proof.
  intros Hst Hv. destruct g as [vn vd]. unfold valid_group in Hv. simpl in Hv.
  apply andb_true_iff in Hv as [(n & -> & Hn)%nonempty_text_inv
                                 (d & -> & Hd)%nonempty_text_inv].
  unfold insert_group, Default_attrs, Group_dict. cbn [g_name g_date].
  rewrite !drop_falsy_cons_true by by apply truthy_text.
  intros Hins. pose proof (_insert_Ok _ _ _ _ _ _ Hst Hins) as Hpk.
  rewrite (_insert_fresh _ groups_cols rows) in Hins; try done; [|solve_known].
  by injection Hins as <-.
Qed.

Lemma insert_project_rows (p : Project) st st' rows :
  st !! "projects" = Some (Table projects_cols rows) → valid_project p = true →
  insert_project (Project_dict p) st = (Ok (), st') →
  st' = <["projects" := Table projects_cols (rows ++ [Project_dict p])]> st.
Proof.
  intros Hst Hv. destruct p as [vg vn vh vf vt vd].
  unfold valid_project in Hv. simpl in Hv. rewrite !andb_true_iff in Hv.
  destruct Hv as [[[[[(g & -> & Hg)%nonempty_text_inv (n & -> & Hn)%nonempty_text_inv]
    (h & -> & Hh)%nonempty_text_inv] (f & -> & Hf)%nonempty_text_inv]
    (t & -> & Ht')%nonempty_text_inv] (d & -> & Hd)%nonempty_text_inv].
  unfold insert_project, Default_attrs, Project_dict.
  cbn [p_group_name p_name p_hash p_file p_type p_date].
  rewrite !drop_falsy_cons_true by by apply truthy_text.
  intros Hins. pose proof (_insert_Ok _ _ _ _ _ _ Hst Hins) as Hpk.
  rewrite (_insert_fresh _ projects_cols rows) in Hins; try done; [|solve_known].
  by injection Hins as <-.
Qed.

Lemma insert_database_rows (d : Database) st st' rows :
  st !! "databases" = Some (Table databases_cols rows) → valid_database d = true →
  insert_database (Database_dict d) st = (Ok (), st') →
  st' = <["databases" := Table databases_cols
            (rows ++ [[("group_name", d_group_name d); ("project", d_project d);
                       ("name", d_name d); ("date", d_date d)]])]> st.
Proof.
  intros Hst Hv. destruct d as [vg vp vn vd vt].
  unfold valid_database in Hv. simpl in Hv. rewrite !andb_true_iff in Hv.
  destruct Hv as [[[[(g & -> & Hg)%nonempty_text_inv (p & -> & Hp)%nonempty_text_inv]
    (n & -> & Hn)%nonempty_text_inv] (d & -> & Hd)%nonempty_text_inv] Htick].
  rewrite insert_database_truthy by done.
  cbn [d_group_name d_project d_name d_date].
  rewrite !drop_falsy_cons_true by by apply truthy_text.
  intros Hins. pose proof (_insert_Ok _ _ _ _ _ _ Hst Hins) as Hpk.
  rewrite (_insert_fresh _ databases_cols rows) in Hins; try done; [|solve_known].
  by injection Hins as <-.
Qed.

Lemma select_groups_all st rows :
  st !! "groups" = Some (Table groups_cols rows) →
  select_groups VNone None st = (Ok (Group_new <$> rows), st).
Proof.
  intros Hst. unfold select_groups, mbind, M_bind.
  erewrite _select_text; [| exact Hst | text_fields..].
  by rewrite drop_falsy_cons_false, filter_all.
Qed.

Lemma select_projects_of_group group st rows :
  st !! "projects" = Some (Table projects_cols rows) → group ≠ "" →
  select_projects (VStr group) VNone None st
  = (Ok (Project_new <$> List.filter (holds [("group_name", VStr group)]) rows), st).
Proof.
  intros Hst Hg. unfold select_projects, mbind, M_bind.
  erewrite _select_text; [| exact Hst | text_fields..].
  rewrite drop_falsy_cons_true by by apply truthy_text.
  by rewrite drop_falsy_cons_false.
Qed.



(** ** Renaming, further *)

Lemma _update_text_Ok table defs rows field new (fields : pydict) out st st' :
  st !! table = Some (Table defs rows) →
  affinity_of defs field = Some TEXT →
  Forall (λ kv, affinity_of defs kv.1 = Some TEXT ∧ ∃ s, kv.2 = VStr s ∧ s ≠ "") fields →
  _update table field (VStr new) fields None st = (Ok out, st') →
  st' = <[table := Table defs
            ((λ r, if holds fields r then set_cell field (VStr new) r else r) <$> rows)]> st.
Proof.
  intros Hst Hfield Hfields.
  destruct (_update_fields table defs rows field (VStr new) fields None st Hst)
    as (-> & Hk & Hm); [by eapply affinity_of_known|done|].
  unfold exec_update. simpl tbl_defs. simpl tbl_rows.
  rewrite decide_True by done.
  rewrite decide_True by (by rewrite length_fmap, keys_values_length).
  rewrite Hfield. simpl coerce. simpl budget. rewrite update_rows_all.
  erewrite (list_fmap_ext _ (λ r, if holds fields r then _ else r));
    [|intros i r _; simpl; by rewrite Hm].
  set (rows' := _ <$> rows).
  destruct (decide (rows' = rows)) as [->|Hne]; [by intros [= _ <-]|].
  destruct (_ && _); [done|]. destruct (_ && _); [done|]. by intros [= _ <-].
Qed.

Lemma filter_renamed_other (P T : row → bool) (set : row → row) (rows : list row) :
  (∀ r, r ∈ rows → P r = true → T r = false ∧ T (set r) = false) →
  List.filter T ((λ r, if P r then set r else r) <$> rows) = List.filter T rows.
Proof.
  induction rows as [|r rows IH]; intros Hother; [done|].
  rewrite fmap_cons. simpl. rewrite IH by (intros r' Hr'; apply Hother; by right).
  destruct (P r) eqn:HP; [|done].
  destruct (Hother r) as [-> ->]; [left|done|done].
Qed.

Lemma rename_cascade_Ok group old_name new_name st st' :
  rename_cascade group old_name new_name st = (Ok (), st') →
  ∃ out1 out2 out3 st1 st2,
    _update "projects" "name" new_name
      [("group_name", group); ("name", old_name)] None st = (Ok out1, st1)
    ∧ _update "databases" "project" new_name
        [("group_name", group); ("project", old_name)] None st1 = (Ok out2, st2)
    ∧ _update "events" "project" new_name
        [("group_name", group); ("project", old_name)] None st2 = (Ok out3, st').
Proof.
  unfold rename_cascade, update_project_name, update_database_project,
    update_events_project, mbind, M_bind, mret, M_ret.
  destruct (_update "projects" _ _ _ _ st) as [[out1|e1] st1] eqn:H1; [|done].
  destruct (_update "databases" _ _ _ _ st1) as [[out2|e2] st2] eqn:H2; [|done].
  destruct (_update "events" _ _ _ _ st2) as [[out3|e3] st3] eqn:H3; [|done].
  intros [= <-]. by exists out1, out2, out3, st1, st2.
Qed.

Ltac name_fields :=
  repeat (apply List.Forall_cons; [split; [done|eauto]|]); apply List.Forall_nil.

Lemma rename_cascade_tables group old_name new_name st st' :
  wf st → group ≠ "" → old_name ≠ "" →
  rename_cascade (VStr group) (VStr old_name) (VStr new_name) st = (Ok (), st') →
  ∃ rp rd re,
    st !! "projects" = Some (Table projects_cols rp)
    ∧ st !! "databases" = Some (Table databases_cols rd)
    ∧ st !! "events" = Some (Table events_cols re)
    ∧ wf st'
    ∧ st' = <["events" := Table events_cols
                (rename_rows "project" group old_name new_name re)]>
            (<["databases" := Table databases_cols
                 (rename_rows "project" group old_name new_name rd)]>
               (<["projects" := Table projects_cols
                    (rename_rows "name" group old_name new_name rp)]> st)).
Proof.
  intros Hwf Hg Ho Hren.
  destruct (rename_cascade_Ok _ _ _ _ _ Hren) as (o1 & o2 & o3 & st1 & st2 & H1 & H2 & H3).
  assert (Hwf1 : wf st1).
  { replace st1 with (_update "projects" "name" (VStr new_name)
      [("group_name", VStr group); ("name", VStr old_name)] None st).2 by by rewrite H1.
    apply (wf_update _ projects_cols); [done|]. apply list_elem_of_In. simpl. tauto. }
  assert (Hwf2 : wf st2).
  { replace st2 with (_update "databases" "project" (VStr new_name)
      [("group_name", VStr group); ("project", VStr old_name)] None st1).2
      by by rewrite H2.
    apply (wf_update _ databases_cols); [done|]. apply list_elem_of_In. simpl. tauto. }
  assert (Hwf' : wf st').
  { replace st' with (_update "events" "project" (VStr new_name)
      [("group_name", VStr group); ("project", VStr old_name)] None st2).2
      by by rewrite H3.
    apply (wf_update _ events_cols); [done|]. apply list_elem_of_In. simpl. tauto. }
  destruct (wf_table st "projects" projects_cols Hwf) as (rp & Hp & _ & _); [in_schema|].
  destruct (wf_table st1 "databases" databases_cols Hwf1) as (rd & Hd & _ & _);
    [in_schema|].
  destruct (wf_table st2 "events" events_cols Hwf2) as (re & He & _ & _); [in_schema|].
  apply (_update_text_Ok _ _ _ _ _ _ _ _ _ Hp) in H1; [|done|name_fields].
  apply (_update_text_Ok _ _ _ _ _ _ _ _ _ Hd) in H2; [|done|name_fields].
  apply (_update_text_Ok _ _ _ _ _ _ _ _ _ He) in H3; [|done|name_fields].
  exists rp, rd, re. split; [done|]. split; [|split; [|split; [done|]]].
  - rewrite <- Hd, H1. by rewrite lookup_insert_ne.
  - rewrite <- He, H2, H1. by rewrite !lookup_insert_ne.
  - by rewrite H3, H2, H1.
Qed.

Lemma typed_table st name defs rows :
  wf st →
  (name, defs) ∈ [("groups", groups_cols); ("projects", projects_cols);
                  ("databases", databases_cols); ("events", events_cols)] →
  st !! name = Some (Table defs rows) →
  (∀ r, r ∈ rows → typed_row defs r = true) ∧ NoDup (pk_of defs <$> rows).
Proof.
  intros Hwf Hin Hst. destruct (wf_table st name defs Hwf Hin) as (rows' & Hst' & Ht & Hnd).
  rewrite Hst in Hst'. injection Hst' as <-.
  apply typed_rows_Forall in Ht. by rewrite Forall_forall in Ht.
Qed.

(** X21: a rename leaves every other project alone: when the three updates of
    a project rename return, on a well-formed database, the groups, and the
    project, the databases, the events and the last tick of any project that
    is neither the renamed one nor one of the new name in that group, are
    what they were. *)
Theorem rename_leaves_the_others default_tick group old_name new_name st st' :
  wf st → group ≠ "" → old_name ≠ "" →
  rename_cascade (VStr group) (VStr old_name) (VStr new_name) st = (Ok (), st') →
  (∀ name limit groups,
     select_groups name limit st = (Ok groups, st) →
     select_groups name limit st' = (Ok groups, st'))
  ∧ ∀ g p,
      g ≠ "" → p ≠ "" → (g, p) ≠ (group, old_name) → (g, p) ≠ (group, new_name) →
      (∀ projects,
         select_projects (VStr g) (VStr p) None st = (Ok projects, st) →
         select_projects (VStr g) (VStr p) None st' = (Ok projects, st'))
      ∧ (∀ databases,
           select_databases default_tick (VStr g) (VStr p) VNone None st
           = (Ok databases, st) →
           select_databases default_tick (VStr g) (VStr p) VNone None st'
           = (Ok databases, st'))
      ∧ (∀ d k events,
           select_events (VStr g) (VStr p) (VStr d) (VInt k) st = (Ok events, st) →
           select_events (VStr g) (VStr p) (VStr d) (VInt k) st' = (Ok events, st'))
      ∧ (∀ d tick,
           last_tick (VStr g) (VStr p) (VStr d) st = (Ok tick, st) →
           last_tick (VStr g) (VStr p) (VStr d) st' = (Ok tick, st')).
Proof.
  intros Hwf Hg Ho Hren.
  destruct (rename_cascade_tables _ _ _ _ _ Hwf Hg Ho Hren)
    as (rp & rd & re & Hp & Hd & He & Hwf' & Hst').
  destruct (typed_table st "projects" projects_cols rp Hwf ltac:(in_schema) Hp) as [Htp _].
  destruct (typed_table st "databases" databases_cols rd Hwf ltac:(in_schema) Hd) as [Htd _].
  destruct (typed_table st "events" events_cols re Hwf ltac:(in_schema) He) as [Hte _].
  assert (Hg' : st' !! "groups" = st !! "groups")
    by (rewrite Hst'; by rewrite !lookup_insert_ne).
  assert (Hp' : st' !! "projects"
                = Some (Table projects_cols (rename_rows "name" group old_name new_name rp)))
    by (rewrite Hst'; do 2 (rewrite lookup_insert_ne by done);
        by rewrite lookup_insert_eq).
  assert (Hd' : st' !! "databases"
                = Some (Table databases_cols
                          (rename_rows "project" group old_name new_name rd)))
    by (rewrite Hst'; rewrite lookup_insert_ne by done; by rewrite lookup_insert_eq).
  assert (He' : st' !! "events"
                = Some (Table events_cols
                          (rename_rows "project" group old_name new_name re)))
    by (rewrite Hst'; by rewrite lookup_insert_eq).
  clear Hst'. split.
  { intros name limit groups. unfold select_groups, mbind, M_bind.
    pose proof (_select_frame "groups" [("name", name)] limit st' st Hg') as Hframe.
    destruct (_select "groups" _ limit st) as [[rows|e] s] eqn:Hsel; [|done].
    intros [= <- _]. pose proof (_select_unfold "groups" [("name", name)] limit st') as Hun.
    destruct (_select "groups" _ limit st') as [r s']. simpl in Hframe. subst r.
    assert (s' = st') as -> by (destruct (st' !! "groups"); by injection Hun). done. }
  intros g p Hgne Hpne Hold Hnew.
  assert (Hscope : ∀ d,
    List.filter (in_scope g p d) (rename_rows "project" group old_name new_name re)
    = List.filter (in_scope g p d) re).
  { intros d. apply filter_renamed_other. intros r Hr HP.
    destruct (typed_event_row r (Hte r Hr)) as (g1 & p1 & d1 & n1 & s1 & ->).
    apply holds_2 in HP as [[= ->] [= ->]].
    unfold in_scope, cell. simpl.
    split; apply andb_false_iff; left; apply andb_false_iff;
      destruct (decide (group = g)) as [->|Hne];
      try (left; apply bool_decide_eq_false_2; congruence);
      right; apply bool_decide_eq_false_2; congruence. }
  assert (Hstored : ∀ d, stored_events g p d st' = stored_events g p d st).
  { intros d. unfold stored_events.
    rewrite (rows_of_lookup _ _ _ He'), (rows_of_lookup _ _ _ He). simpl.
    by rewrite Hscope. }
  split; [|split; [|split]].
  - intros projects. rewrite (select_projects_text _ _ _ _ rp) by done. intros [= <-].
    erewrite select_projects_text; [|exact Hp'|done..].
    change (apply_limit (limit_clause None) ?l) with l.
    unfold rename_rows. rewrite filter_renamed_other; [done|]. intros r Hr HP.
    destruct (typed_project_row r (Htp r Hr)) as (g1 & n1 & h1 & f1 & t1 & d1 & ->).
    apply holds_2 in HP as [[= ->] [= ->]].
    split; apply holds_2_false; unfold cell; simpl; intros [[= ->] [= ->]]; done.
  - intros databases. rewrite (select_databases_of_project _ _ _ _ _ rd) by done.
    intros [= <-].
    erewrite select_databases_of_project; [|exact Hd'|done..].
    change (apply_limit (limit_clause None) ?l) with l.
    unfold rename_rows. rewrite filter_renamed_other; [done|]. intros r Hr HP.
    destruct (typed_database_row r (Htd r Hr)) as (g1 & p1 & n1 & d1 & ->).
    apply holds_2 in HP as [[= ->] [= ->]].
    split; apply holds_2_false; unfold cell; simpl; intros [[= ->] [= ->]]; done.
  - intros d k events Hsel.
    destruct (select_events_sorted g p d k st Hwf) as (es & Hes & Hperm & Hsorted & _).
    rewrite Hsel in Hes. injection Hes as <-.
    apply select_events_unique; [done| |done]. by rewrite Hstored.
  - intros d tick. rewrite !last_tick_value by done.
    rewrite !scope_ticks_stored, Hstored. by intros [= <-].
Qed.

Lemma rename_leaves_the_others_witness :
  let st' := (rename_cascade (VStr "g") (VStr "p1") (VStr "p3") clash_db).2 in
  select_projects (VStr "g") (VStr "p2") None st'
  = (Ok [with_name (VStr "p2") sample_project], st').
Proof.
  intros st'.
  refine (proj1 (proj2 (rename_leaves_the_others VNone "g" "p1" "p3" clash_db st'
                          _ _ _ _) "g" "p2" _ _ _ _) _ _);
    first [computed | congruence].
Defined.

Lemma insert_eq_inv (st : db) name t1 t2 : <[name := t1]> st = <[name := t2]> st → t1 = t2.
Proof.
  intros Heq. assert (H : (<[name := t1]> st) !! name = (<[name := t2]> st) !! name)
    by by rewrite Heq.
  rewrite !lookup_insert_eq in H. by injection H.
Qed.

(** X22: a rename moves the whole project: on a well-formed database where
    the group has no project, database or event under the new name, the
    three updates return; afterwards the project, its databases, and for each
    database its events and its last tick are found under the new name as
    they were under the old one, and under the old name there is nothing
    left: no project, no database, no event, last tick 0. *)
Theorem rename_moves_the_project default_tick group old_name new_name st :
  wf st →
  group ≠ "" → old_name ≠ "" → new_name ≠ "" → old_name ≠ new_name →
  select_projects (VStr group) (VStr new_name) None st = (Ok [], st) →
  select_databases default_tick (VStr group) (VStr new_name) VNone None st = (Ok [], st) →
  _select "events" [("group_name", VStr group); ("project", VStr new_name)] None st
  = (Ok [], st) →
  ∃ st',
    rename_cascade (VStr group) (VStr old_name) (VStr new_name) st = (Ok (), st')
    ∧ wf st'
    ∧ (∀ ps, select_projects (VStr group) (VStr old_name) None st = (Ok ps, st) →
         select_projects (VStr group) (VStr new_name) None st'
         = (Ok (with_name (VStr new_name) <$> ps), st'))
    ∧ select_projects (VStr group) (VStr old_name) None st' = (Ok [], st')
    ∧ (∀ ds, select_databases default_tick (VStr group) (VStr old_name) VNone None st
             = (Ok ds, st) →
         select_databases default_tick (VStr group) (VStr new_name) VNone None st'
         = (Ok (with_project (VStr new_name) <$> ds), st'))
    ∧ select_databases default_tick (VStr group) (VStr old_name) VNone None st'
      = (Ok [], st')
    ∧ (∀ database k es,
         select_events (VStr group) (VStr old_name) (VStr database) (VInt k) st
         = (Ok es, st) →
         select_events (VStr group) (VStr new_name) (VStr database) (VInt k) st'
         = (Ok es, st'))
    ∧ (∀ database tick,
         last_tick (VStr group) (VStr old_name) (VStr database) st = (Ok tick, st) →
         last_tick (VStr group) (VStr new_name) (VStr database) st' = (Ok tick, st'))
    ∧ (∀ database k,
         select_events (VStr group) (VStr old_name) (VStr database) (VInt k) st'
         = (Ok [], st'))
    ∧ (∀ database,
         last_tick (VStr group) (VStr old_name) (VStr database) st' = (Ok (VInt 0), st')).
Proof.
  intros Hwf Hg Ho Hn Hon HfP HfD HfE.
  destruct (rename_cascade_spec default_tick group old_name new_name st
              Hwf Hg Ho Hn Hon HfP HfD HfE)
    as (st' & Hren & Hwf' & HP1 & HP2 & HD1 & HD2 & HE1 & HE2).
  exists st'. do 6 (split; [done|]). split; [done|].
  assert (Hempty : ∀ database, stored_events group old_name database st' = []).
  { intros database.
    destruct (select_events_sorted group old_name database
                (max_tick (scope_ticks group old_name database st') - 1) st' Hwf')
      as (es & Hes & Hperm & _).
    rewrite HE2 in Hes. injection Hes as <-.
    apply Permutation_nil_l in Hperm.
    destruct (decide (stored_events group old_name database st' = [])) as [|Hne];
      [done|exfalso].
    destruct (max_tick_bounds (scope_ticks group old_name database st')) as [Hin _].
    { rewrite scope_ticks_stored. by intros ?%fmap_nil_inv. }
    rewrite scope_ticks_stored in Hin at 2.
    apply list_elem_of_fmap in Hin as (e' & Hmax & He').
    destruct (stored_event_tick _ _ _ _ _ Hwf' He') as (m & Hm & _).
    rewrite Hm in Hmax.
    assert (Hafter : In e' (List.filter
               (after (max_tick (scope_ticks group old_name database st') - 1))
               (stored_events group old_name database st'))).
    { apply filter_In. split; [by apply list_elem_of_In|].
      unfold after. rewrite Hm. apply Z.ltb_lt. lia. }
    by rewrite <- Hperm in Hafter. }
  split; [|split; [done|]].
  - intros database tick. rewrite !last_tick_value by done. intros [= <-].
    rewrite !scope_ticks_stored.
    enough (stored_events group new_name database st'
            = stored_events group old_name database st) as -> by done.
    destruct (rename_cascade_tables _ _ _ _ _ Hwf Hg Ho Hren)
      as (rp & rd & re & Hp & Hd & He & _ & Hst').
    destruct (typed_table st "events" events_cols re Hwf ltac:(in_schema) He) as [Hte Hnde].
    erewrite _select_text in HfE; [|exact He|text_fields..].
    rewrite !drop_falsy_cons_true in HfE by by apply truthy_text.
    injection HfE as HfE. change (apply_limit (limit_clause None) ?l) with l in HfE.
    assert (Hst2 : (<["databases" := Table databases_cols
                        (rename_rows "project" group old_name new_name rd)]>
                      (<["projects" := Table projects_cols
                           (rename_rows "name" group old_name new_name rp)]> st))
                   !! "events" = Some (Table events_cols re))
      by by rewrite !lookup_insert_ne.
    destruct (rename_events group old_name new_name Hg Ho Hon _ re Hst2
                (proj2 (typed_rows_Forall _ _) (proj2 (Forall_forall _ _) Hte)) Hnde HfE)
      as (rows' & Hup & _ & _ & Hnew & _).
    unfold stored_events. rewrite Hst'. unfold rows_of at 1.
    rewrite lookup_insert_eq, (rows_of_lookup _ _ _ He). simpl.
    enough (rows' = rename_rows "project" group old_name new_name re) as <-
      by apply Hnew.
    unfold update_events_project, mbind, M_bind in Hup.
    destruct (_update "events" _ _ _ _ _) as [[out|e] s] eqn:Hup'; [|done].
    injection Hup as ->.
    apply (_update_text_Ok _ _ _ _ _ _ _ _ _ Hst2) in Hup'; [|done|name_fields].
    apply insert_eq_inv in Hup'. by injection Hup'.
  - intros database. rewrite last_tick_value by done.
    by rewrite scope_ticks_stored, Hempty.
Qed.

Lemma rename_moves_the_project_witness :
  ∃ st',
    rename_cascade (VStr "g") (VStr "p1") (VStr "p2") sample_db = (Ok (), st')
    ∧ last_tick (VStr "g") (VStr "p2") (VStr "d1") st' = (Ok (VInt 5), st')
    ∧ last_tick (VStr "g") (VStr "p1") (VStr "d1") st' = (Ok (VInt 0), st').
Proof.
  destruct (rename_moves_the_project VNone "g" "p1" "p2" sample_db)
    as (st' & Hren & _ & _ & _ & _ & _ & _ & Hlast & _ & Hzero);
    try computed; try discriminate.
  exists st'. split; [done|]. split; [|done]. apply Hlast. computed.
Defined.

Lemma rename_rows_back field group old_name new_name (rows : list row) :
  (∀ r, r ∈ rows →
     holds [("group_name", VStr group); (field, VStr new_name)] r = false) →
  (∀ r, r ∈ rows →
     holds [("group_name", VStr group); (field, VStr old_name)] r = true →
     holds [("group_name", VStr group); (field, VStr new_name)]
       (set_cell field (VStr new_name) r) = true
     ∧ set_cell field (VStr old_name) (set_cell field (VStr new_name) r) = r) →
  rename_rows field group new_name old_name
    (rename_rows field group old_name new_name rows) = rows.
Proof.
  intros Hfresh Hset. unfold rename_rows. rewrite <- list_fmap_compose.
  rewrite <- (list_fmap_id rows) at 2. apply list_fmap_ext.
  intros i r Hr%list_elem_of_lookup_2. unfold compose, id. cbv beta.
  destruct (holds [("group_name", VStr group); (field, VStr old_name)] r) eqn:HP.
  - destruct (Hset r Hr HP) as [-> ->]. done.
  - by rewrite Hfresh.
Qed.

Lemma update_rename table defs field group old_name new_name rows st :
  st !! table = Some (Table defs rows) →
  affinity_of defs field = Some TEXT → affinity_of defs "group_name" = Some TEXT →
  group ≠ "" → old_name ≠ "" →
  NoDup (pk_of defs <$> rename_rows field group old_name new_name rows) →
  _update table field (VStr new_name)
    [("group_name", VStr group); (field, VStr old_name)] None st
  = (Ok [], <[table := Table defs (rename_rows field group old_name new_name rows)]> st).
Proof.
  intros Hst Hf Hg Hgne Hone Hnd. apply _update_text; try done. name_fields.
Qed.

(** X23: renaming a project and renaming it back restores the database: on a
    well-formed database where the group has no project, database or event
    under the new name, the rename to the new name followed by the rename
    back to the old one both return and leave every table, rows and their
    order included, exactly as it was. *)
Theorem rename_there_and_back default_tick group old_name new_name st :
  wf st →
  group ≠ "" → old_name ≠ "" → new_name ≠ "" → old_name ≠ new_name →
  select_projects (VStr group) (VStr new_name) None st = (Ok [], st) →
  select_databases default_tick (VStr group) (VStr new_name) VNone None st = (Ok [], st) →
  _select "events" [("group_name", VStr group); ("project", VStr new_name)] None st
  = (Ok [], st) →
  (_ ← rename_cascade (VStr group) (VStr old_name) (VStr new_name);
   rename_cascade (VStr group) (VStr new_name) (VStr old_name)) st
  = (Ok (), st).
Proof.
  intros Hwf Hg Ho Hn Hon HfP HfD HfE.
  destruct (rename_cascade_spec default_tick group old_name new_name st
              Hwf Hg Ho Hn Hon HfP HfD HfE) as (st' & Hren & _).
  destruct (rename_cascade_tables _ _ _ _ _ Hwf Hg Ho Hren)
    as (rp & rd & re & Hp & Hd & He & _ & Hst').
  destruct (typed_table st "projects" projects_cols rp Hwf ltac:(in_schema) Hp)
    as [Htp Hndp].
  destruct (typed_table st "databases" databases_cols rd Hwf ltac:(in_schema) Hd)
    as [Htd Hndd].
  destruct (typed_table st "events" events_cols re Hwf ltac:(in_schema) He)
    as [Hte Hnde].
  rewrite (select_projects_text _ _ _ _ rp) in HfP by done.
  injection HfP as HfP%fmap_nil_inv.
  rewrite (select_databases_of_project _ _ _ _ _ rd) in HfD by done.
  injection HfD as HfD%fmap_nil_inv.
  erewrite _select_text in HfE; [|exact He|text_fields..].
  rewrite !drop_falsy_cons_true in HfE by by apply truthy_text.
  injection HfE as HfE.
  change (apply_limit (limit_clause None) ?l) with l in HfP, HfD, HfE.
  assert (Hbp : rename_rows "name" group new_name old_name
                  (rename_rows "name" group old_name new_name rp) = rp).
  { apply rename_rows_back; [intros r Hr; exact (filter_nil_not_elem _ _ _ HfP Hr)|].
    intros r Hr HP.
    destruct (typed_project_row r (Htp r Hr)) as (g1 & n1 & h1 & f1 & t1 & d1 & ->).
    apply holds_2 in HP as [[= ->] [= ->]]. split; [by apply holds_2|done]. }
  assert (Hbd : rename_rows "project" group new_name old_name
                  (rename_rows "project" group old_name new_name rd) = rd).
  { apply rename_rows_back; [intros r Hr; exact (filter_nil_not_elem _ _ _ HfD Hr)|].
    intros r Hr HP.
    destruct (typed_database_row r (Htd r Hr)) as (g1 & p1 & n1 & d1 & ->).
    apply holds_2 in HP as [[= ->] [= ->]]. split; [by apply holds_2|done]. }
  assert (Hbe : rename_rows "project" group new_name old_name
                  (rename_rows "project" group old_name new_name re) = re).
  { apply rename_rows_back; [intros r Hr; exact (filter_nil_not_elem _ _ _ HfE Hr)|].
    intros r Hr HP.
    destruct (typed_event_row r (Hte r Hr)) as (g1 & p1 & d1 & n1 & s1 & ->).
    apply holds_2 in HP as [[= ->] [= ->]]. split; [by apply holds_2|done]. }
  unfold mbind at 1. unfold M_bind at 1. rewrite Hren.
  unfold rename_cascade, update_project_name, update_database_project,
    update_events_project, mbind, M_bind, mret, M_ret.
  erewrite (update_rename "projects" projects_cols "name" group new_name old_name
              (rename_rows "name" group old_name new_name rp)); try done;
    [|by rewrite Hst'; do 2 (rewrite lookup_insert_ne by done);
         rewrite lookup_insert_eq
     |by rewrite Hbp].
  erewrite (update_rename "databases" databases_cols "project" group new_name old_name
              (rename_rows "project" group old_name new_name rd)); try done;
    [|by rewrite Hst'; do 2 (rewrite lookup_insert_ne by done);
         rewrite lookup_insert_eq
     |by rewrite Hbd].
  erewrite (update_rename "events" events_cols "project" group new_name old_name
              (rename_rows "project" group old_name new_name re)); try done;
    [|by rewrite Hst'; do 2 (rewrite lookup_insert_ne by done);
         rewrite lookup_insert_eq
     |by rewrite Hbe].
  rewrite Hbp, Hbd, Hbe. f_equal. apply map_eq. intros name.
  destruct (decide (name = "events")) as [->|Hne1];
    [by rewrite lookup_insert_eq|rewrite lookup_insert_ne by done].
  destruct (decide (name = "databases")) as [->|Hne2];
    [by rewrite lookup_insert_eq|rewrite lookup_insert_ne by done].
  destruct (decide (name = "projects")) as [->|Hne3];
    [by rewrite lookup_insert_eq|rewrite lookup_insert_ne by done].
  rewrite Hst'. by rewrite !lookup_insert_ne.
Qed.

Lemma rename_there_and_back_witness :
  (_ ← rename_cascade (VStr "g") (VStr "p1") (VStr "p2");
   rename_cascade (VStr "g") (VStr "p2") (VStr "p1")) sample_db
  = (Ok (), sample_db).
Proof.
  refine (rename_there_and_back VNone "g" "p1" "p2" sample_db _ _ _ _ _ _ _ _);
    first [computed | discriminate].
Defined.

(** ** Before the tables exist *)

Lemma _insert_no_table table fields st :
  st !! table = None → _insert table fields st = (Raise OperationalError, st).
Proof. intros Hst. by rewrite _insert_unfold, Hst. Qed.

Lemma _update_no_table table field new_value fields limit st :
  st !! table = None →
  (_ ← _update table field new_value fields limit; mret ()) st
  = (Raise OperationalError, st).
Proof. intros Hst. unfold mbind, M_bind. by rewrite _update_unfold, Hst. Qed.

Lemma _select_no_table {A} (f : list row → A) table fields limit st :
  st !! table = None →
  (results ← _select table fields limit; mret (f results)) st
  = (Raise OperationalError, st).
Proof. intros Hst. unfold mbind, M_bind. by rewrite _select_unfold, Hst. Qed.

(** X24: nothing works before [initialize]: on a database that lacks the
    table a call is for, the call raises and leaves the database as it was,
    with OperationalError, or, for [insert_database] of an object without a
    truthy tick, the KeyError that comes first; and every query of a missing
    table raises OperationalError. *)
Theorem needs_initialize default_tick st :
  (∀ c table,
     table_of c = Some table → st !! table = None →
     run c st = (Raise OperationalError, st)
     ∨ (∃ database, c = CallInsertDatabase database
                    ∧ run c st = (Raise KeyError, st)))
  ∧ (st !! "groups" = None →
     ∀ name limit,
       select_groups name limit st = (Raise OperationalError, st)
       ∧ select_group name st = (Raise OperationalError, st))
  ∧ (st !! "projects" = None →
     ∀ group name limit,
       select_projects group name limit st = (Raise OperationalError, st)
       ∧ select_project name st = (Raise OperationalError, st))
  ∧ (st !! "databases" = None →
     ∀ group project name limit,
       select_databases default_tick group project name limit st
       = (Raise OperationalError, st)
       ∧ select_database default_tick group project name st
         = (Raise OperationalError, st))
  ∧ (st !! "events" = None →
     ∀ group project database tick,
       select_events group project database tick st = (Raise OperationalError, st)
       ∧ last_tick group project database st = (Raise OperationalError, st)).
Proof.
  split; [|split; [|split; [|split]]].
  - intros c table Htab Hst.
    destruct c as [|g|p|d|client event|g o n l|g o n l|g o n l];
      simpl in Htab; try discriminate; injection Htab as <-; simpl;
      try (left; by apply _insert_no_table);
      try (left; by apply _update_no_table).
    rewrite insert_database_unfold.
    destruct (dict_get _ _); [left; by apply _insert_no_table|].
    right. by eexists.
  - intros Hst name limit.
    assert (Hsel : ∀ limit, select_groups name limit st = (Raise OperationalError, st))
      by (intros l; by apply (_select_no_table (fmap Group_new))).
    split; [done|]. unfold select_group, mbind, M_bind. by rewrite Hsel.
  - intros Hst group name limit.
    assert (Hsel : ∀ group name limit,
              select_projects group name limit st = (Raise OperationalError, st))
      by (intros g n l; by apply (_select_no_table (fmap Project_new))).
    split; [done|]. unfold select_project, mbind, M_bind. by rewrite Hsel.
  - intros Hst group project name limit.
    assert (Hsel : ∀ limit,
              select_databases default_tick group project name limit st
              = (Raise OperationalError, st))
      by (intros l; by apply (_select_no_table (fmap (Database_new default_tick)))).
    split; [done|]. unfold select_database, mbind, M_bind. by rewrite Hsel.
  - intros Hst group project database tick. split.
    + unfold select_events, mbind, M_bind, execute, select_events_stmt. by rewrite Hst.
    + unfold last_tick, mbind, M_bind, execute, last_tick_stmt. by rewrite Hst.
Qed.

Lemma needs_initialize_witness :
  run (CallInsertGroup (Group_dict sample_group)) ∅ = (Raise OperationalError, ∅).
Proof.
  destruct (proj1 (needs_initialize VNone ∅)
              (CallInsertGroup (Group_dict sample_group)) "groups" eq_refl
              (lookup_empty "groups"))
    as [Hraise|(database & Hcall & _)]; [exact Hraise|discriminate Hcall].
Defined.
